(** * API routing layer of alex-chat (src/api.ts)

    A shallow embedding of the routing, key-rotation and model-fallback
    logic of [src/api.ts], and the properties of it stated by the
    specification.

    Conventions of the embedding.
    - A JavaScript string is a sequence of UTF-16 code units.  The model
      uses [string] (a sequence of 8-bit characters), i.e. strings whose
      code units are below 256.  All the patterns and literals the code
      tests against are ASCII.
      A character outside ASCII in a literal of the source (an arrow, a
      dash, an emoji of a log line) stands in the model as its UTF-8 bytes.
    - A thrown value is an [Error] carrying a message; [throw e] and
      [throw new Error(e.message)] are both [Err msg].
    - The network, the abort signal, the random sort and the platform
      parsers ([JSON.parse], [URL]) are inputs, gathered in [Env].
    - The callbacks [onChunk], [onResetContent], [addLog] and every
      [fetch] append an [Event] to the trace carried by the state; the
      callbacks themselves do not raise.  [onChunk] is recorded with the
      string form of its argument. *)

From Stdlib Require Import String Ascii List Bool Arith Lia PeanoNat.
From Stdlib Require Import DecimalString Decimal.
Import ListNotations.

Local Open Scope string_scope.
Local Open Scope list_scope.
Local Open Scope nat_scope.

(* ================================================================== *)
(** ** JavaScript string primitives *)
(* ================================================================== *)

Module JS.

(** [s.startsWith(p)] *)
Fixpoint startsWith (p s : string) : bool :=
  match p with
  | EmptyString => true
  | String a p' =>
      match s with
      | EmptyString => false
      | String b s' => Ascii.eqb a b && startsWith p' s'
      end
  end.

(** [s.includes(p)] *)
Fixpoint includes (p s : string) : bool :=
  startsWith p s ||
  match s with
  | EmptyString => false
  | String _ s' => includes p s'
  end.

(** [s.slice(n)] for [n >= 0] *)
Fixpoint drop (n : nat) (s : string) : string :=
  match n with
  | O => s
  | S n' => match s with
            | EmptyString => EmptyString
            | String _ s' => drop n' s'
            end
  end.

(** [s.slice(0, n)] *)
Fixpoint take (n : nat) (s : string) : string :=
  match n with
  | O => EmptyString
  | S n' => match s with
            | EmptyString => EmptyString
            | String a s' => String a (take n' s')
            end
  end.

(** [s.slice(-n)]: the last [n] code units (all of [s] when shorter). *)
Definition takeLast (n : nat) (s : string) : string :=
  drop (String.length s - n) s.

(** White space and line terminators removed by [trim], below 256. *)
Definition isWhiteSpace (c : ascii) : bool :=
  let n := nat_of_ascii c in
  ((9 <=? n) && (n <=? 13) || (n =? 32) || (n =? 160))%nat.

Fixpoint trimStart (s : string) : string :=
  match s with
  | EmptyString => EmptyString
  | String c s' => if isWhiteSpace c then trimStart s' else s
  end.

Fixpoint trimEnd (s : string) : string :=
  match s with
  | EmptyString => EmptyString
  | String c s' =>
      match trimEnd s' with
      | EmptyString => if isWhiteSpace c then EmptyString else String c EmptyString
      | t => String c t
      end
  end.

(** [s.trim()] *)
Definition trim (s : string) : string := trimEnd (trimStart s).

(** [s.split(sep)] for a one-character separator: never empty. *)
Fixpoint split (sep : ascii) (s : string) : list string :=
  match s with
  | EmptyString => [EmptyString]
  | String c s' =>
      if Ascii.eqb c sep then EmptyString :: split sep s'
      else match split sep s' with
           | [] => [String c EmptyString]
           | l :: ls => String c l :: ls
           end
  end.

(** [l.join(sep)] *)
Fixpoint join (sep : string) (l : list string) : string :=
  match l with
  | [] => EmptyString
  | [x] => x
  | x :: rest => x ++ sep ++ join sep rest
  end.

(** Truthiness of a string: non-empty. *)
Definition truthy (s : string) : bool :=
  match s with EmptyString => false | _ => true end.

(** [a || b] on strings. *)
Definition orElse (a b : string) : string := if truthy a then a else b.

(** Number-to-string conversion of a non-negative integer. *)
Definition ofNat (n : nat) : string := NilZero.string_of_uint (Nat.to_uint n).

Definition LF : ascii := ascii_of_nat 10.
Definition CR : ascii := ascii_of_nat 13.
Definition nl : string := String LF EmptyString.

(** A value decoded from JSON that the code both tests ([if (v)]) and
    appends to a string ([s += v]).  A string is tested for non-emptiness
    and appended as it is.  Any other value is given by the two things the
    code uses of it, the outcome of its test and its string form:
    [Other true EmptyString] is the empty array, [Other true "1,2"] the
    array of 1 and 2, [Other true "true"] the boolean, [Other false "0"]
    the number zero. *)
Inductive Value :=
| Str (s : string)
| Other (test : bool) (shown : string).

(** [if (v)] *)
Definition toBoolean (v : Value) : bool :=
  match v with
  | Str s => truthy s
  | Other b _ => b
  end.

(** The string [s += v] appends. *)
Definition toString (v : Value) : string :=
  match v with
  | Str s => s
  | Other _ s => s
  end.

End JS.

(* ================================================================== *)
(** ** Regular expressions: the fragment [isRetryableError] uses *)
(* ================================================================== *)

Module Regex.

Inductive re : Type :=
| Empty                      (* matches nothing *)
| Eps                        (* matches the empty string *)
| Chr (c : ascii)            (* a literal character, under flag i *)
| Dot                        (* [.]: any character but a line terminator *)
| Seq (r1 r2 : re)
| Alt (r1 r2 : re)
| Opt (r : re).              (* [r?] *)

(** Canonicalisation of flag [i] restricted to what an ASCII pattern can
    see: a-z fold to A-Z, every other code unit is kept. *)
Definition canon (c : ascii) : ascii :=
  let n := nat_of_ascii c in
  if ((97 <=? n) && (n <=? 122))%nat then ascii_of_nat (n - 32) else c.

Definition isLineTerminator (c : ascii) : bool :=
  Ascii.eqb c JS.LF || Ascii.eqb c JS.CR.

Fixpoint nullable (r : re) : bool :=
  match r with
  | Empty => false
  | Eps => true
  | Chr _ => false
  | Dot => false
  | Seq r1 r2 => nullable r1 && nullable r2
  | Alt r1 r2 => nullable r1 || nullable r2
  | Opt _ => true
  end.

(** Brzozowski derivative. *)
Fixpoint deriv (a : ascii) (r : re) : re :=
  match r with
  | Empty => Empty
  | Eps => Empty
  | Chr c => if Ascii.eqb (canon c) (canon a) then Eps else Empty
  | Dot => if isLineTerminator a then Empty else Eps
  | Seq r1 r2 =>
      if nullable r1 then Alt (Seq (deriv a r1) r2) (deriv a r2)
      else Seq (deriv a r1) r2
  | Alt r1 r2 => Alt (deriv a r1) (deriv a r2)
  | Opt r1 => deriv a r1
  end.

(** Some prefix of [s] matches [r]. *)
Fixpoint matchesPrefix (r : re) (s : string) : bool :=
  nullable r ||
  match s with
  | EmptyString => false
  | String a s' => matchesPrefix (deriv a r) s'
  end.

(** [/r/i.test(s)]: a match starts at some position of [s]. *)
Fixpoint test (r : re) (s : string) : bool :=
  matchesPrefix r s ||
  match s with
  | EmptyString => false
  | String _ s' => test r s'
  end.

(** A literal word. *)
Fixpoint lit (w : string) : re :=
  match w with
  | EmptyString => Eps
  | String c w' => Seq (Chr c) (lit w')
  end.

Fixpoint alts (l : list re) : re :=
  match l with
  | [] => Empty
  | [r] => r
  | r :: rest => Alt r (alts rest)
  end.

End Regex.

(** [/429|500|503|overloaded|quota|rate.?limit|capacity|unavailable|keys? failed|exhausted/i] *)
Definition retryablePattern : Regex.re :=
  Regex.alts
    [ Regex.lit "429"; Regex.lit "500"; Regex.lit "503";
      Regex.lit "overloaded"; Regex.lit "quota";
      Regex.Seq (Regex.lit "rate") (Regex.Seq (Regex.Opt Regex.Dot) (Regex.lit "limit"));
      Regex.lit "capacity"; Regex.lit "unavailable";
      Regex.Seq (Regex.lit "key") (Regex.Seq (Regex.Opt (Regex.Chr "s")) (Regex.lit " failed"));
      Regex.lit "exhausted" ].

Definition isRetryableError (errorMsg : string) : bool :=
  Regex.test retryablePattern errorMsg.

(* ================================================================== *)
(** ** Data model *)
(* ================================================================== *)

Module Chat.
Inductive Role := user | assistant.

(** [ChatMessage]: the fields the API layer reads. *)
Record ChatMessage := {
  role : Role;
  content : string;
  images : list string
}.
End Chat.

Record AppConfig := {
  googleKeys : list string;
  openrouterKey : string;
  sambaKey : string;
  systemPrompt : string;
  googleModels : list string;
  openrouterModels : list string;
  sambaModels : list string
}.

Inductive Level := info | warn | error.

(** [LogEntry]; the wall-clock [timestamp] is not modelled. *)
Record LogEntry := { level : Level; message : string }.

(** The value every caller resolves to: [{ text, images }]. *)
Record Reply := { text : string; images : list string }.

(** [GroundingSource] *)
Record GroundingSource := { title : string; url : string }.

(** Wire formats, as far as the code reads them.  An optional field is
    an [option]; [None] is [undefined].  The decoders of [Env] stand for
    [JSON.parse] followed by the reading of these fields: a line that does
    not parse is answered by [None]; a value on which the reading raises
    a TypeError part-way is answered by the record of what was read up to
    there, the TypeError being swallowed by the handler that swallows the
    parse error.  The text of a part, the block reason and the delta of
    an OpenAI-style record, which the code tests and then appends, are
    kept as values ([JS.Value]): a value that is not a string may pass the
    test and have an empty string form. *)
Module Wire.

Record InlineData := { mimeType : string; data : string }.
Record Part := { text : option JS.Value; inlineData : option InlineData }.
Record Web := { uri : option string; title : option string }.
Record GroundingChunk := { web : option Web }.
Record GroundingMetadata := {
  groundingChunks : option (list GroundingChunk);
  webSearchQueries : option (list string)
}.
(** [candidates[i]], with [content?.parts || []] already read. *)
Record Candidate := {
  parts : list Part;
  groundingMetadata : option GroundingMetadata
}.
(** [data.error]: [code] is a number, [0] when absent. *)
Record ErrorObject := { message : option string; code : nat }.
(** A decoded Gemini stream record: [data.error], [data.candidates || []]
    and [data.promptFeedback?.blockReason]. *)
Record GeminiData := {
  error : option ErrorObject;
  candidates : list Candidate;
  blockReason : option JS.Value
}.
(** A decoded OpenAI-style record: [choices?.[0]?.delta?.content]. *)
Record OpenAIData := { deltaContent : option JS.Value }.

End Wire.

(** What a [fetch] is called with.  The body is determined by the
    conversation, the system prompt and two switches. *)
Record Request := {
  req_url : string;
  req_authorization : option string;
  req_model : string;
  req_system : string;
  req_messages : list Chat.ChatMessage;
  req_search : bool;          (* tools: [{ google_search: {} }] *)
  req_imageModality : bool    (* responseModalities: ['TEXT','IMAGE'] *)
}.

(** What the network answers: [fetch] rejects, or a response arrives with
    a status and a body delivered as decoded chunks, after which the
    reader reports [done] ([None]) or rejects ([Some msg]). *)
Inductive FetchOutcome :=
| Rejects (msg : string)
| Responds (status : nat) (chunks : list string) (ending : option string).

Record Response := {
  status : nat;
  body : list string;
  ending : option string
}.

(** [response.ok] *)
Definition ok (r : Response) : bool := (200 <=? status r) && (status r <=? 299).

Inductive Event :=
| EvLog (entry : LogEntry)
| EvChunk (chunk : string)
| EvReset
| EvFetch (req : Request).

(** The surroundings of one top-level call.  JavaScript runs to
    completion between two [await]s, so the state of the abort signal is a
    function of the number of fetches completed so far; a call without a
    signal has [aborted] constantly [false]. *)
Record Env := {
  net : nat -> Request -> FetchOutcome;
  aborted : nat -> bool;
  shuffle : nat -> list string -> list string;   (* [[...l].sort(() => Math.random() - 0.5)] *)
  parseGemini : string -> option Wire.GeminiData;  (* [JSON.parse]; [None] when it raises *)
  stringifyError : Wire.ErrorObject -> string;     (* [JSON.stringify(data.error)] *)
  parseOpenAI : string -> option Wire.OpenAIData;
  hostname : string -> option string;              (* [new URL(u).hostname]; [None] when it raises *)
  dateStr : string;                                (* [getCurrentDateInfo()] *)
  year : nat;
  notIterable : string   (* message of the TypeError of [[...undefined]] *)
}.

Record State := { fetched : nat; trace : list Event }.

(* ================================================================== *)
(** ** A state-and-exception monad *)
(* ================================================================== *)

Inductive Result (A : Type) :=
| Ok (a : A)
| Err (msg : string).
Arguments Ok {A} a.
Arguments Err {A} msg.

Definition M (A : Type) : Type := State -> Result A * State.

Definition ret {A} (a : A) : M A := fun st => (Ok a, st).

Definition throw {A} (msg : string) : M A := fun st => (Err msg, st).

Definition bind {A B} (c : M A) (k : A -> M B) : M B :=
  fun st =>
    match c st with
    | (Ok a, st') => k a st'
    | (Err msg, st') => (Err msg, st')
    end.

(** [try { c } catch (e) { h e.message }] *)
Definition tryCatch {A} (c : M A) (h : string -> M A) : M A :=
  fun st =>
    match c st with
    | (Ok a, st') => (Ok a, st')
    | (Err msg, st') => h msg st'
    end.

Declare Scope monad_scope.
Delimit Scope monad_scope with monad.
Notation "x <- c ;; k" := (bind c (fun x => k))
  (at level 61, c at next level, right associativity) : monad_scope.
Notation "c ;; k" := (bind c (fun _ => k))
  (at level 61, right associativity) : monad_scope.
Local Open Scope monad_scope.

Definition emit (e : Event) : M unit :=
  fun st => (Ok tt, {| fetched := fetched st; trace := trace st ++ [e] |}).

Definition addLog (l : Level) (msg : string) : M unit :=
  emit (EvLog {| level := l; message := msg |}).
Definition onChunk (t : string) : M unit := emit (EvChunk t).
Definition onResetContent : M unit := emit EvReset.

(** Control inside a loop body: go on with the loop, or [return]. *)
Inductive Flow (A R : Type) :=
| Next (a : A)
| Return (r : R).
Arguments Next {A R} a.
Arguments Return {A R} r.

(* ================================================================== *)
(** ** Auto mode definitions and model predicates *)
(* ================================================================== *)

Inductive Provider := google | openrouter | sambanova.

Record AutoModeConfig := {
  label : string;
  description : string;
  provider : Provider;
  models : list string
}.

(** The own properties of the object literal [AUTO_MODES], in order. *)
Definition AUTO_MODES : list (string * AutoModeConfig) :=
  [ ("auto-gemini-flash",
     {| label := "Gemini Fast";
        description := "Flash models · auto-fallback";
        provider := google;
        models := ["gemini-flash-latest"; "gemini-3-flash-preview";
                   "gemini-2.5-flash"; "gemini-2.0-flash"] |});
    ("auto-gemini-pro",
     {| label := "Gemini Pro";
        description := "Pro models · best quality";
        provider := google;
        models := ["gemini-3-pro-preview"; "gemini-2.5-pro"] |});
    ("auto-openrouter",
     {| label := "OpenRouter";
        description := "Random free model";
        provider := openrouter;
        models := [] |});
    ("auto-samba",
     {| label := "SambaNova";
        description := "Fast inference · auto-fallback";
        provider := sambanova;
        models := ["DeepSeek-R1-0528"; "DeepSeek-V3.1"; "DeepSeek-V3-0324";
                   "gpt-oss-120b"] |});
    ("auto-search",
     {| label := "AI Search";
        description := "Google Search · grounded answers";
        provider := google;
        models := [] |}) ].

(** [AUTO_MODES] is an object literal, so its prototype is
    [Object.prototype]; these are the property names it inherits. *)
Definition ObjectPrototype : list string :=
  [ "constructor"; "__defineGetter__"; "__defineSetter__"; "hasOwnProperty";
    "__lookupGetter__"; "__lookupSetter__"; "isPrototypeOf";
    "propertyIsEnumerable"; "toString"; "valueOf"; "__proto__";
    "toLocaleString" ].

(** What [AUTO_MODES[key]] evaluates to: an entry of the table, a member of
    [Object.prototype] (a function or object: truthy, without [provider],
    [models] or [label]), or [undefined]. *)
Inductive Property :=
| Own (c : AutoModeConfig)
| Inherited
| Undefined.

Fixpoint ownProperty (key : string) (table : list (string * AutoModeConfig))
    : option AutoModeConfig :=
  match table with
  | [] => None
  | (k, c) :: rest => if String.eqb k key then Some c else ownProperty key rest
  end.

Definition AUTO_MODES_get (key : string) : Property :=
  match ownProperty key AUTO_MODES with
  | Some c => Own c
  | None => if existsb (String.eqb key) ObjectPrototype then Inherited else Undefined
  end.

(** [model in AUTO_MODES]: the [in] operator follows the prototype chain. *)
Definition isAutoMode (model : string) : bool :=
  match AUTO_MODES_get model with
  | Undefined => false
  | _ => true
  end.

Definition isGoogleModel (model : string) : bool :=
  if isAutoMode model then
    match AUTO_MODES_get model with
    | Own c => match provider c with google => true | _ => false end
    | _ => false
    end
  else JS.startsWith "gemini" model.

(** [/^(DeepSeek-|gpt-oss-)/.test(model)]: anchored, case-sensitive. *)
Definition isSambaModel (model : string) : bool :=
  if isAutoMode model then
    match AUTO_MODES_get model with
    | Own c => match provider c with sambanova => true | _ => false end
    | _ => false
    end
  else JS.startsWith "DeepSeek-" model || JS.startsWith "gpt-oss-" model.

(* ================================================================== *)
(** ** The callers *)
(* ================================================================== *)

Section Callers.

Variable E : Env.

(** [signal?.aborted] *)
Definition signalAborted : M bool :=
  fun st => (Ok (aborted E (fetched st)), st).

(** [[...l].sort(() => Math.random() - 0.5)] *)
Definition shuffled (l : list string) : M (list string) :=
  fun st => (Ok (shuffle E (fetched st) l), st).

(** [await fetch(url, {...})] *)
Definition fetch (req : Request) : M Response :=
  fun st =>
    let st' := {| fetched := S (fetched st); trace := trace st ++ [EvFetch req] |} in
    match net E (fetched st) req with
    | Rejects msg => (Err msg, st')
    | Responds s chunks e =>
        (Ok {| status := s; body := chunks; ending := e |}, st')
    end.

(** [await response.text()] *)
Definition responseText (r : Response) : M string :=
  match ending r with
  | None => ret (String.concat "" (body r))
  | Some msg => throw msg
  end.

(** [for (const line of lines) { ... }] with a body that may [return]. *)
Fixpoint forLines {A R} (body : string -> A -> M (Flow A R))
    (lines : list string) (acc : A) : M (Flow A R) :=
  match lines with
  | [] => ret (Next acc)
  | line :: more =>
      r <- body line acc ;;
      match r with
      | Next acc' => forLines body more acc'
      | Return x => ret (Return x)
      end
  end.

(** The decode loop shared by the three stream readers:
    [while (true) { const {done, value} = await reader.read();
                    if (done) break;
                    buffer += decoder.decode(value, {stream: true});
                    const lines = buffer.split('\n');
                    buffer = lines.pop() || '';
                    for (const line of lines) ... }] *)
Fixpoint readLoop {A R} (body : string -> A -> M (Flow A R))
    (chunks : list string) (ending : option string)
    (buffer : string) (acc : A) : M (Flow A R) :=
  match chunks with
  | [] =>
      match ending with
      | None => ret (Next acc)
      | Some msg => throw msg
      end
  | value :: more =>
      let lines := JS.split JS.LF (buffer ++ value) in
      r <- forLines body (removelast lines) acc ;;
      match r with
      | Next acc' =>
          readLoop body more ending (JS.orElse (last lines "") "") acc'
      | Return x => ret (Return x)
      end
  end.

(** *** Gemini streaming, with key rotation *)

(** The locals [fullText], [images], [gotContent] of one attempt. *)
Record Acc := { fullText : string; imgs : list string; gotContent : bool }.

Definition replyOf (acc : Acc) : Reply :=
  {| text := fullText acc; images := imgs acc |}.

(** [for (const part of parts) { if (part.text) ...; if (part.inlineData) ... }] *)
Fixpoint geminiParts (parts : list Wire.Part) (acc : Acc) : M Acc :=
  match parts with
  | [] => ret acc
  | part :: more =>
      acc1 <- match Wire.text part with
              | Some t =>
                  if JS.toBoolean t then
                    onChunk (JS.toString t) ;;
                    ret {| fullText := fullText acc ++ JS.toString t; imgs := imgs acc;
                           gotContent := true |}
                  else ret acc
              | None => ret acc
              end ;;
      let acc2 :=
        match Wire.inlineData part with
        | Some d =>
            {| fullText := fullText acc1;
               imgs := imgs acc1 ++
                 [("data:" ++ Wire.mimeType d ++ ";base64," ++ Wire.data d)%string];
               gotContent := true |}
        | None => acc1
        end in
      geminiParts more acc2
  end.

(** [data.error.message || JSON.stringify(data.error)] *)
Definition errorMessage (e : Wire.ErrorObject) : string :=
  JS.orElse (match Wire.message e with Some m => m | None => "" end)
            (stringifyError E e).

(** [`${data.error.code || ''}`] *)
Definition errorCode (e : Wire.ErrorObject) : string :=
  if Wire.code e =? 0 then "" else JS.ofNat (Wire.code e).

(** The body of the [try] around one decoded line. *)
Definition geminiData (data : Wire.GeminiData) (acc : Acc) : M (Flow Acc Reply) :=
  match Wire.error data with
  | Some e =>
      throw ("Stream error " ++ errorCode e ++ ": " ++ JS.take 200 (errorMessage e))
  | None =>
      match Wire.candidates data with
      | [] =>
          match Wire.blockReason data with
          | Some r =>
              if JS.toBoolean r then throw ("Prompt blocked: " ++ JS.toString r)
              else ret (Next acc)
          | None => ret (Next acc)
          end
      | c :: _ =>
          acc' <- geminiParts (Wire.parts c) acc ;;
          ret (Next acc')
      end
  end.

(** The [catch (parseErr)] of one decoded line.  Both raising sites sit
    before any update of the locals, so the handler sees [acc]. *)
Definition geminiCatch (acc : Acc) (msg : string) : M (Flow Acc Reply) :=
  if JS.startsWith "Stream error" msg || JS.startsWith "Prompt blocked" msg then
    if gotContent acc then
      addLog warn "Stream interrupted with partial content" ;;
      ret (Return (replyOf acc))
    else throw msg
  else ret (Next acc).

Definition geminiLine (line : string) (acc : Acc) : M (Flow Acc Reply) :=
  if negb (JS.startsWith "data: " line) then ret (Next acc) else
  let jsonStr := JS.trim (JS.drop 6 line) in
  if negb (JS.truthy jsonStr) || String.eqb jsonStr "[DONE]" then ret (Next acc) else
  match parseGemini E jsonStr with
  | None => ret (Next acc)      (* a SyntaxError, swallowed by the handler *)
  | Some data => tryCatch (geminiData data acc) (geminiCatch acc)
  end.

Definition isImageCapableModel (model : string) : bool :=
  JS.includes "image" model.

Definition geminiUrl (model key : string) : string :=
  "https://generativelanguage.googleapis.com/v1beta/models/" ++ model
    ++ ":streamGenerateContent?key=" ++ key ++ "&alt=sse".

Definition acc0 : Acc := {| fullText := ""; imgs := []; gotContent := false |}.

(** The request of one key: the URL carries the key, the body the
    conversation, the system instruction and, for an image-capable model,
    the image modality. *)
Definition geminiRequest (messages : list Chat.ChatMessage)
    (model systemPrompt key : string) : Request :=
  {| req_url := geminiUrl model key;
     req_authorization := None;
     req_model := model;
     req_system := systemPrompt;
     req_messages := messages;
     req_search := false;
     req_imageModality := isImageCapableModel model |}.

(** The body of the [try] of one key. *)
Definition geminiAttempt (messages : list Chat.ChatMessage)
    (model systemPrompt key : string) (i n : nat) : M Reply :=
  let keyHint := JS.takeLast 6 key in
  addLog info ("Key ..." ++ keyHint ++ " (" ++ JS.ofNat (i + 1) ++ "/"
               ++ JS.ofNat n ++ ")") ;;
  response <- fetch (geminiRequest messages model systemPrompt key) ;;
  (if negb (ok response) then
     errorText <- responseText response ;;
     throw ("HTTP " ++ JS.ofNat (status response) ++ ": " ++ JS.take 200 errorText)
   else ret tt) ;;
  onResetContent ;;
  r <- readLoop geminiLine (body response) (ending response) "" acc0 ;;
  match r with
  | Return reply => ret reply
  | Next acc =>
      if negb (gotContent acc) && negb (JS.truthy (fullText acc))
         && (List.length (imgs acc) =? 0)
      then throw "Empty response from model"
      else
        addLog info ("← OK via ..." ++ keyHint ++ " ("
                     ++ JS.ofNat (String.length (fullText acc)) ++ " chars"
                     ++ (if List.length (imgs acc) =? 0 then ""
                         else ", " ++ JS.ofNat (List.length (imgs acc)) ++ " imgs")
                     ++ ")") ;;
        ret (replyOf acc)
  end.

(** The [catch (e)] of one key; [next] is the rest of the loop. *)
Definition geminiOnError (key : string) (next : M Reply) (errMsg : string) : M Reply :=
  if JS.includes "abort" errMsg then throw errMsg else
  addLog warn ("Key ..." ++ JS.takeLast 6 key ++ " failed: " ++ JS.take 80 errMsg) ;;
  if negb (isRetryableError errMsg) then throw errMsg
  else next.

(** [for (let i = 0; i < shuffledKeys.length; i++) { ... }] followed by the
    terminal error; [n] is [shuffledKeys.length], [ks] the keys from
    index [i] on.  (The local [errors] is only ever pushed to.) *)
Fixpoint geminiKeys (messages : list Chat.ChatMessage)
    (model systemPrompt : string) (n i : nat) (ks : list string) : M Reply :=
  match ks with
  | [] =>
      addLog error ("All " ++ JS.ofNat n ++ " keys exhausted for " ++ model) ;;
      throw ("All " ++ JS.ofNat n ++ " keys failed for " ++ model ++ ".")
  | key :: rest =>
      ab <- signalAborted ;;
      if ab : bool then throw "Request aborted" else
      tryCatch (geminiAttempt messages model systemPrompt key i n)
               (geminiOnError key
                  (geminiKeys messages model systemPrompt n (S i) rest))
  end.

Definition callGeminiStreaming (messages : list Chat.ChatMessage)
    (model : string) (keys : list string) (systemPrompt : string) : M Reply :=
  if List.length keys =? 0 then
    throw "No Google API keys configured. Go to Settings → API Keys."
  else
    shuffledKeys <- shuffled keys ;;
    addLog info ("→ Gemini [" ++ model ++ "] — "
                 ++ JS.ofNat (List.length shuffledKeys) ++ " key(s)") ;;
    geminiKeys messages model systemPrompt (List.length shuffledKeys) 0 shuffledKeys.

(** *** OpenRouter and SambaNova (OpenAI-compatible streaming) *)

(** [s.replace(p, '')] for a string pattern: the first occurrence only. *)
Fixpoint removeFirst (p s : string) : string :=
  if JS.startsWith p s then JS.drop (String.length p) s
  else match s with
       | EmptyString => EmptyString
       | String c s' => String c (removeFirst p s')
       end.

Definition getModelShortName (model : string) : string :=
  if String.eqb model "auto-gemini-flash" then "Auto: Flash"
  else if String.eqb model "auto-gemini-pro" then "Auto: Pro"
  else if String.eqb model "auto-openrouter" then "Auto: OpenRouter"
  else if String.eqb model "auto-samba" then "Auto: Samba"
  else if String.eqb model "auto-search" then "AI Search"
  else if JS.includes "/" model then
    JS.orElse (removeFirst ":free" (last (JS.split "/" model) "")) model
  else model.

(** The body of [for (const line of lines)] in both callers. *)
Definition openaiLine (line : string) (fullText : string) : M (Flow string Reply) :=
  if JS.startsWith "data: " line && negb (String.eqb line "data: [DONE]") then
    match parseOpenAI E (JS.drop 6 line) with
    | None => ret (Next fullText)                       (* [catch { /* skip */ }] *)
    | Some data =>
        match Wire.deltaContent data with
        | Some chunk =>
            if JS.toBoolean chunk then
              onChunk (JS.toString chunk) ;;
              ret (Next (fullText ++ JS.toString chunk)%string)
            else ret (Next fullText)
        | None => ret (Next fullText)
        end
    end
  else ret (Next fullText).

(** The chat-completions request: a bearer token, and a body with the
    model and the conversation led by the system prompt. *)
Definition openaiRequest (endpoint : string) (messages : list Chat.ChatMessage)
    (model apiKey systemPrompt : string) : Request :=
  {| req_url := endpoint;
     req_authorization := Some ("Bearer " ++ apiKey)%string;
     req_model := model;
     req_system := systemPrompt;
     req_messages := messages;
     req_search := false;
     req_imageModality := false |}.

(** What the two callers share after the credential check; [name] is the
    provider's name in the messages and [tag] what the opening log shows. *)
Definition openaiCall (name tag endpoint : string)
    (messages : list Chat.ChatMessage) (model apiKey systemPrompt : string) : M Reply :=
  addLog info ("→ " ++ name ++ " [" ++ tag ++ "]") ;;
  response <- fetch (openaiRequest endpoint messages model apiKey systemPrompt) ;;
  (if negb (ok response) then
     errorText <- responseText response ;;
     throw (name ++ " " ++ JS.ofNat (status response) ++ ": " ++ JS.take 200 errorText)
   else ret tt) ;;
  r <- readLoop openaiLine (body response) (ending response) "" "" ;;
  match r with
  | Return reply => ret reply
  | Next fullText =>
      addLog info ("← " ++ name ++ " OK (" ++ JS.ofNat (String.length fullText)
                   ++ " chars)") ;;
      ret {| text := fullText; images := [] |}
  end.

Definition callOpenRouter (messages : list Chat.ChatMessage)
    (model apiKey systemPrompt : string) : M Reply :=
  if negb (JS.truthy apiKey) then
    throw "No OpenRouter API key. Go to Settings → API Keys."
  else
    openaiCall "OpenRouter" (getModelShortName model)
      "https://openrouter.ai/api/v1/chat/completions"
      messages model apiKey systemPrompt.

Definition SAMBA_BASE_URL : string := "https://api.sambanova.ai/v1".

Definition callSambaNovaStreaming (messages : list Chat.ChatMessage)
    (model apiKey systemPrompt : string) : M Reply :=
  if negb (JS.truthy apiKey) then
    throw "No SambaNova API key. Go to Settings → API Keys."
  else
    openaiCall "SambaNova" model (SAMBA_BASE_URL ++ "/chat/completions")
      messages model apiKey systemPrompt.

(** *** AI Search: Gemini with the [google_search] tool *)

Record SearchReply := { s_text : string; s_sources : list GroundingSource }.

(** The locals [fullText], [sources], [gotContent] of one search attempt. *)
Record SearchAcc := {
  sFullText : string;
  sSources : list GroundingSource;
  sGotContent : bool
}.

Definition searchReplyOf (acc : SearchAcc) : SearchReply :=
  {| s_text := sFullText acc; s_sources := sSources acc |}.

(** [for (const part of parts) { if (part.text) ... }] *)
Fixpoint searchParts (parts : list Wire.Part) (acc : SearchAcc) : M SearchAcc :=
  match parts with
  | [] => ret acc
  | part :: more =>
      acc1 <- match Wire.text part with
              | Some t =>
                  if JS.toBoolean t then
                    onChunk (JS.toString t) ;;
                    ret {| sFullText := sFullText acc ++ JS.toString t;
                           sSources := sSources acc;
                           sGotContent := true |}
                  else ret acc
              | None => ret acc
              end ;;
      searchParts more acc1
  end.

(** [sources.some(s => s.url === u)] *)
Definition hasUrl (sources : list GroundingSource) (u : string) : bool :=
  existsb (fun s => String.eqb (url s) u) sources.

(** [for (const chunk of groundingMeta.groundingChunks) { ... }] *)
Fixpoint collectSources (chunks : list Wire.GroundingChunk)
    (sources : list GroundingSource) : list GroundingSource :=
  match chunks with
  | [] => sources
  | chunk :: more =>
      let sources' :=
        match Wire.web chunk with
        | Some w =>
            match Wire.uri w with
            | Some u =>
                if JS.truthy u then
                  if hasUrl sources u then sources
                  else sources ++
                    [{| title := JS.orElse
                                   (match Wire.title w with Some t => t | None => "" end) "";
                        url := u |}]
                else sources
            | None => sources
            end
        | None => sources
        end in
      collectSources more sources'
  end.

Definition searchData (data : Wire.GeminiData) (acc : SearchAcc)
    : M (Flow SearchAcc SearchReply) :=
  match Wire.error data with
  | Some e => throw ("Stream error: " ++ JS.take 200 (errorMessage e))
  | None =>
      match Wire.candidates data with
      | [] => ret (Next acc)
      | candidate :: _ =>
          acc1 <- searchParts (Wire.parts candidate) acc ;;
          match Wire.groundingMetadata candidate with
          | None => ret (Next acc1)
          | Some groundingMeta =>
              let acc2 :=
                match Wire.groundingChunks groundingMeta with
                | Some chunks =>
                    {| sFullText := sFullText acc1;
                       sSources := collectSources chunks (sSources acc1);
                       sGotContent := sGotContent acc1 |}
                | None => acc1
                end in
              match Wire.webSearchQueries groundingMeta with
              | Some qs =>
                  addLog info ("🔎 Search queries: " ++ JS.join " | " qs) ;;
                  ret (Next acc2)
              | None => ret (Next acc2)
              end
          end
      end
  end.

Definition searchCatch (acc : SearchAcc) (msg : string)
    : M (Flow SearchAcc SearchReply) :=
  if JS.startsWith "Stream error" msg then
    if sGotContent acc then
      addLog warn "Stream interrupted with partial content" ;;
      ret (Return (searchReplyOf acc))
    else throw msg
  else ret (Next acc).

Definition searchLine (line : string) (acc : SearchAcc)
    : M (Flow SearchAcc SearchReply) :=
  if negb (JS.startsWith "data: " line) then ret (Next acc) else
  let jsonStr := JS.trim (JS.drop 6 line) in
  if negb (JS.truthy jsonStr) || String.eqb jsonStr "[DONE]" then ret (Next acc) else
  match parseGemini E jsonStr with
  | None => ret (Next acc)
  | Some data => tryCatch (searchData data acc) (searchCatch acc)
  end.

Definition searchAcc0 : SearchAcc :=
  {| sFullText := ""; sSources := []; sGotContent := false |}.

(** [e.includes('not supported') || e.includes('FAILED_PRECONDITION')] *)
Definition isLocationError (s : string) : bool :=
  JS.includes "not supported" s || JS.includes "FAILED_PRECONDITION" s.

(** The request of one (model, key) pair, with the [google_search] tool. *)
Definition searchRequest (messages : list Chat.ChatMessage)
    (systemPrompt model key : string) : Request :=
  {| req_url := geminiUrl model key;
     req_authorization := None;
     req_model := model;
     req_system := systemPrompt;
     req_messages := messages;
     req_search := true;
     req_imageModality := false |}.

(** The body of the [try] of one (model, key) pair. *)
Definition searchAttempt (messages : list Chat.ChatMessage)
    (systemPrompt model key : string) : M SearchReply :=
  let keyHint := JS.takeLast 6 key in
  addLog info ("🔍 Searching via " ++ model ++ " ..." ++ keyHint) ;;
  response <- fetch (searchRequest messages systemPrompt model key) ;;
  (if negb (ok response) then
     errorText <- responseText response ;;
     if isLocationError errorText then
       throw ("HTTP 400: " ++ JS.take 200 errorText)
     else
       throw ("HTTP " ++ JS.ofNat (status response) ++ ": " ++ JS.take 200 errorText)
   else ret tt) ;;
  r <- readLoop searchLine (body response) (ending response) "" searchAcc0 ;;
  match r with
  | Return reply => ret reply
  | Next acc =>
      if negb (sGotContent acc) && negb (JS.truthy (sFullText acc))
      then throw "Empty search response"
      else
        addLog info ("✓ Search OK: " ++ JS.ofNat (String.length (sFullText acc))
                     ++ " chars, " ++ JS.ofNat (List.length (sSources acc))
                     ++ " sources") ;;
        ret (searchReplyOf acc)
  end.

(** The [catch (e)] of one (model, key) pair. *)
Definition searchOnError (model key : string) (next : M SearchReply)
    (errMsg : string) : M SearchReply :=
  if JS.includes "abort" errMsg then throw errMsg else
  if isLocationError errMsg then throw errMsg else
  addLog warn ("Search " ++ model ++ " ..." ++ JS.takeLast 6 key ++ ": "
               ++ JS.take 80 errMsg) ;;
  next.

(** [for (const key of shuffledKeys) { ... }]; [next] is what follows the
    inner loop (the next model). *)
Fixpoint searchKeys (messages : list Chat.ChatMessage)
    (systemPrompt model : string) (ks : list string)
    (next : M SearchReply) : M SearchReply :=
  match ks with
  | [] => next
  | key :: rest =>
      ab <- signalAborted ;;
      if ab : bool then throw "Request aborted" else
      tryCatch (searchAttempt messages systemPrompt model key)
               (searchOnError model key
                  (searchKeys messages systemPrompt model rest next))
  end.

(** [for (const model of searchModels) { ... }] and the terminal error. *)
Fixpoint searchModelsLoop (messages : list Chat.ChatMessage)
    (systemPrompt : string) (models : list string)
    (shuffledKeys : list string) : M SearchReply :=
  match models with
  | [] => throw "Google Search failed with all keys/models"
  | model :: more =>
      searchKeys messages systemPrompt model shuffledKeys
        (searchModelsLoop messages systemPrompt more shuffledKeys)
  end.

Definition searchModels : list string := ["gemini-2.5-flash"; "gemini-2.0-flash"].

Definition callGeminiWithSearch (messages : list Chat.ChatMessage)
    (keys : list string) (systemPrompt : string) : M SearchReply :=
  shuffledKeys <- shuffled keys ;;
  searchModelsLoop messages systemPrompt searchModels shuffledKeys.

(** *** Search mode *)

(** [for (const model of models) { ... }] of the SambaNova fallback;
    [next] is what follows the loop. *)
Fixpoint fallbackSamba (messages : list Chat.ChatMessage) (config : AppConfig)
    (prompt : string) (models : list string) (next : M Reply) : M Reply :=
  match models with
  | [] => next
  | model :: more =>
      ab <- signalAborted ;;
      if ab : bool then throw "aborted" else
      tryCatch
        (addLog info ("📝 Fallback via SambaNova " ++ model) ;;
         callSambaNovaStreaming messages model (sambaKey config) prompt)
        (fun errMsg =>
           if JS.includes "abort" errMsg then throw errMsg
           else fallbackSamba messages config prompt more next)
  end.

Definition fallbackPrompt : string :=
  "Today is " ++ dateStr E ++ ", " ++ JS.ofNat (year E)
  ++ ". The user is asking a question that would benefit from current information. Answer as best you can from your training knowledge. If the information might be outdated, clearly state that. Respond in the same language as the user's question. Use Markdown for formatting.".

Definition callFallbackSearch (messages : list Chat.ChatMessage)
    (config : AppConfig) : M Reply :=
  let prompt := fallbackPrompt in
  let tryOpenRouter : M Reply :=
    if JS.truthy (openrouterKey config)
       && negb (List.length (openrouterModels config) =? 0) then
      let model := hd "" (openrouterModels config) in
      addLog info ("📝 Fallback via OpenRouter " ++ getModelShortName model) ;;
      callOpenRouter messages model (openrouterKey config) prompt
    else
      throw "AI Search requires Google API keys (for web search) or SambaNova/OpenRouter keys (for knowledge-based answers). Add keys in Settings." in
  if JS.truthy (sambaKey config) then
    fallbackSamba messages config prompt
      ["DeepSeek-V3.1"; "DeepSeek-V3-0324"; "gpt-oss-120b"] tryOpenRouter
  else tryOpenRouter.

Definition dquote : string := String (ascii_of_nat 34) EmptyString.

Definition searchSystemPrompt : string :=
  "Today is " ++ dateStr E ++ ". The current year is " ++ JS.ofNat (year E) ++ "." ++ JS.nl
  ++ JS.nl
  ++ "You are an AI search assistant with access to Google Search. Answer the user's question using up-to-date information from the web." ++ JS.nl
  ++ JS.nl
  ++ "RULES:" ++ JS.nl
  ++ "1. Provide accurate, comprehensive, and current information." ++ JS.nl
  ++ "2. Do NOT use numbered citation markers like [1], [2] in the text. Write naturally." ++ JS.nl
  ++ "3. Use Markdown formatting: headers, lists, bold text for readability." ++ JS.nl
  ++ "4. Use LaTeX for math: $inline$ or $$block$$." ++ JS.nl
  ++ "5. Respond in the SAME LANGUAGE as the user's question." ++ JS.nl
  ++ "6. If information is uncertain, say so." ++ JS.nl
  ++ "7. Be specific with dates, numbers, and facts." ++ JS.nl
  ++ "8. Use conversation history for context — if the user says " ++ dquote
  ++ "more details" ++ dquote ++ " or " ++ dquote ++ "tell me more" ++ dquote
  ++ ", refer to the previous topic.".

(** [s.title || (() => { try { return new URL(s.url).hostname; }
                          catch { return s.url; } })()] *)
Definition sourceTitle (s : GroundingSource) : string :=
  if JS.truthy (title s) then title s
  else match hostname E (url s) with
       | Some h => h
       | None => url s
       end.

(** One line of the block: [`- [${title}](${s.url})\n`] *)
Definition sourceLine (s : GroundingSource) : string :=
  "- [" ++ sourceTitle s ++ "](" ++ url s ++ ")" ++ JS.nl.

(** [for (const s of result.sources) { finalText += ... }] *)
Fixpoint appendSources (sources : list GroundingSource) (finalText : string) : string :=
  match sources with
  | [] => finalText
  | s :: more => appendSources more (finalText ++ sourceLine s)
  end.

(** The text returned by the primary path. *)
Definition withSources (result : SearchReply) : string :=
  if negb (List.length (s_sources result) =? 0) then
    appendSources (s_sources result)
      (s_text result ++ JS.nl ++ JS.nl ++ "<!--SOURCES-->" ++ JS.nl)
    ++ "<!--/SOURCES-->"
  else s_text result.

(** [messages[messages.length - 1]?.content || ''] *)
Definition lastContent (messages : list Chat.ChatMessage) : string :=
  JS.orElse (match nth_error messages (List.length messages - 1) with
             | Some m => Chat.content m
             | None => ""
             end) "".

Definition callSearchMode (messages : list Chat.ChatMessage)
    (config : AppConfig) : M Reply :=
  let userQuery := lastContent messages in
  if negb (JS.truthy (JS.trim userQuery)) then throw "Empty query" else
  addLog info "🔍 AI Search starting..." ;;
  (* what follows the [if (config.googleKeys.length > 0)] block *)
  let fallback : M Reply :=
    addLog info "📝 No Google keys — using knowledge-based answer" ;;
    onResetContent ;;
    callFallbackSearch messages config in
  if negb (List.length (googleKeys config) =? 0) then
    tryCatch
      (onResetContent ;;
       result <- callGeminiWithSearch messages (googleKeys config) searchSystemPrompt ;;
       ret {| text := withSources result; images := [] |})
      (fun errMsg =>
         if JS.includes "abort" errMsg then throw errMsg else
         if isLocationError errMsg then throw errMsg else
         addLog warn ("Google Search failed: " ++ JS.take 80 errMsg
                      ++ ", trying fallback...") ;;
         fallback)
  else fallback.

(** *** Auto mode *)

(** The provider call of one candidate, as dispatched in the [try]. *)
Definition autoCall (messages : list Chat.ChatMessage) (p : Provider)
    (config : AppConfig) (modelName : string) : M Reply :=
  match p with
  | google =>
      callGeminiStreaming messages modelName (googleKeys config) (systemPrompt config)
  | sambanova =>
      callSambaNovaStreaming messages modelName (sambaKey config) (systemPrompt config)
  | openrouter =>
      callOpenRouter messages modelName (openrouterKey config) (systemPrompt config)
  end.

(** The [catch (e)] of one candidate; [next] is the rest of the loop, given
    the extended [allErrors]. *)
Definition autoOnError (modelName : string) (allErrors : list string)
    (next : list string -> M Reply) (errMsg : string) : M Reply :=
  if JS.includes "abort" errMsg then throw errMsg else
  let allErrors' :=
    allErrors ++ [(getModelShortName modelName ++ ": " ++ JS.take 80 errMsg)%string] in
  if negb (isRetryableError errMsg) then
    addLog error ("Auto: " ++ getModelShortName modelName
                  ++ " non-retryable error: " ++ JS.take 80 errMsg) ;;
    throw errMsg
  else
    addLog warn ("Auto: " ++ getModelShortName modelName ++ " failed, trying next...") ;;
    next allErrors'.

(** [for (let i = 0; i < modelsToTry.length; i++) { ... }] followed by the
    terminal error; [n] is [modelsToTry.length], [ms] the candidates from
    index [i] on. *)
Fixpoint autoModels (messages : list Chat.ChatMessage) (p : Provider)
    (config : AppConfig) (n i : nat) (ms : list string)
    (allErrors : list string) : M Reply :=
  match ms with
  | [] =>
      addLog error ("Auto: all " ++ JS.ofNat n ++ " models failed") ;;
      throw ("Auto mode: all " ++ JS.ofNat n
             ++ " models failed. Check API keys or try later." ++ JS.nl ++ JS.nl
             ++ JS.join JS.nl allErrors)
  | modelName :: rest =>
      ab <- signalAborted ;;
      if ab : bool then throw "Request aborted" else
      addLog info ("Auto: trying " ++ getModelShortName modelName ++ " ("
                   ++ JS.ofNat (i + 1) ++ "/" ++ JS.ofNat n ++ ")") ;;
      tryCatch
        (onResetContent ;; autoCall messages p config modelName)
        (autoOnError modelName allErrors
           (autoModels messages p config n (S i) rest))
  end.

(** The candidate list [modelsToTry], or the error raised resolving it. *)
Definition resolveModels (autoConfig : AutoModeConfig) (config : AppConfig)
    : M (list string) :=
  match provider autoConfig with
  | openrouter =>
      modelsToTry <- shuffled (openrouterModels config) ;;
      if List.length modelsToTry =? 0 then
        throw "No OpenRouter models configured. Add models in Settings → Models."
      else ret modelsToTry
  | sambanova =>
      if List.length (models autoConfig) =? 0 then
        throw "No SambaNova models configured."
      else ret (models autoConfig)
  | google => ret (models autoConfig)
  end.

(** [callAutoMode] from the resolution of [modelsToTry] on, for the table
    entry [autoConfig]. *)
Definition runAutoMode (messages : list Chat.ChatMessage)
    (autoConfig : AutoModeConfig) (config : AppConfig) : M Reply :=
  modelsToTry <- resolveModels autoConfig config ;;
  addLog info ("🔄 Auto [" ++ label autoConfig ++ "] — "
               ++ JS.ofNat (List.length modelsToTry) ++ " model(s) to try") ;;
  autoModels messages (provider autoConfig) config
    (List.length modelsToTry) 0 modelsToTry [].

Definition callAutoMode (messages : list Chat.ChatMessage) (autoKey : string)
    (config : AppConfig) : M Reply :=
  match AUTO_MODES_get autoKey with
  | Undefined => throw ("Unknown auto mode: " ++ autoKey)
  | Inherited =>
      (* truthy, and no provider test succeeds: [[...autoConfig.models]]
         spreads [undefined] *)
      throw (notIterable E)
  | Own autoConfig => runAutoMode messages autoConfig config
  end.

(** *** Main router *)

Definition generateResponse (messages : list Chat.ChatMessage) (model : string)
    (config : AppConfig) : M Reply :=
  if String.eqb model "auto-search" then callSearchMode messages config
  else if isAutoMode model then callAutoMode messages model config
  else if isGoogleModel model then
    callGeminiStreaming messages model (googleKeys config) (systemPrompt config)
  else if isSambaModel model then
    callSambaNovaStreaming messages model (sambaKey config) (systemPrompt config)
  else
    callOpenRouter messages model (openrouterKey config) (systemPrompt config).

End Callers.

(* ================================================================== *)
(** ** Message conversion and prompt helpers *)
(* ================================================================== *)

(** [\w] *)
Definition isWordChar (c : ascii) : bool :=
  let n := nat_of_ascii c in
  (48 <=? n) && (n <=? 57) || (65 <=? n) && (n <=? 90)
  || (97 <=? n) && (n <=? 122) || (n =? 95).

(** The longest prefix of word characters, and what follows it. *)
Fixpoint spanWord (s : string) : string * string :=
  match s with
  | EmptyString => (EmptyString, EmptyString)
  | String c s' =>
      if isWordChar c then
        let (w, rest) := spanWord s' in (String c w, rest)
      else (EmptyString, s)
  end.

(** No character of [s] is a line terminator: [s] is what [.*] can match
    up to the end of the input. *)
Fixpoint noLineTerminator (s : string) : bool :=
  match s with
  | EmptyString => true
  | String c s' => negb (Regex.isLineTerminator c) && noLineTerminator s'
  end.

(** [img.match(/^data:(image\/\w+);base64,(.+)$/)]: the two groups.  A run
    of word characters followed by [;] can only be matched as a whole, so
    the match is unique. *)
Definition matchDataUri (img : string) : option (string * string) :=
  if JS.startsWith "data:image/" img then
    let (w, rest) := spanWord (JS.drop 11 img) in
    if JS.truthy w && JS.startsWith ";base64," rest then
      let d := JS.drop 8 rest in
      if JS.truthy d && noLineTerminator d then Some (("image/" ++ w)%string, d)
      else None
    else None
  else None.

(** One entry of the [contents] of a Gemini request. *)
Record GeminiTurn := { turnRole : string; turnParts : list Wire.Part }.

Definition inlinePart (mime d : string) : Wire.Part :=
  {| Wire.text := None;
     Wire.inlineData := Some {| Wire.mimeType := mime; Wire.data := d |} |}.

Definition textPart (t : string) : Wire.Part :=
  {| Wire.text := Some (JS.Str t); Wire.inlineData := None |}.

(** [for (const img of msg.images) { const match = ...; if (match) parts.push(...) }] *)
Fixpoint imageParts (images : list string) (parts : list Wire.Part) : list Wire.Part :=
  match images with
  | [] => parts
  | img :: more =>
      match matchDataUri img with
      | Some (mime, d) => imageParts more (parts ++ [inlinePart mime d])
      | None => imageParts more parts
      end
  end.

Definition toGeminiTurn (msg : Chat.ChatMessage) : GeminiTurn :=
  let parts := imageParts (Chat.images msg) [] in
  {| turnRole := match Chat.role msg with
                 | Chat.assistant => "model"
                 | Chat.user => "user"
                 end;
     turnParts := parts ++ [textPart (JS.orElse (Chat.content msg) " ")] |}.

Definition toGeminiContents (messages : list Chat.ChatMessage) : list GeminiTurn :=
  map toGeminiTurn messages.

(** The [content] of an OpenAI-style message: a string, or a list of
    [{type: 'text'}] and [{type: 'image_url'}] blocks. *)
Inductive ContentBlock :=
| TextBlock (t : string)
| ImageUrlBlock (u : string).

Inductive MessageContent :=
| Plain (s : string)
| Blocks (l : list ContentBlock).

Record OpenAIMessage := { oaRole : string; oaContent : MessageContent }.

(** The body of [for (const msg of messages)]: what is pushed. *)
Definition toOpenAIMessage (msg : Chat.ChatMessage) : OpenAIMessage :=
  match Chat.role msg, Chat.images msg with
  | Chat.user, _ :: _ =>
      {| oaRole := "user";
         oaContent :=
           Blocks (TextBlock (JS.orElse (Chat.content msg) "Describe this image")
                   :: map ImageUrlBlock (Chat.images msg)) |}
  | r, _ =>
      {| oaRole := match r with Chat.assistant => "assistant" | Chat.user => "user" end;
         oaContent := Plain (Chat.content msg) |}
  end.

(** [for (const msg of messages) { result.push(...) }] *)
Fixpoint pushOpenAIMessages (messages : list Chat.ChatMessage)
    (result : list OpenAIMessage) : list OpenAIMessage :=
  match messages with
  | [] => result
  | msg :: more => pushOpenAIMessages more (result ++ [toOpenAIMessage msg])
  end.

Definition toOpenAIMessages (messages : list Chat.ChatMessage)
    (systemPrompt : string) : list OpenAIMessage :=
  pushOpenAIMessages messages [ {| oaRole := "system"; oaContent := Plain systemPrompt |} ].

(** The fields of [AppConfig] that only [buildEffectiveSystemPrompt] reads. *)
Record PromptOptions := {
  includeTime : bool;
  includeDate : bool;
  memories : list string
}.

(** [buildEffectiveSystemPrompt]; [today] and [now] are what
    [toLocaleDateString] and [toLocaleTimeString] answer. *)
Definition contextParts (options : PromptOptions) (today now : string) : list string :=
  (if includeDate options then [("Текущая дата: " ++ today)%string] else [])
  ++ (if includeTime options then [("Текущее время: " ++ now)%string] else [])
  ++ (if negb (List.length (memories options) =? 0) then
        [("ИНФОРМАЦИЯ О ПОЛЬЗОВАТЕЛЕ (запомни и учитывай):" ++ JS.nl
          ++ JS.join JS.nl (map (fun m => "- " ++ m)%string (memories options)))%string]
      else []).

Definition buildEffectiveSystemPrompt (config : AppConfig) (options : PromptOptions)
    (today now : string) : string :=
  let parts := contextParts options today now in
  if negb (List.length parts =? 0) then
    (JS.join JS.nl parts ++ JS.nl ++ JS.nl ++ systemPrompt config)%string
  else systemPrompt config.

Definition getModelDotColor (model : string) : string :=
  if String.eqb model "auto-gemini-flash" then "bg-amber-400"
  else if String.eqb model "auto-gemini-pro" then "bg-violet-400"
  else if String.eqb model "auto-openrouter" then "bg-emerald-400"
  else if String.eqb model "auto-samba" then "bg-orange-400"
  else if String.eqb model "auto-search" then "bg-cyan-400"
  else if isGoogleModel model then "bg-blue-400"
  else if isSambaModel model then "bg-orange-400"
  else "bg-emerald-400".

(* ================================================================== *)
(** ** Notions used in the statements *)
(* ================================================================== *)

(** [s] has no occurrence of the character [c]. *)
Fixpoint lacks (c : ascii) (s : string) : bool :=
  match s with
  | EmptyString => true
  | String x s' => negb (Ascii.eqb x c) && lacks c s'
  end.

(** Every character of [s] is white space. *)
Fixpoint allWhiteSpace (s : string) : bool :=
  match s with
  | EmptyString => true
  | String c s' => JS.isWhiteSpace c && allWhiteSpace s'
  end.

(** The state once [evs] have been appended to the trace. *)
Definition emitted (st : State) (evs : list Event) : State :=
  {| fetched := fetched st; trace := trace st ++ evs |}.

Definition logged (st : State) (l : Level) (msg : string) : State :=
  emitted st [EvLog {| level := l; message := msg |}].

(** The state once a request has been issued. *)
Definition requested (st : State) (req : Request) : State :=
  {| fetched := S (fetched st); trace := trace st ++ [EvFetch req] |}.

(** The state of key [i]'s attempt when the stream starts being read: the
    attempt was logged, the request issued, the content reset. *)
Definition opened (st : State) (messages : list Chat.ChatMessage)
    (model systemPrompt key : string) (i n : nat) : State :=
  emitted
    (requested
       (logged st info ("Key ..." ++ JS.takeLast 6 key ++ " (" ++ JS.ofNat (i + 1) ++ "/"
                        ++ JS.ofNat n ++ ")"))
       (geminiRequest messages model systemPrompt key))
    [EvReset].

(** The state once the failure [msg] of [key] has been logged. *)
Definition keyFailed (st : State) (key msg : string) : State :=
  logged st warn ("Key ..." ++ JS.takeLast 6 key ++ " failed: " ++ JS.take 80 msg).

(** The state once [callGeminiStreaming] has announced its [n] keys. *)
Definition announced (st : State) (model : string) (n : nat) : State :=
  logged st info ("→ Gemini [" ++ model ++ "] — " ++ JS.ofNat n ++ " key(s)").

(** The terminal error of the key loop. *)
Definition exhaustedMessage (n : nat) (model : string) : string :=
  "All " ++ JS.ofNat n ++ " keys failed for " ++ model ++ ".".


(** The state in which auto mode calls the provider for candidate [i]. *)
Definition trying (st : State) (modelName : string) (i n : nat) : State :=
  emitted
    (logged st info ("Auto: trying " ++ getModelShortName modelName ++ " ("
                     ++ JS.ofNat (i + 1) ++ "/" ++ JS.ofNat n ++ ")"))
    [EvReset].

(** The state in which search mode calls the grounded search. *)
Definition searching (st : State) : State :=
  emitted (logged st info "🔍 AI Search starting...") [EvReset].

(** An invariant [P] of the locals of a loop body, with [Q] holding of
    what the body returns. *)
Definition keeps {A R} (P : A -> Prop) (Q : R -> Prop) (c : M (Flow A R)) : Prop :=
  forall st,
    match fst (c st) with
    | Ok (Next a) => P a
    | Ok (Return r) => Q r
    | Err _ => True
    end.


(** The requests recorded in a trace, oldest first. *)
Fixpoint requests (evs : list Event) : list Request :=
  match evs with
  | [] => []
  | EvFetch r :: more => r :: requests more
  | _ :: more => requests more
  end.

(** A computation that issues no request. *)
Definition quiet {A} (c : M A) : Prop :=
  forall st,
    fetched (snd (c st)) = fetched st
    /\ requests (trace (snd (c st))) = requests (trace st).

(** A computation that issues exactly the request [req]. *)
Definition oneRequest {A} (req : Request) (c : M A) : Prop :=
  forall st,
    fetched (snd (c st)) = S (fetched st)
    /\ requests (trace (snd (c st))) = requests (trace st) ++ [req].

(** The complete lines of a stream delivered as [chunks], when [buffer] is
    what the previous chunks left over. *)
Definition streamLines (buffer : string) (chunks : list string) : list string :=
  removelast (JS.split JS.LF (buffer ++ String.concat "" chunks)).

Section Reading.

Variable E : Env.

(** The record a line decodes to, if it is a data line that parses. *)
Definition lineRecord (line : string) : option Wire.GeminiData :=
  if negb (JS.startsWith "data: " line) then None else
  let jsonStr := JS.trim (JS.drop 6 line) in
  if negb (JS.truthy jsonStr) || String.eqb jsonStr "[DONE]" then None
  else parseGemini E jsonStr.

(** The error a record carries: an error object, or a prompt block. *)
Definition faultOf (data : Wire.GeminiData) : option string :=
  match Wire.error data with
  | Some e =>
      Some ("Stream error " ++ errorCode e ++ ": " ++ JS.take 200 (errorMessage E e))%string
  | None =>
      match Wire.candidates data, Wire.blockReason data with
      | [], Some r =>
          if JS.toBoolean r then Some ("Prompt blocked: " ++ JS.toString r)%string else None
      | _, _ => None
      end
  end.

Definition lineFault (line : string) : option string :=
  match lineRecord line with
  | Some data => faultOf data
  | None => None
  end.

(** The text deltas and the images of a list of parts. *)
Definition partTexts (parts : list Wire.Part) : list string :=
  flat_map (fun p => match Wire.text p with
                     | Some t => if JS.toBoolean t then [JS.toString t] else []
                     | None => []
                     end) parts.

Definition partImages (parts : list Wire.Part) : list string :=
  flat_map (fun p => match Wire.inlineData p with
                     | Some d => [("data:" ++ Wire.mimeType d ++ ";base64," ++ Wire.data d)%string]
                     | None => []
                     end) parts.

Definition lineParts (line : string) : list Wire.Part :=
  match lineRecord line with
  | Some data =>
      match Wire.candidates data with
      | c :: _ => Wire.parts c
      | [] => []
      end
  | None => []
  end.

Definition lineTexts (line : string) : list string := partTexts (lineParts line).
Definition lineImages (line : string) : list string := partImages (lineParts line).

Definition isNil {A} (l : list A) : bool :=
  match l with [] => true | _ => false end.

(** The locals after [texts] and [images] have been received. *)
Definition absorb (acc : Acc) (texts images : list string) : Acc :=
  {| fullText := fullText acc ++ String.concat "" texts;
     imgs := imgs acc ++ images;
     gotContent := gotContent acc || negb (isNil texts && isNil images) |}.

(** Attempts on the keys [ks], from index [i] and state [st], each fail with
    a retryable error that is not a cancellation, and leave [st']. *)
Inductive RetryRun (messages : list Chat.ChatMessage) (model systemPrompt : string)
    (n : nat) : nat -> list string -> State -> State -> Prop :=
| RetryRun_nil i st : RetryRun messages model systemPrompt n i [] st st
| RetryRun_cons i key ks st st1 st2 msg :
    aborted E (fetched st) = false ->
    geminiAttempt E messages model systemPrompt key i n st = (Err msg, st1) ->
    JS.includes "abort" msg = false ->
    isRetryableError msg = true ->
    RetryRun messages model systemPrompt n (S i) ks (keyFailed st1 key msg) st2 ->
    RetryRun messages model systemPrompt n i (key :: ks) st st2.

End Reading.

(** The pattern as the specification words it, with a space in
    [rate limit]. *)
Definition specPattern : Regex.re :=
  Regex.alts
    [ Regex.lit "429"; Regex.lit "500"; Regex.lit "503";
      Regex.lit "overloaded"; Regex.lit "quota"; Regex.lit "rate limit";
      Regex.lit "capacity"; Regex.lit "unavailable";
      Regex.Seq (Regex.lit "key") (Regex.Seq (Regex.Opt (Regex.Chr "s")) (Regex.lit " failed"));
      Regex.lit "exhausted" ].


(* ================================================================== *)
(** ** Further notions used in the statements *)
(* ================================================================== *)

(** What the consumer of the callbacks displays after [evs]: a reset
    discards the content, a chunk is appended to it. *)
Fixpoint shownFrom (evs : list Event) (cur : string) : string :=
  match evs with
  | [] => cur
  | EvReset :: more => shownFrom more EmptyString
  | EvChunk t :: more => shownFrom more (cur ++ t)
  | _ :: more => shownFrom more cur
  end.

Definition shown (evs : list Event) : string := shownFrom evs EmptyString.

(** A computation all of whose requests satisfy [P]. *)
Definition onlyRequests {A} (P : Request -> Prop) (c : M A) : Prop :=
  forall st,
    exists more,
      requests (trace (snd (c st))) = requests (trace st) ++ more /\ Forall P more.

(** A request to one of the two OpenAI-compatible endpoints. *)
Definition isOpenAIRequest (r : Request) : Prop :=
  (req_url r = (SAMBA_BASE_URL ++ "/chat/completions")%string
   \/ req_url r = "https://openrouter.ai/api/v1/chat/completions")
  /\ req_search r = false.

(** The state once the success of [key] has been logged. *)
Definition served (st : State) (key : string) (texts pictures : list string) : State :=
  logged st info
    ("← OK via ..." ++ JS.takeLast 6 key ++ " ("
     ++ JS.ofNat (String.length (String.concat "" texts)) ++ " chars"
     ++ (if List.length pictures =? 0 then ""
         else ", " ++ JS.ofNat (List.length pictures) ++ " imgs")
     ++ ")").

(** The state once an OpenAI-style call has announced itself and issued its
    request. *)
Definition asked (st : State) (name tag : string) (req : Request) : State :=
  requested (logged st info ("→ " ++ name ++ " [" ++ tag ++ "]")) req.

(** The state once an OpenAI-style call has forwarded [deltas] and logged
    its success. *)
Definition completed (st : State) (name tag : string) (req : Request)
    (deltas : list string) : State :=
  logged (emitted (asked st name tag req) (map EvChunk deltas)) info
    ("← " ++ name ++ " OK (" ++ JS.ofNat (String.length (String.concat "" deltas))
     ++ " chars)").

(** No credential is configured. *)
Definition noCredential (config : AppConfig) : Prop :=
  googleKeys config = [] /\ openrouterKey config = "" /\ sambaKey config = "".

(** Two strings that differ at most in the case of their ASCII letters. *)
Fixpoint foldCase (s : string) : string :=
  match s with
  | EmptyString => EmptyString
  | String c s' => String (Regex.canon c) (foldCase s')
  end.

(** The image URLs an OpenAI-style message list carries. *)
Definition blockUrls (l : list ContentBlock) : list string :=
  flat_map (fun b => match b with ImageUrlBlock u => [u] | TextBlock _ => [] end) l.

Definition imageUrls (l : list OpenAIMessage) : list string :=
  flat_map (fun m => match oaContent m with
                     | Blocks bs => blockUrls bs
                     | Plain _ => []
                     end) l.

Definition isSome {A} (o : option A) : bool :=
  match o with Some _ => true | None => false end.

(** The text of a part is absent or a string. *)
Definition textIsString (p : Wire.Part) : bool :=
  match Wire.text p with
  | Some (JS.Other _ _) => false
  | _ => true
  end.

(** The decoder yields records whose parts (those of the first candidate,
    the only ones read) have strings for texts, as the API declares
    them. *)
Definition stringTexts (E : Env) : Prop :=
  forall s data,
    parseGemini E s = Some data ->
    match Wire.candidates data with
    | c :: _ => forallb textIsString (Wire.parts c) = true
    | [] => True
    end.

(** The text gathered so far is not empty once content was seen
    ([gotContent] implies a truthy [fullText]). *)
Definition hasText (acc : SearchAcc) : Prop :=
  sGotContent acc = true -> JS.truthy (sFullText acc) = true.

Section MoreReading.

Variable E : Env.

(** The text delta of a line of an OpenAI-style stream, if it has one. *)
Definition openaiDelta (line : string) : list string :=
  if JS.startsWith "data: " line && negb (String.eqb line "data: [DONE]") then
    match parseOpenAI E (JS.drop 6 line) with
    | Some data =>
        match Wire.deltaContent data with
        | Some chunk => if JS.toBoolean chunk then [JS.toString chunk] else []
        | None => []
        end
    | None => []
    end
  else [].

(** The candidates [ms], from index [i], state [st] and error list [errs],
    each fail with a retryable error that is not a cancellation, and leave
    the error list [errs'] and the state [st']. *)
Inductive AutoRun (messages : list Chat.ChatMessage) (p : Provider)
    (config : AppConfig) (n : nat)
    : nat -> list string -> list string -> State -> list string -> State -> Prop :=
| AutoRun_nil i errs st : AutoRun messages p config n i [] errs st errs st
| AutoRun_cons i m ms errs st st1 errs' st' msg :
    aborted E (fetched st) = false ->
    autoCall E messages p config m (trying st m i n) = (Err msg, st1) ->
    JS.includes "abort" msg = false ->
    isRetryableError msg = true ->
    AutoRun messages p config n (S i) ms
      (errs ++ [(getModelShortName m ++ ": " ++ JS.take 80 msg)%string])
      (logged st1 warn ("Auto: " ++ getModelShortName m ++ " failed, trying next..."))
      errs' st' ->
    AutoRun messages p config n i (m :: ms) errs st errs' st'.

End MoreReading.

(* ================================================================== *)
(** ** Test surroundings *)
(* ================================================================== *)

Module Demo.

Definition part (t : string) : Wire.Part :=
  {| Wire.text := Some (JS.Str t); Wire.inlineData := None |}.

Definition textRecord (t : string) : Wire.GeminiData :=
  {| Wire.error := None;
     Wire.candidates := [ {| Wire.parts := [part t]; Wire.groundingMetadata := None |} ];
     Wire.blockReason := None |}.

Definition errorRecord (c : nat) (m : string) : Wire.GeminiData :=
  {| Wire.error := Some {| Wire.message := Some m; Wire.code := c |};
     Wire.candidates := [];
     Wire.blockReason := None |}.

Definition groundedRecord (t : string) (ws : list (string * string)) : Wire.GeminiData :=
  {| Wire.error := None;
     Wire.candidates :=
       [ {| Wire.parts := [part t];
            Wire.groundingMetadata :=
              Some {| Wire.groundingChunks :=
                        Some (map (fun w =>
                                {| Wire.web := Some {| Wire.uri := Some (fst w);
                                                       Wire.title := Some (snd w) |} |}) ws);
                      Wire.webSearchQueries := None |} |} ];
     Wire.blockReason := None |}.

(** A toy decoder: [T<text>] is a text delta, [E<msg>] an error object with
    code 400, [B<reason>] a prompt block, [G] a grounded answer citing the
    same page twice; anything else fails to parse. *)
Definition decodeGemini (s : string) : option Wire.GeminiData :=
  match s with
  | String "T" t => Some (textRecord t)
  | String "E" m => Some (errorRecord 400 m)
  | String "B" r =>
      Some {| Wire.error := None; Wire.candidates := []; Wire.blockReason := Some (JS.Str r) |}
  | String "G" t =>
      Some (groundedRecord t [("https://a.example/x", ""); ("https://a.example/x", "A")])
  | _ => None
  end.

Definition decodeOpenAI (s : string) : option Wire.OpenAIData :=
  match s with
  | String "T" t => Some {| Wire.deltaContent := Some (JS.Str t) |}
  | _ => None
  end.

Definition env (net : nat -> Request -> FetchOutcome) (aborted : nat -> bool) : Env :=
  {| net := net;
     aborted := aborted;
     shuffle := fun _ l => l;
     parseGemini := decodeGemini;
     stringifyError := fun _ => "{}";
     parseOpenAI := decodeOpenAI;
     hostname := fun u => if JS.startsWith "https://a.example/" u then Some "a.example" else None;
     dateStr := "Monday, November 2, 2026";
     year := 2026;
     notIterable := "autoConfig.models is not iterable" |}.

Definition st0 : State := {| fetched := 0; trace := [] |}.

Definition config : AppConfig :=
  {| googleKeys := ["key-AAAAAA"; "key-BBBBBB"];
     openrouterKey := "or-key";
     sambaKey := "samba-key";
     systemPrompt := "Be brief.";
     googleModels := [];
     openrouterModels := ["vendor/model:free"];
     sambaModels := [] |}.

Definition hello : list Chat.ChatMessage :=
  [ {| Chat.role := Chat.user; Chat.content := "hello"; Chat.images := [] |} ].

Definition never : nat -> bool := fun _ => false.

(** A stream of data lines, delivered in one chunk. *)
Definition sse (lines : list string) : list string :=
  [ String.concat "" (map (fun l => "data: " ++ l ++ JS.nl)%string lines) ].

Definition keyA : string := "key-AAAAAA".
Definition keyB : string := "key-BBBBBB".
Definition keyC : string := "key-CCCCCC".
Definition flash : string := "gemini-2.0-flash".

(** Every request is answered by an empty, well-ended stream. *)
Definition silentNet : nat -> Request -> FetchOutcome :=
  fun _ _ => Responds 200 [(": keep-alive" ++ JS.nl)%string; ("data: [DONE]" ++ JS.nl)%string] None.

(** The first request is refused with a message the code retries on but
    that the pattern of the specification does not match; the second one
    is served. *)
Definition rateLimitNet : nat -> Request -> FetchOutcome :=
  fun n _ =>
    match n with
    | 0 => Responds 400 ["rate-limit reached"] None
    | _ => Responds 200 (sse ["Thi"]) None
    end.

(** Busy, then a bad request, then it would be served. *)
Definition busyThenBadNet : nat -> Request -> FetchOutcome :=
  fun n _ =>
    match n with
    | 0 => Responds 503 ["busy"] None
    | 1 => Responds 400 ["bad request"] None
    | _ => Responds 200 (sse ["Thi"]) None
    end.

(** Two text deltas, then an error object, then more text. *)
Definition brokenNet : nat -> Request -> FetchOutcome :=
  fun _ _ => Responds 200 (sse ["Thel"; "Tlo"; "Eboom"; "Tmore"]) None.

(** Every request is refused as busy. *)
Definition busyNet : nat -> Request -> FetchOutcome :=
  fun _ _ => Responds 503 ["busy"] None.

(** A grounded answer that cites the same page twice. *)
Definition groundedNet : nat -> Request -> FetchOutcome :=
  fun _ _ => Responds 200 (sse ["Ganswer"]) None.

(** A stream delivered in two chunks that cut a line in two, and whose
    last record is not ended by a line feed. *)
Definition cutStream : list string :=
  [("data: Thel" ++ JS.nl ++ "da")%string; ("ta: Tlo" ++ JS.nl ++ "data: Tlost")%string].

(** The first request is refused as busy, the second one is served. *)
Definition busyThenServedNet : nat -> Request -> FetchOutcome :=
  fun n _ =>
    match n with
    | 0 => Responds 503 ["busy"] None
    | _ => Responds 200 (sse ["Thel"; "Tlo"]) None
    end.

(** Every request is served with two text deltas around a malformed line. *)
Definition servedNet : nat -> Request -> FetchOutcome :=
  fun _ _ => Responds 200 (sse ["Tan"; "oops"; "Tswer"; "[DONE]"]) None.

(** Every request is refused for the location. *)
Definition locationNet : nat -> Request -> FetchOutcome :=
  fun _ _ => Responds 403 ["FAILED_PRECONDITION: User location is not supported"] None.


Definition noCredentials : AppConfig :=
  {| googleKeys := []; openrouterKey := ""; sambaKey := "";
     systemPrompt := "Be brief."; googleModels := [];
     openrouterModels := ["vendor/model:free"]; sambaModels := [] |}.

Definition sambaOnly : AppConfig :=
  {| googleKeys := []; openrouterKey := ""; sambaKey := "samba-key";
     systemPrompt := "Be brief."; googleModels := [];
     openrouterModels := []; sambaModels := [] |}.

(** The toy decoders extended with [A], a record whose text is the empty
    array. *)
Definition decodeLooseGemini (s : string) : option Wire.GeminiData :=
  match s with
  | String "A" _ =>
      Some {| Wire.error := None;
              Wire.candidates :=
                [ {| Wire.parts := [ {| Wire.text := Some (JS.Other true "");
                                        Wire.inlineData := None |} ];
                     Wire.groundingMetadata := None |} ];
              Wire.blockReason := None |}
  | _ => decodeGemini s
  end.

Definition decodeLooseOpenAI (s : string) : option Wire.OpenAIData :=
  match s with
  | String "A" _ => Some {| Wire.deltaContent := Some (JS.Other true "") |}
  | _ => decodeOpenAI s
  end.

Definition looseEnv (net : nat -> Request -> FetchOutcome) (aborted : nat -> bool) : Env :=
  {| net := net;
     aborted := aborted;
     shuffle := fun _ l => l;
     parseGemini := decodeLooseGemini;
     stringifyError := fun _ => "{}";
     parseOpenAI := decodeLooseOpenAI;
     hostname := fun _ => None;
     dateStr := "Monday, November 2, 2026";
     year := 2026;
     notIterable := "autoConfig.models is not iterable" |}.

(** Every request is served with one record whose text is the empty
    array. *)
Definition arrayNet : nat -> Request -> FetchOutcome :=
  fun _ _ => Responds 200 (sse ["A"]) None.

(** Every request is served with a stream that opens with an error
    object. *)
Definition refusedNet : nat -> Request -> FetchOutcome :=
  fun _ _ => Responds 200 (sse ["Eboom"; "Tmore"]) None.

(** The first stream opens with an error object that reports an overload,
    the second one is served. *)
Definition overloadedThenServedNet : nat -> Request -> FetchOutcome :=
  fun n _ =>
    match n with
    | 0 => Responds 200 (sse ["Eoverloaded"; "Tmore"]) None
    | _ => Responds 200 (sse ["Thi"]) None
    end.

Definition picture : string := "data:image/png;base64,iVBORw0KGgo=".

Definition withPictures : Chat.ChatMessage :=
  {| Chat.role := Chat.user; Chat.content := "";
     Chat.images := [picture; "https://a.example/cat.png"; "data:image/svg+xml;base64,AA"] |}.

End Demo.

(* ================================================================== *)
(** ** Sanity checks of the primitives *)
(* ================================================================== *)

Example isRetryable_429 : isRetryableError "HTTP 429: Too Many Requests" = true.
Proof. reflexivity. Qed.
Example isRetryable_case : isRetryableError "The model is OVERLOADED" = true.
Proof. reflexivity. Qed.
Example isRetryable_ratelimit : isRetryableError "rate-limit hit" = true.
Proof. reflexivity. Qed.
Example isRetryable_empty : isRetryableError "Empty response from model" = false.
Proof. reflexivity. Qed.
Example isRetryable_400 : isRetryableError "HTTP 400: bad request" = false.
Proof. reflexivity. Qed.
Example isRetryable_rate_limit : isRetryableError "Rate Limit exceeded" = true.
Proof. reflexivity. Qed.
Example isRetryable_ratelimit_joined : isRetryableError "ratelimited" = true.
Proof. reflexivity. Qed.
Example isRetryable_rate_two_apart : isRetryableError "rate--limit" = false.
Proof. reflexivity. Qed.
Example isRetryable_rate_newline : isRetryableError ("rate" ++ JS.nl ++ "limit") = false.
Proof. reflexivity. Qed.
Example isRetryable_key_failed : isRetryableError "key failed" = true.
Proof. reflexivity. Qed.
Example isAutoMode_table : isAutoMode "auto-samba" = true.
Proof. reflexivity. Qed.
Example isAutoMode_inherited : isAutoMode "toString" = true.
Proof. reflexivity. Qed.
Example isAutoMode_other : isAutoMode "vendor/model:free" = false.
Proof. reflexivity. Qed.
Example getModelShortName_free : getModelShortName "deepseek/deepseek-r1-0528:free" = "deepseek-r1-0528".
Proof. reflexivity. Qed.
Example trim_ex : JS.trim "  a b 	" = "a b".
Proof. reflexivity. Qed.
Example split_ex : JS.split JS.LF ("a" ++ JS.nl ++ "b" ++ JS.nl)%string = ["a"; "b"; ""].
Proof. reflexivity. Qed.
Example ofNat_ex : JS.ofNat 120 = "120".
Proof. reflexivity. Qed.

(* ================================================================== *)
(** ** Strings and patterns *)
(* ================================================================== *)

Lemma append_assoc (a b c : string) : ((a ++ b) ++ c = a ++ (b ++ c))%string.
Proof. induction a as [|x a IH]; simpl; [reflexivity | now rewrite IH]. Qed.

Lemma append_empty_r (a : string) : (a ++ "" = a)%string.
Proof. induction a as [|x a IH]; simpl; [reflexivity | now rewrite IH]. Qed.

Lemma orElse_empty (s : string) : JS.orElse s "" = s.
Proof. now destruct s. Qed.

Module RegexFacts.
Import Regex.

Lemma matchesPrefix_app (r : re) (s t : string) :
  matchesPrefix r s = true -> matchesPrefix r (s ++ t) = true.
Proof.
  revert r. induction s as [|a s IH]; intros r H; simpl in *.
  - rewrite orb_false_r in H. destruct t; simpl; now rewrite H.
  - destruct (nullable r); simpl in *; [reflexivity | now apply IH].
Qed.

Lemma test_matchesPrefix (r : re) (s : string) :
  matchesPrefix r s = true -> test r s = true.
Proof. intros H. destruct s; simpl in *; now rewrite H. Qed.

Lemma test_app_r (r : re) (s t : string) :
  test r t = true -> test r (s ++ t) = true.
Proof.
  intros H. induction s as [|a s IH]; simpl; [exact H|].
  rewrite IH. apply orb_true_r.
Qed.

(** A word that matches makes every string around it match. *)
Lemma test_infix (r : re) (a w b : string) :
  matchesPrefix r w = true -> test r (a ++ w ++ b) = true.
Proof.
  intros H. apply test_app_r, test_matchesPrefix, matchesPrefix_app, H.
Qed.

End RegexFacts.

Lemma lacks_app (c : ascii) (s t : string) :
  lacks c (s ++ t) = lacks c s && lacks c t.
Proof.
  induction s as [|x s IH]; cbn [lacks append]; [reflexivity|].
  now rewrite IH, andb_assoc.
Qed.

Lemma lacks_b_startsWith (s : string) :
  lacks "b" s = true -> JS.startsWith "abort" s = false.
Proof.
  intros H. destruct s as [|x0 [|x1 s]]; cbn [JS.startsWith lacks] in *; try reflexivity.
  - now rewrite andb_false_r.
  - apply andb_true_iff in H as [_ H]. apply andb_true_iff in H as [H _].
    destruct (Ascii.eqb "a" x0); cbn [andb]; [|reflexivity].
    rewrite Ascii.eqb_sym. destruct (Ascii.eqb x1 "b"); [discriminate | reflexivity].
Qed.

Lemma lacks_b_no_abort (s : string) :
  lacks "b" s = true -> JS.includes "abort" s = false.
Proof.
  induction s as [|x s IH]; intros H.
  - reflexivity.
  - change (JS.includes "abort" (String x s))
      with (JS.startsWith "abort" (String x s) || JS.includes "abort" s).
    rewrite (lacks_b_startsWith _ H). cbn [lacks] in H.
    apply andb_true_iff in H as [_ H]. now rewrite IH.
Qed.

Lemma lacks_b_digits (d : Decimal.uint) : lacks "b" (NilEmpty.string_of_uint d) = true.
Proof. induction d; simpl; auto. Qed.

Lemma lacks_b_ofNat (n : nat) : lacks "b" (JS.ofNat n) = true.
Proof.
  unfold JS.ofNat, NilZero.string_of_uint.
  destruct (Nat.to_uint n) eqn:Hd; try reflexivity; rewrite <- Hd; apply lacks_b_digits.
Qed.

(* ================================================================== *)
(** ** The monad and the two loops *)
(* ================================================================== *)

Lemma bind_ok {A B} (c : M A) (k : A -> M B) st a st' :
  c st = (Ok a, st') -> bind c k st = k a st'.
Proof. intros H. unfold bind. now rewrite H. Qed.

Lemma bind_err {A B} (c : M A) (k : A -> M B) st m st' :
  c st = (Err m, st') -> bind c k st = (Err m, st').
Proof. intros H. unfold bind. now rewrite H. Qed.

Lemma tryCatch_ok {A} (c : M A) h st a st' :
  c st = (Ok a, st') -> tryCatch c h st = (Ok a, st').
Proof. intros H. unfold tryCatch. now rewrite H. Qed.

Lemma tryCatch_err {A} (c : M A) h st m st' :
  c st = (Err m, st') -> tryCatch c h st = h m st'.
Proof. intros H. unfold tryCatch. now rewrite H. Qed.

Lemma emit_run (e : Event) st : emit e st = (Ok tt, emitted st [e]).
Proof. reflexivity. Qed.

Lemma addLog_run l msg st : addLog l msg st = (Ok tt, logged st l msg).
Proof. reflexivity. Qed.

Lemma emitted_nil st : emitted st [] = st.
Proof. destruct st. unfold emitted. simpl. now rewrite app_nil_r. Qed.

Lemma emitted_emitted st a b : emitted (emitted st a) b = emitted st (a ++ b).
Proof. unfold emitted. simpl. now rewrite app_assoc. Qed.

Lemma requests_app (a b : list Event) : requests (a ++ b) = requests a ++ requests b.
Proof.
  induction a as [|e a IH]; [reflexivity|].
  destruct e; simpl; congruence.
Qed.

Lemma requests_chunks (l : list string) : requests (map EvChunk l) = [].
Proof. induction l; [reflexivity | exact IHl]. Qed.

Lemma quiet_ret {A} (a : A) : quiet (ret a).
Proof. intros st. split; reflexivity. Qed.

Lemma quiet_throw {A} m : quiet (@throw A m).
Proof. intros st. split; reflexivity. Qed.

Lemma quiet_addLog l msg : quiet (addLog l msg).
Proof.
  intros st. split; [reflexivity|]. cbn. rewrite requests_app. apply app_nil_r.
Qed.

Lemma quiet_onChunk t : quiet (onChunk t).
Proof.
  intros st. split; [reflexivity|]. cbn. rewrite requests_app. apply app_nil_r.
Qed.

Lemma quiet_onResetContent : quiet onResetContent.
Proof.
  intros st. split; [reflexivity|]. cbn. rewrite requests_app. apply app_nil_r.
Qed.

Lemma quiet_bind {A B} (c : M A) (k : A -> M B) :
  quiet c -> (forall a, quiet (k a)) -> quiet (bind c k).
Proof.
  intros Hc Hk st. unfold bind. specialize (Hc st).
  destruct (c st) as [[a|m] st']; cbn [snd] in *; [|exact Hc].
  destruct Hc as [Hf Hr]. destruct (Hk a st') as [Hf' Hr']. split; congruence.
Qed.

Lemma quiet_tryCatch {A} (c : M A) h :
  quiet c -> (forall m, quiet (h m)) -> quiet (tryCatch c h).
Proof.
  intros Hc Hh st. unfold tryCatch. specialize (Hc st).
  destruct (c st) as [[a|m] st']; cbn [snd] in *; [exact Hc|].
  destruct Hc as [Hf Hr]. destruct (Hh m st') as [Hf' Hr']. split; congruence.
Qed.

Lemma oneRequest_fetch (E : Env) {A} (req : Request) (k : Response -> M A) :
  (forall r, quiet (k r)) -> oneRequest req (bind (fetch E req) k).
Proof.
  intros Hk st. unfold bind, fetch.
  assert (Hreq : requests (trace st ++ [EvFetch req]) = requests (trace st) ++ [req])
    by now rewrite requests_app.
  destruct (net E (fetched st) req) as [m|s chunks fin]; [split; [reflexivity | exact Hreq]|].
  match goal with
  | |- fetched (snd (k ?r ?st1)) = _ /\ _ => destruct (Hk r st1) as [Hf Hr]
  end.
  split; [exact Hf | now rewrite Hr].
Qed.

Lemma oneRequest_addLog {A} (req : Request) (l : Level) (msg : string) (k : M A) :
  oneRequest req k -> oneRequest req (bind (addLog l msg) (fun _ => k)).
Proof.
  intros Hk st. unfold bind. rewrite addLog_run.
  destruct (Hk (logged st l msg)) as [Hf Hr]. split; [exact Hf|].
  rewrite Hr. cbn. now rewrite requests_app, app_nil_r.
Qed.

Ltac quiet_tac :=
  repeat first
    [ apply quiet_ret | apply quiet_throw | apply quiet_addLog
    | apply quiet_onChunk | apply quiet_onResetContent
    | apply quiet_bind; [|intros ?] | apply quiet_tryCatch; [|intros ?]
    | match goal with
      | |- quiet (if ?b then _ else _) => destruct b
      | |- quiet (match ?x with _ => _ end) => destruct x
      end ].

Section Loops.

Context {A R : Type} (body : string -> A -> M (Flow A R)).

Lemma forLines_app (l1 l2 : list string) (acc : A) (st : State) :
  forLines body (l1 ++ l2) acc st =
  match forLines body l1 acc st with
  | (Ok (Next a), st') => forLines body l2 a st'
  | other => other
  end.
Proof.
  revert acc st. induction l1 as [|l l1 IH]; intros acc st; [reflexivity|].
  rewrite <- app_comm_cons. cbn [forLines]. unfold bind.
  destruct (body l acc st) as [[[a|r]|m] st']; try reflexivity.
  apply IH.
Qed.

Lemma quiet_forLines :
  (forall line acc, quiet (body line acc)) ->
  forall lines acc, quiet (forLines body lines acc).
Proof.
  intros Hb lines. induction lines as [|l ls IH]; intros acc; cbn [forLines].
  - apply quiet_ret.
  - apply quiet_bind; [apply Hb|]. intros [a|r]; [apply IH | apply quiet_ret].
Qed.

Lemma quiet_readLoop :
  (forall line acc, quiet (body line acc)) ->
  forall chunks ending buffer acc, quiet (readLoop body chunks ending buffer acc).
Proof.
  intros Hb chunks ending. induction chunks as [|v more IH]; intros buffer acc;
    cbn [readLoop].
  - destruct ending; [apply quiet_throw | apply quiet_ret].
  - apply quiet_bind; [now apply quiet_forLines|].
    intros [a|r]; [apply IH | apply quiet_ret].
Qed.

Lemma keeps_forLines (P : A -> Prop) (Q : R -> Prop) :
  (forall line acc, P acc -> keeps P Q (body line acc)) ->
  forall lines acc, P acc -> keeps P Q (forLines body lines acc).
Proof.
  intros Hb lines. induction lines as [|l ls IH]; intros acc HP st; cbn [forLines].
  - exact HP.
  - unfold bind. specialize (Hb l acc HP st).
    destruct (body l acc st) as [[[a|r]|m] st']; simpl in *; auto.
    now apply IH.
Qed.

Lemma keeps_readLoop (P : A -> Prop) (Q : R -> Prop) :
  (forall line acc, P acc -> keeps P Q (body line acc)) ->
  forall chunks ending buffer acc,
    P acc -> keeps P Q (readLoop body chunks ending buffer acc).
Proof.
  intros Hb chunks ending. induction chunks as [|v more IH]; intros buffer acc HP st;
    cbn [readLoop].
  - destruct ending; simpl; auto.
  - unfold bind.
    pose proof (keeps_forLines P Q Hb (removelast (JS.split JS.LF (buffer ++ v))) acc HP st) as H.
    destruct (forLines body _ acc st) as [[[a|r]|m] st']; simpl in *; auto.
    now apply IH.
Qed.

End Loops.

(* ================================================================== *)
(** ** Line framing: the decode loop reads the lines of the stream *)
(* ================================================================== *)

Lemma split_nonempty (c : ascii) (s : string) : JS.split c s <> [].
Proof.
  destruct s as [|x s]; cbn [JS.split]; [discriminate|].
  destruct (Ascii.eqb x c); [discriminate|].
  destruct (JS.split c s); discriminate.
Qed.

Lemma split_app (c : ascii) (a b : string) :
  JS.split c (a ++ b) =
  removelast (JS.split c a) ++ JS.split c (last (JS.split c a) "" ++ b).
Proof.
  induction a as [|x a IH].
  - reflexivity.
  - cbn [append JS.split]. destruct (Ascii.eqb x c) eqn:Hx.
    + rewrite IH. pose proof (split_nonempty c a) as Hne.
      destruct (JS.split c a) as [|l ls]; [contradiction|]. reflexivity.
    + rewrite IH. pose proof (split_nonempty c a) as Hne.
      destruct (JS.split c a) as [|l [|l2 ls]]; [contradiction| |].
      * cbn [removelast last app append JS.split]. rewrite Hx. reflexivity.
      * reflexivity.
Qed.

Lemma split_lacks (c : ascii) (s : string) :
  lacks c s = true -> JS.split c s = [s].
Proof.
  induction s as [|x s IH]; cbn [lacks JS.split]; intros H; [reflexivity|].
  apply andb_true_iff in H as [Hx Hs]. apply negb_true_iff in Hx.
  rewrite Hx, (IH Hs). reflexivity.
Qed.

Lemma last_split_lacks (c : ascii) (s : string) :
  lacks c (last (JS.split c s) "") = true.
Proof.
  induction s as [|x s IH]; [reflexivity|].
  cbn [JS.split]. pose proof (split_nonempty c s) as Hne.
  destruct (Ascii.eqb x c) eqn:Hx.
  - destruct (JS.split c s) as [|l ls]; [contradiction | exact IH].
  - destruct (JS.split c s) as [|l [|l2 ls]]; [contradiction| |exact IH].
    cbn [last lacks] in *. now rewrite Hx, IH.
Qed.

Lemma concat_cons (x : string) (xs : list string) :
  String.concat "" (x :: xs) = (x ++ String.concat "" xs)%string.
Proof.
  destruct xs; cbn [String.concat]; [now rewrite append_empty_r | reflexivity].
Qed.

Lemma concat_app (xs ys : list string) :
  String.concat "" (xs ++ ys) = (String.concat "" xs ++ String.concat "" ys)%string.
Proof.
  induction xs as [|x xs IH]; [reflexivity|].
  rewrite <- app_comm_cons, !concat_cons, IH. now rewrite append_assoc.
Qed.

Lemma streamLines_nil (buffer : string) :
  lacks JS.LF buffer = true -> streamLines buffer [] = [].
Proof.
  intros H. unfold streamLines. cbn [String.concat].
  rewrite append_empty_r, (split_lacks _ _ H). reflexivity.
Qed.

Lemma streamLines_cons (buffer v : string) (more : list string) :
  streamLines buffer (v :: more) =
  removelast (JS.split JS.LF (buffer ++ v))
  ++ streamLines (last (JS.split JS.LF (buffer ++ v)) "") more.
Proof.
  unfold streamLines. rewrite concat_cons, <- append_assoc, split_app.
  apply removelast_app, split_nonempty.
Qed.

(** Reading a stream chunk by chunk is processing its complete lines in
    order; what follows the last line feed is never processed. *)
Lemma readLoop_lines {A R} (body : string -> A -> M (Flow A R))
    (chunks : list string) (ending : option string) :
  forall buffer acc st,
    lacks JS.LF buffer = true ->
    readLoop body chunks ending buffer acc st =
    match forLines body (streamLines buffer chunks) acc st with
    | (Ok (Next a), st') =>
        (match ending with None => Ok (Next a) | Some m => Err m end, st')
    | other => other
    end.
Proof.
  induction chunks as [|v more IH]; intros buffer acc st Hb.
  - rewrite (streamLines_nil _ Hb). cbn [readLoop forLines].
    destruct ending; reflexivity.
  - rewrite streamLines_cons, forLines_app. cbn [readLoop]. unfold bind.
    destruct (forLines body _ acc st) as [[[a|r]|m] st']; try reflexivity.
    rewrite orElse_empty. apply IH, last_split_lacks.
Qed.

(* ================================================================== *)
(** ** One Gemini attempt *)
(* ================================================================== *)

Section GeminiStream.

Variable E : Env.

Lemma isNil_app {A} (l1 l2 : list A) : isNil (l1 ++ l2) = isNil l1 && isNil l2.
Proof. now destruct l1. Qed.

Lemma absorb_nil (acc : Acc) : absorb acc [] [] = acc.
Proof.
  destruct acc as [t i g]. unfold absorb. cbn.
  now rewrite append_empty_r, app_nil_r, orb_false_r.
Qed.

Lemma absorb_absorb (acc : Acc) (t1 i1 t2 i2 : list string) :
  absorb (absorb acc t1 i1) t2 i2 = absorb acc (t1 ++ t2) (i1 ++ i2).
Proof.
  unfold absorb. cbn [fullText imgs gotContent].
  rewrite concat_app, append_assoc, app_assoc, !isNil_app.
  f_equal.
  destruct (gotContent acc), (isNil t1), (isNil i1), (isNil t2), (isNil i2); reflexivity.
Qed.

Lemma geminiParts_run (parts : list Wire.Part) :
  forall acc st,
    geminiParts parts acc st =
    (Ok (absorb acc (partTexts parts) (partImages parts)),
     emitted st (map EvChunk (partTexts parts))).
Proof.
  induction parts as [|p more IH]; intros acc st.
  - cbn. now rewrite absorb_nil, emitted_nil.
  - cbn [geminiParts partTexts partImages flat_map].
    fold (partTexts more). fold (partImages more).
    assert (Hstep : forall (a1 : Acc) (ts : list string),
      a1 = absorb acc ts [] ->
      match Wire.inlineData p with
      | Some d =>
          {| fullText := fullText a1;
             imgs := imgs a1 ++
               [("data:" ++ Wire.mimeType d ++ ";base64," ++ Wire.data d)%string];
             gotContent := true |}
      | None => a1
      end
      = absorb acc ts
          match Wire.inlineData p with
          | Some d => [("data:" ++ Wire.mimeType d ++ ";base64," ++ Wire.data d)%string]
          | None => []
          end).
    { intros a1 ts ->. destruct (Wire.inlineData p) as [d|]; [|reflexivity].
      unfold absorb. cbn [fullText imgs gotContent isNil].
      now rewrite app_nil_r, andb_false_r, orb_true_r. }
    destruct (Wire.text p) as [t|].
    + destruct (JS.toBoolean t) eqn:Ht.
      * unfold bind, onChunk. rewrite emit_run. cbn [ret].
        rewrite IH, emitted_emitted, map_app, <- absorb_absorb.
        rewrite (Hstep _ [JS.toString t]); [reflexivity|].
        unfold absorb. cbn [isNil andb negb String.concat].
        now rewrite app_nil_r, orb_true_r.
      * unfold bind. cbn [ret].
        rewrite IH, <- absorb_absorb, (Hstep _ []); [reflexivity|].
        now rewrite absorb_nil.
    + unfold bind. cbn [ret].
      rewrite IH, <- absorb_absorb, (Hstep _ []); [reflexivity|].
      now rewrite absorb_nil.
Qed.


Lemma startsWith_app (p s : string) : JS.startsWith p (p ++ s) = true.
Proof.
  induction p as [|a p IH]; [reflexivity|].
  cbn [append JS.startsWith]. now rewrite Ascii.eqb_refl, IH.
Qed.

Lemma streamError_prefix (x : string) :
  JS.startsWith "Stream error" ("Stream error " ++ x) = true.
Proof. exact (startsWith_app "Stream error" (" " ++ x)). Qed.

Lemma promptBlocked_prefix (x : string) :
  JS.startsWith "Prompt blocked" ("Prompt blocked: " ++ x) = true.
Proof. exact (startsWith_app "Prompt blocked" (": " ++ x)). Qed.

Lemma faultOf_prefix (data : Wire.GeminiData) (msg : string) :
  faultOf E data = Some msg ->
  JS.startsWith "Stream error" msg || JS.startsWith "Prompt blocked" msg = true.
Proof.
  unfold faultOf. destruct (Wire.error data) as [e|].
  - intros H.
    assert (Hm : msg = ("Stream error " ++ errorCode e ++ ": "
                        ++ JS.take 200 (errorMessage E e))%string) by congruence.
    rewrite Hm. now rewrite streamError_prefix.
  - destruct (Wire.candidates data); [|discriminate].
    destruct (Wire.blockReason data) as [r|]; [|discriminate].
    destruct (JS.toBoolean r); [|discriminate]. intros H.
    assert (Hm : msg = ("Prompt blocked: " ++ JS.toString r)%string) by congruence.
    rewrite Hm, promptBlocked_prefix. apply orb_true_r.
Qed.

(** A line that carries no error adds its deltas to the locals and forwards
    its text deltas, in order. *)
Lemma geminiLine_clean (line : string) (acc : Acc) (st : State) :
  lineFault E line = None ->
  geminiLine E line acc st =
  (Ok (Next (absorb acc (lineTexts E line) (lineImages E line))),
   emitted st (map EvChunk (lineTexts E line))).
Proof.
  unfold lineFault, lineTexts, lineImages, lineParts, lineRecord, geminiLine.
  destruct (negb (JS.startsWith "data: " line));
    [intros _; cbn; now rewrite absorb_nil, emitted_nil|].
  cbv zeta.
  destruct (negb (JS.truthy (JS.trim (JS.drop 6 line)))
            || String.eqb (JS.trim (JS.drop 6 line)) "[DONE]");
    [intros _; cbn; now rewrite absorb_nil, emitted_nil|].
  destruct (parseGemini E (JS.trim (JS.drop 6 line))) as [data|];
    [|intros _; cbn; now rewrite absorb_nil, emitted_nil].
  unfold faultOf, geminiData, tryCatch.
  destruct (Wire.error data) as [e|]; [discriminate|].
  destruct (Wire.candidates data) as [|c cs].
  - destruct (Wire.blockReason data) as [r|].
    + destruct (JS.toBoolean r); [discriminate|].
      intros _. cbn. now rewrite absorb_nil, emitted_nil.
    + intros _. cbn. now rewrite absorb_nil, emitted_nil.
  - intros _. unfold bind. rewrite geminiParts_run. reflexivity.
Qed.

(** A line that carries an error ends the attempt: with the partial reply
    when content was received, with the error otherwise. *)
Lemma geminiLine_fault (line : string) (acc : Acc) (st : State) (msg : string) :
  lineFault E line = Some msg ->
  geminiLine E line acc st =
  if gotContent acc then
    (Ok (Return (replyOf acc)),
     logged st warn "Stream interrupted with partial content")
  else (Err msg, st).
Proof.
  unfold lineFault, lineRecord, geminiLine.
  destruct (negb (JS.startsWith "data: " line)); [discriminate|].
  cbv zeta.
  destruct (negb (JS.truthy (JS.trim (JS.drop 6 line)))
            || String.eqb (JS.trim (JS.drop 6 line)) "[DONE]"); [discriminate|].
  destruct (parseGemini E (JS.trim (JS.drop 6 line))) as [data|]; [|discriminate].
  intros Hf. pose proof (faultOf_prefix _ _ Hf) as Hp.
  assert (Hthrow : geminiData E data acc st = (Err msg, st)).
  { unfold faultOf in Hf. unfold geminiData.
    destruct (Wire.error data) as [e|]; [unfold throw; congruence|].
    destruct (Wire.candidates data); [|discriminate].
    destruct (Wire.blockReason data) as [r|]; [|discriminate].
    destruct (JS.toBoolean r); [|discriminate]. unfold throw; congruence. }
  rewrite (tryCatch_err _ _ _ _ _ Hthrow). unfold geminiCatch. rewrite Hp.
  destruct (gotContent acc); reflexivity.
Qed.

Lemma forLines_clean (pre : list string) :
  Forall (fun l => lineFault E l = None) pre ->
  forall acc st,
    forLines (geminiLine E) pre acc st =
    (Ok (Next (absorb acc (flat_map (lineTexts E) pre) (flat_map (lineImages E) pre))),
     emitted st (map EvChunk (flat_map (lineTexts E) pre))).
Proof.
  induction 1 as [|l pre Hl _ IH]; intros acc st.
  - cbn. now rewrite absorb_nil, emitted_nil.
  - cbn [forLines flat_map]. unfold bind. rewrite (geminiLine_clean _ _ _ Hl).
    now rewrite IH, absorb_absorb, emitted_emitted, map_app.
Qed.

Lemma quiet_geminiLine (line : string) (acc : Acc) : quiet (geminiLine E line acc).
Proof.
  intros st. destruct (lineFault E line) as [msg|] eqn:Hf.
  - rewrite (geminiLine_fault _ _ _ _ Hf).
    destruct (gotContent acc); (split; [reflexivity|]); [|reflexivity].
    cbn. rewrite requests_app. apply app_nil_r.
  - rewrite (geminiLine_clean _ _ _ Hf). split; [reflexivity|].
    cbn. rewrite requests_app, requests_chunks. apply app_nil_r.
Qed.

End GeminiStream.

(* ================================================================== *)
(** ** Key rotation *)
(* ================================================================== *)

Section KeyRotation.

Variable E : Env.
Variables (messages : list Chat.ChatMessage) (model systemPrompt : string).

Lemma geminiAttempt_stream (key : string) (i n : nat) (st : State)
    (s : nat) (chunks : list string) (fin : option string) :
  net E (fetched st) (geminiRequest messages model systemPrompt key)
    = Responds s chunks fin ->
  (200 <=? s) && (s <=? 299) = true ->
  geminiAttempt E messages model systemPrompt key i n st =
  match readLoop (geminiLine E) chunks fin "" acc0
          (opened st messages model systemPrompt key i n) with
  | (Ok (Return reply), st') => (Ok reply, st')
  | (Ok (Next acc), st') =>
      if negb (gotContent acc) && negb (JS.truthy (fullText acc))
         && (List.length (imgs acc) =? 0)
      then (Err "Empty response from model", st')
      else
        (Ok (replyOf acc),
         logged st' info
           ("← OK via ..." ++ JS.takeLast 6 key ++ " ("
            ++ JS.ofNat (String.length (fullText acc)) ++ " chars"
            ++ (if List.length (imgs acc) =? 0 then ""
                else ", " ++ JS.ofNat (List.length (imgs acc)) ++ " imgs")
            ++ ")"))
  | (Err m, st') => (Err m, st')
  end.
Proof.
  intros Hnet Hok. unfold geminiAttempt. cbv zeta.
  unfold bind at 1. rewrite addLog_run.
  unfold bind at 1. unfold fetch.
  change (fetched (logged st info _)) with (fetched st). rewrite Hnet.
  unfold bind at 1. unfold ok. cbn [status]. rewrite Hok. cbn [negb ret].
  unfold bind at 1. unfold onResetContent. rewrite emit_run.
  unfold bind at 1. cbn [body ending].
  fold (requested (logged st info
          ("Key ..." ++ JS.takeLast 6 key ++ " (" ++ JS.ofNat (i + 1) ++ "/"
           ++ JS.ofNat n ++ ")")) (geminiRequest messages model systemPrompt key)).
  fold (opened st messages model systemPrompt key i n).
  destruct (readLoop (geminiLine E) chunks fin "" acc0 _) as [[[acc|reply]|m] st'];
    try reflexivity.
  destruct (negb (gotContent acc) && negb (JS.truthy (fullText acc))
            && (List.length (imgs acc) =? 0)); reflexivity.
Qed.


(** An attempt issues exactly one request, the one of its key. *)
Lemma geminiAttempt_one_request (key : string) (i n : nat) :
  oneRequest (geminiRequest messages model systemPrompt key)
    (geminiAttempt E messages model systemPrompt key i n).
Proof.
  unfold geminiAttempt. cbv zeta.
  apply oneRequest_addLog, oneRequest_fetch. intros response. quiet_tac.
  - unfold responseText. quiet_tac.
  - apply quiet_readLoop. apply quiet_geminiLine.
Qed.

Lemma geminiKeys_aborted (n i : nat) (key : string) (rest : list string) (st : State) :
  aborted E (fetched st) = true ->
  geminiKeys E messages model systemPrompt n i (key :: rest) st
  = (Err "Request aborted", st).
Proof.
  intros H. cbn [geminiKeys]. unfold bind, signalAborted. now rewrite H.
Qed.

Lemma geminiKeys_step (n i : nat) (key : string) (rest : list string) (st : State) :
  aborted E (fetched st) = false ->
  geminiKeys E messages model systemPrompt n i (key :: rest) st
  = tryCatch (geminiAttempt E messages model systemPrompt key i n)
      (geminiOnError key (geminiKeys E messages model systemPrompt n (S i) rest)) st.
Proof.
  intros H. cbn [geminiKeys]. unfold bind, signalAborted. now rewrite H.
Qed.

(** A failed attempt that is retryable hands over to the next key. *)
Lemma geminiKeys_retry (n i : nat) (key : string) (rest : list string)
    (st st1 : State) (msg : string) :
  aborted E (fetched st) = false ->
  geminiAttempt E messages model systemPrompt key i n st = (Err msg, st1) ->
  JS.includes "abort" msg = false ->
  isRetryableError msg = true ->
  geminiKeys E messages model systemPrompt n i (key :: rest) st
  = geminiKeys E messages model systemPrompt n (S i) rest (keyFailed st1 key msg).
Proof.
  intros Hab Hatt Hc Hr. rewrite (geminiKeys_step _ _ _ _ _ Hab).
  rewrite (tryCatch_err _ _ _ _ _ Hatt). unfold geminiOnError. rewrite Hc.
  unfold bind at 1. rewrite addLog_run, Hr. reflexivity.
Qed.

(** A failed attempt that is not retryable ends the call. *)
Lemma geminiKeys_fatal (n i : nat) (key : string) (rest : list string)
    (st st1 : State) (msg : string) :
  aborted E (fetched st) = false ->
  geminiAttempt E messages model systemPrompt key i n st = (Err msg, st1) ->
  JS.includes "abort" msg = false ->
  isRetryableError msg = false ->
  geminiKeys E messages model systemPrompt n i (key :: rest) st
  = (Err msg, keyFailed st1 key msg).
Proof.
  intros Hab Hatt Hc Hr. rewrite (geminiKeys_step _ _ _ _ _ Hab).
  rewrite (tryCatch_err _ _ _ _ _ Hatt). unfold geminiOnError. rewrite Hc.
  unfold bind at 1. rewrite addLog_run, Hr. reflexivity.
Qed.

(** A cancellation met by an attempt is raised again as it is. *)
Lemma geminiKeys_cancel (n i : nat) (key : string) (rest : list string)
    (st st1 : State) (msg : string) :
  aborted E (fetched st) = false ->
  geminiAttempt E messages model systemPrompt key i n st = (Err msg, st1) ->
  JS.includes "abort" msg = true ->
  geminiKeys E messages model systemPrompt n i (key :: rest) st = (Err msg, st1).
Proof.
  intros Hab Hatt Hc. rewrite (geminiKeys_step _ _ _ _ _ Hab).
  rewrite (tryCatch_err _ _ _ _ _ Hatt). unfold geminiOnError. now rewrite Hc.
Qed.

(** The key loop only ever adds requests. *)
Lemma geminiKeys_requests (n : nat) (ks : list string) :
  forall i st,
    exists more,
      requests (trace (snd (geminiKeys E messages model systemPrompt n i ks st)))
      = requests (trace st) ++ more.
Proof.
  induction ks as [|key rest IH]; intros i st.
  - exists []. cbn [geminiKeys]. unfold bind. rewrite addLog_run. cbn.
    now rewrite requests_app.
  - destruct (aborted E (fetched st)) eqn:Hab.
    + exists []. rewrite (geminiKeys_aborted _ _ _ _ _ Hab). cbn. now rewrite app_nil_r.
    + rewrite (geminiKeys_step _ _ _ _ _ Hab). unfold tryCatch.
      destruct (geminiAttempt_one_request key i n st) as [_ Hr].
      destruct (geminiAttempt E messages model systemPrompt key i n st)
        as [[reply|msg] st1]; cbn [snd] in *.
      * eexists. exact Hr.
      * unfold geminiOnError.
        destruct (JS.includes "abort" msg); [eexists; exact Hr|].
        unfold bind at 1. rewrite addLog_run.
        assert (Hlog : requests (trace (logged st1 warn
                         ("Key ..." ++ JS.takeLast 6 key ++ " failed: " ++ JS.take 80 msg)))
                       = requests (trace st)
                         ++ [geminiRequest messages model systemPrompt key]).
        { cbn. now rewrite requests_app, app_nil_r. }
        destruct (negb (isRetryableError msg)); [eexists; exact Hlog|].
        destruct (IH (S i) (logged st1 warn
                    ("Key ..." ++ JS.takeLast 6 key ++ " failed: " ++ JS.take 80 msg)))
          as [more Hmore].
        eexists. rewrite Hmore, Hlog, <- app_assoc. reflexivity.
Qed.

(** Unless the signal is aborted, the first request of the key loop is the
    one of its first key. *)
Lemma geminiKeys_first_request (n i : nat) (key : string) (rest : list string)
    (st : State) :
  aborted E (fetched st) = false ->
  exists more,
    requests (trace (snd (geminiKeys E messages model systemPrompt n i (key :: rest) st)))
    = requests (trace st) ++ geminiRequest messages model systemPrompt key :: more.
Proof.
  intros Hab. rewrite (geminiKeys_step _ _ _ _ _ Hab). unfold tryCatch.
  destruct (geminiAttempt_one_request key i n st) as [_ Hr].
  destruct (geminiAttempt E messages model systemPrompt key i n st)
    as [[reply|msg] st1]; cbn [snd] in *.
  - exists []. exact Hr.
  - unfold geminiOnError.
    destruct (JS.includes "abort" msg); [exists []; exact Hr|].
    unfold bind at 1. rewrite addLog_run.
    assert (Hlog : requests (trace (logged st1 warn
                     ("Key ..." ++ JS.takeLast 6 key ++ " failed: " ++ JS.take 80 msg)))
                   = requests (trace st)
                     ++ [geminiRequest messages model systemPrompt key]).
    { cbn. now rewrite requests_app, app_nil_r. }
    destruct (negb (isRetryableError msg)); [exists []; exact Hlog|].
    destruct (geminiKeys_requests n rest (S i) (logged st1 warn
                ("Key ..." ++ JS.takeLast 6 key ++ " failed: " ++ JS.take 80 msg)))
      as [more Hmore].
    exists more. rewrite Hmore, Hlog, <- app_assoc. reflexivity.
Qed.

(** Keys that fail retryably are passed one request each. *)
Lemma RetryRun_keys (n : nat) (pre : list string) :
  forall i st st1,
    RetryRun E messages model systemPrompt n i pre st st1 ->
    fetched st1 = fetched st + List.length pre
    /\ requests (trace st1)
       = requests (trace st) ++ map (geminiRequest messages model systemPrompt) pre
    /\ forall rest,
         geminiKeys E messages model systemPrompt n i (pre ++ rest) st
         = geminiKeys E messages model systemPrompt n (i + List.length pre) rest st1.
Proof.
  induction pre as [|key pre IH]; intros i st st1 Hrun; inversion Hrun; subst.
  - split; [now rewrite Nat.add_0_r|].
    split; [now rewrite app_nil_r | intros rest; now rewrite Nat.add_0_r].
  - match goal with
    | Hatt : geminiAttempt _ _ _ _ _ _ _ _ = _, Hrec : RetryRun _ _ _ _ _ _ _ _ _ |- _ =>
        pose proof (geminiAttempt_one_request key i n st) as Hone;
        rewrite Hatt in Hone; destruct Hone as [Hf Hr];
        destruct (IH _ _ _ Hrec) as (Hcount & Hreqs & Hgo)
    end.
    cbn [snd] in Hf, Hr. unfold keyFailed, logged, emitted in Hcount, Hreqs.
    cbn [fetched trace] in Hcount, Hreqs.
    rewrite requests_app in Hreqs. cbn [requests] in Hreqs. rewrite app_nil_r in Hreqs.
    split; [cbn [List.length]; lia|].
    split; [rewrite Hreqs, Hr; cbn [map]; now rewrite <- app_assoc|].
    intros rest. rewrite <- app_comm_cons.
    erewrite geminiKeys_retry by eassumption.
    rewrite Hgo. cbn [List.length]. now rewrite Nat.add_succ_r.
Qed.

End KeyRotation.

(* ================================================================== *)
(** ** Claims on the Gemini caller *)
(* ================================================================== *)

Section GeminiClaims.

Variable E : Env.
Variables (messages : list Chat.ChatMessage) (model systemPrompt : string).

(** What one attempt does with a stream whose first error record comes
    after the lines [pre]. *)
Lemma geminiAttempt_interrupted (key : string) (i n : nat) (st : State)
    (s : nat) (chunks : list string) (fin : option string)
    (pre post : list string) (l msg : string) :
  net E (fetched st) (geminiRequest messages model systemPrompt key)
    = Responds s chunks fin ->
  (200 <=? s) && (s <=? 299) = true ->
  streamLines "" chunks = pre ++ l :: post ->
  Forall (fun x => lineFault E x = None) pre ->
  lineFault E l = Some msg ->
  let texts := flat_map (lineTexts E) pre in
  let pictures := flat_map (lineImages E) pre in
  let st1 := emitted (opened st messages model systemPrompt key i n) (map EvChunk texts) in
  geminiAttempt E messages model systemPrompt key i n st =
  if isNil texts && isNil pictures then (Err msg, st1)
  else (Ok {| text := String.concat "" texts; images := pictures |},
        logged st1 warn "Stream interrupted with partial content").
Proof.
  intros Hnet Hok Hlines Hpre Hl texts pictures st1.
  rewrite (geminiAttempt_stream E messages model systemPrompt key i n st _ _ _ Hnet Hok).
  rewrite readLoop_lines by reflexivity.
  rewrite Hlines, forLines_app, (forLines_clean E pre Hpre).
  cbn [forLines]. unfold bind at 1.
  rewrite (geminiLine_fault E l _ _ msg Hl).
  fold texts. fold pictures. fold st1.
  unfold absorb, acc0, replyOf. cbn [gotContent fullText imgs orb app append].
  destruct (isNil texts && isNil pictures); reflexivity.
Qed.

(** In what follows [n], [i], [key], [rest] and [st] are any iteration of
    the key loop: [key] has index [i] among [n] keys, [rest] are the keys
    after it. *)

(** ** C4: an interrupted stream *)

(** C4 (amended).  In [callGeminiStreaming], when an in-stream error
    object or a prompt block arrives in the attempt of a key after the
    lines [pre]: if those lines brought any text delta or image, the call
    returns successfully, its text being exactly the concatenation of the
    deltas forwarded through [onChunk] before the error.  If they brought
    none, the error is raised to the handler of the key loop, and the
    message decides.  A message that holds [abort] ends the call as it is.
    A message that does not match the retryable pattern ends the call as
    well, after this one request, whatever keys remain.  A message that
    matches the pattern makes the loop go on with the remaining keys:
    unless the signal is aborted by then, the next key is requested. *)
Theorem C4_interrupted_stream (n i : nat) (key : string) (rest : list string)
    (st : State) (s : nat) (chunks : list string) (fin : option string)
    (pre post : list string) (l msg : string) :
  aborted E (fetched st) = false ->
  net E (fetched st) (geminiRequest messages model systemPrompt key)
    = Responds s chunks fin ->
  (200 <=? s) && (s <=? 299) = true ->
  streamLines "" chunks = pre ++ l :: post ->
  Forall (fun x => lineFault E x = None) pre ->
  lineFault E l = Some msg ->
  let texts := flat_map (lineTexts E) pre in
  let pictures := flat_map (lineImages E) pre in
  let st1 := emitted (opened st messages model systemPrompt key i n) (map EvChunk texts) in
  let call := geminiKeys E messages model systemPrompt n i (key :: rest) st in
  (texts <> [] \/ pictures <> [] ->
     call
     = (Ok {| text := String.concat "" texts; images := pictures |},
        logged st1 warn "Stream interrupted with partial content"))
  /\
  (texts = [] /\ pictures = [] ->
     (JS.includes "abort" msg = true -> call = (Err msg, st1))
     /\ (JS.includes "abort" msg = false -> isRetryableError msg = false ->
         call = (Err msg, keyFailed st1 key msg)
         /\ requests (trace (snd call))
            = requests (trace st) ++ [geminiRequest messages model systemPrompt key])
     /\ (JS.includes "abort" msg = false -> isRetryableError msg = true ->
         call = geminiKeys E messages model systemPrompt n (S i) rest (keyFailed st1 key msg)
         /\ forall next rest',
              rest = next :: rest' ->
              aborted E (fetched st1) = false ->
              exists more,
                requests (trace (snd call))
                = requests (trace st)
                  ++ [geminiRequest messages model systemPrompt key;
                      geminiRequest messages model systemPrompt next]
                  ++ more)).
Proof.
  intros Hab Hnet Hok Hlines Hpre Hl texts pictures st1 call.
  pose proof (geminiAttempt_interrupted key i n st s chunks fin pre post l msg
                Hnet Hok Hlines Hpre Hl) as Hatt.
  cbv zeta in Hatt. fold texts pictures st1 in Hatt.
  split.
  - intros Hsome. unfold call.
    rewrite (geminiKeys_step E messages model systemPrompt n i key rest st Hab).
    assert (Hnil : isNil texts && isNil pictures = false).
    { destruct Hsome as [H|H]; [destruct texts | destruct pictures];
        try contradiction; cbn; [reflexivity | apply andb_false_r]. }
    rewrite Hnil in Hatt. now rewrite (tryCatch_ok _ _ _ _ _ Hatt).
  - intros [Ht Hp]. rewrite Ht, Hp in Hatt. cbn [isNil andb] in Hatt.
    pose proof (geminiAttempt_one_request E messages model systemPrompt key i n st) as Hone.
    rewrite Hatt in Hone. cbn [snd] in Hone. destruct Hone as [Hf Hr].
    assert (Hsofar : requests (trace (keyFailed st1 key msg))
                     = requests (trace st) ++ [geminiRequest messages model systemPrompt key]).
    { unfold keyFailed, logged, emitted. cbn [trace].
      rewrite requests_app, Hr. cbn [requests]. now rewrite app_nil_r. }
    split; [|split].
    + intros Hc. unfold call.
      exact (geminiKeys_cancel E messages model systemPrompt n i key rest st st1 msg
               Hab Hatt Hc).
    + intros Hc Hret.
      assert (Hcall : call = (Err msg, keyFailed st1 key msg)).
      { exact (geminiKeys_fatal E messages model systemPrompt n i key rest st st1 msg
                 Hab Hatt Hc Hret). }
      split; [exact Hcall|]. rewrite Hcall. exact Hsofar.
    + intros Hc Hret.
      assert (Hcall : call = geminiKeys E messages model systemPrompt n (S i) rest
                               (keyFailed st1 key msg)).
      { exact (geminiKeys_retry E messages model systemPrompt n i key rest st st1 msg
                 Hab Hatt Hc Hret). }
      split; [exact Hcall|].
      intros next rest' -> Hab1. rewrite Hcall.
      destruct (geminiKeys_first_request E messages model systemPrompt n (S i) next rest'
                  (keyFailed st1 key msg) Hab1) as [more Hmore].
      exists more. rewrite Hmore, Hsofar, <- app_assoc. reflexivity.
Qed.

Lemma callGeminiStreaming_keys (keys : list string) (st : State) :
  keys <> [] ->
  callGeminiStreaming E messages model keys systemPrompt st
  = geminiKeys E messages model systemPrompt
      (List.length (shuffle E (fetched st) keys)) 0 (shuffle E (fetched st) keys)
      (announced st model (List.length (shuffle E (fetched st) keys))).
Proof.
  intros Hne. unfold callGeminiStreaming.
  destruct keys as [|k ks]; [contradiction|]. reflexivity.
Qed.

(** ** C3: error classification in the key loop *)

(** C3 (amended).  Let the shuffled keys be [pre ++ key :: post], let the
    attempts on [pre] each fail with a retryable error, and let the attempt
    on [key] fail with a message [msg] that does not contain [abort].  If
    [msg] does not match
    [/429|500|503|overloaded|quota|rate.?limit|capacity|unavailable|keys? failed|exhausted/i],
    the call ends with [msg]; its requests were those of the keys
    [pre ++ [key]], one each and in this order: the keys of [post] are never
    attempted.  If it matches, the loop goes on with the keys of [post], and
    unless the signal is aborted by then the next key is requested. *)
Theorem C3_error_classification (keys pre post : list string) (key : string)
    (st st1 st2 : State) (msg : string) :
  keys <> [] ->
  shuffle E (fetched st) keys = pre ++ key :: post ->
  let n := List.length (pre ++ key :: post) in
  RetryRun E messages model systemPrompt n 0 pre (announced st model n) st1 ->
  aborted E (fetched st1) = false ->
  geminiAttempt E messages model systemPrompt key (List.length pre) n st1 = (Err msg, st2) ->
  JS.includes "abort" msg = false ->
  (isRetryableError msg = false ->
     callGeminiStreaming E messages model keys systemPrompt st
       = (Err msg, keyFailed st2 key msg)
     /\ fetched (keyFailed st2 key msg) = fetched st + List.length pre + 1
     /\ requests (trace (keyFailed st2 key msg))
        = requests (trace st)
          ++ map (geminiRequest messages model systemPrompt) (pre ++ [key]))
  /\
  (isRetryableError msg = true ->
     callGeminiStreaming E messages model keys systemPrompt st
       = geminiKeys E messages model systemPrompt n (S (List.length pre)) post
           (keyFailed st2 key msg)
     /\ forall next post',
          post = next :: post' ->
          aborted E (fetched st2) = false ->
          exists more,
            requests (trace (snd (callGeminiStreaming E messages model keys systemPrompt st)))
            = requests (trace st)
              ++ map (geminiRequest messages model systemPrompt) (pre ++ [key; next])
              ++ more).
Proof.
  intros Hne Hsh n Hrun Hab Hatt Hc.
  rewrite (callGeminiStreaming_keys keys st Hne), Hsh. fold n.
  destruct (RetryRun_keys E messages model systemPrompt n pre 0 _ _ Hrun)
    as (Hcount & Hreqs & Hgo).
  rewrite Hgo. cbn [Nat.add].
  pose proof (geminiAttempt_one_request E messages model systemPrompt key
                (List.length pre) n st1) as Hone.
  rewrite Hatt in Hone. cbn [snd] in Hone. destruct Hone as [Hf Hr].
  assert (Hsofar : requests (trace (keyFailed st2 key msg))
                   = requests (trace st)
                     ++ map (geminiRequest messages model systemPrompt) (pre ++ [key])).
  { unfold keyFailed, announced, logged, emitted in *. cbn [fetched trace] in *.
    rewrite requests_app in Hreqs. cbn [requests] in Hreqs. rewrite app_nil_r in Hreqs.
    rewrite requests_app, Hr, Hreqs, map_app. cbn [requests map].
    now rewrite app_nil_r, <- app_assoc. }
  split; intros Hret.
  - split; [now apply geminiKeys_fatal|].
    split; [|exact Hsofar].
    unfold keyFailed, announced, logged, emitted in *. cbn [fetched] in *. lia.
  - rewrite (geminiKeys_retry E messages model systemPrompt n (List.length pre) key post
               st1 st2 msg Hab Hatt Hc Hret).
    split; [reflexivity|].
    intros next post' -> Hab2.
    destruct (geminiKeys_first_request E messages model systemPrompt n
                (S (List.length pre)) next post' (keyFailed st2 key msg) Hab2)
      as [more Hmore].
    exists more. rewrite Hmore, Hsofar, !map_app. cbn [map app].
    now rewrite <- !app_assoc.
Qed.

(** ** C1: an empty response *)

(** C1 (amended).  When the stream of a key ends normally without an error
    record and without any text delta or image, the attempt fails with
    [Empty response from model].  That message is not retryable, so the call
    ends with it after this one request, whatever keys remain. *)
Theorem C1_empty_response (n i : nat) (key : string) (rest : list string)
    (st : State) (s : nat) (chunks : list string) :
  aborted E (fetched st) = false ->
  net E (fetched st) (geminiRequest messages model systemPrompt key)
    = Responds s chunks None ->
  (200 <=? s) && (s <=? 299) = true ->
  Forall (fun x => lineFault E x = None) (streamLines "" chunks) ->
  flat_map (lineTexts E) (streamLines "" chunks) = [] ->
  flat_map (lineImages E) (streamLines "" chunks) = [] ->
  let st1 := keyFailed (opened st messages model systemPrompt key i n) key
               "Empty response from model" in
  isRetryableError "Empty response from model" = false
  /\ geminiKeys E messages model systemPrompt n i (key :: rest) st
     = (Err "Empty response from model", st1)
  /\ requests (trace st1)
     = requests (trace st) ++ [geminiRequest messages model systemPrompt key].
Proof.
  intros Hab Hnet Hok Hclean Ht Hp st1.
  split; [reflexivity|]. split.
  - apply geminiKeys_fatal; try reflexivity; [exact Hab|].
    rewrite (geminiAttempt_stream E messages model systemPrompt key i n st _ _ _ Hnet Hok).
    rewrite readLoop_lines by reflexivity.
    rewrite (forLines_clean E _ Hclean), Ht, Hp. cbn [map].
    rewrite absorb_nil, emitted_nil. reflexivity.
  - unfold st1, keyFailed, opened, requested, logged, emitted. cbn [trace].
    rewrite !requests_app. cbn [requests]. now rewrite !app_nil_r.
Qed.

End GeminiClaims.

(** C1, as stated, fails: with two keys and a first stream that ends
    without content, the call is over with [Empty response from model]
    after one request; the second key is never used. *)
Lemma C1_counterexample :
  let run := callGeminiStreaming (Demo.env Demo.silentNet Demo.never) Demo.hello
               Demo.flash [Demo.keyA; Demo.keyB] "sys" Demo.st0 in
  fst run = Err "Empty response from model"
  /\ requests (trace (snd run)) = [geminiRequest Demo.hello Demo.flash "sys" Demo.keyA]
  /\ ~ In (geminiRequest Demo.hello Demo.flash "sys" Demo.keyB) (requests (trace (snd run))).
Proof.
  vm_compute. repeat split. intros [H|[]]. discriminate H.
Qed.

Lemma C1_empty_response_witness :
  geminiKeys (Demo.env Demo.silentNet Demo.never) Demo.hello Demo.flash "sys" 2 0
    [Demo.keyA; Demo.keyB] Demo.st0
  = (Err "Empty response from model",
     keyFailed (opened Demo.st0 Demo.hello Demo.flash "sys" Demo.keyA 0 2) Demo.keyA
       "Empty response from model").
Proof.
  refine (proj1 (proj2 (C1_empty_response (Demo.env Demo.silentNet Demo.never)
            Demo.hello Demo.flash "sys" 2 0 Demo.keyA [Demo.keyB] Demo.st0 200
            [(": keep-alive" ++ JS.nl)%string; ("data: [DONE]" ++ JS.nl)%string]
            eq_refl eq_refl eq_refl _ eq_refl eq_refl))).
  vm_compute. repeat constructor.
Defined.

(** C3, as stated, fails: [HTTP 400: rate-limit reached] does not match the
    pattern of the claim and is no cancellation, yet the second key is
    tried and the call succeeds. *)
Lemma C3_counterexample :
  let E := Demo.env Demo.rateLimitNet Demo.never in
  let run := callGeminiStreaming E Demo.hello Demo.flash [Demo.keyA; Demo.keyB] "sys" Demo.st0 in
  fst (geminiAttempt E Demo.hello Demo.flash "sys" Demo.keyA 0 2 (announced Demo.st0 Demo.flash 2))
    = Err "HTTP 400: rate-limit reached"
  /\ Regex.test specPattern "HTTP 400: rate-limit reached" = false
  /\ JS.includes "abort" "HTTP 400: rate-limit reached" = false
  /\ fst run = Ok {| text := "hi"; images := [] |}
  /\ requests (trace (snd run))
     = [geminiRequest Demo.hello Demo.flash "sys" Demo.keyA;
        geminiRequest Demo.hello Demo.flash "sys" Demo.keyB].
Proof.
  vm_compute. repeat split.
Qed.

Lemma C3_error_classification_witness :
  let run := callGeminiStreaming (Demo.env Demo.busyThenBadNet Demo.never) Demo.hello
               Demo.flash [Demo.keyA; Demo.keyB; Demo.keyC] "sys" Demo.st0 in
  fst run = Err "HTTP 400: bad request"
  /\ requests (trace (snd run))
     = [geminiRequest Demo.hello Demo.flash "sys" Demo.keyA;
        geminiRequest Demo.hello Demo.flash "sys" Demo.keyB].
Proof.
  cbv zeta.
  edestruct (C3_error_classification (Demo.env Demo.busyThenBadNet Demo.never)
               Demo.hello Demo.flash "sys" [Demo.keyA; Demo.keyB; Demo.keyC]
               [Demo.keyA] [Demo.keyC] Demo.keyB Demo.st0) as [Hfatal _].
  - discriminate.
  - reflexivity.
  - eapply RetryRun_cons; [reflexivity | vm_compute; reflexivity | reflexivity
                           | reflexivity | apply RetryRun_nil].
  - reflexivity.
  - vm_compute. reflexivity.
  - reflexivity.
  - destruct (Hfatal eq_refl) as (Hrun & _ & Hreqs). rewrite Hrun. cbn [fst snd].
    split; [reflexivity | exact Hreqs].
Defined.

(** C4, as stated, fails in its second half: with two keys and a first
    stream that opens with the error object [400: boom], no content having
    been produced, the error does not make the caller rotate: the call is
    over with [Stream error 400: boom] after one request, and the second
    key is never used. *)
Lemma C4_counterexample :
  let E := Demo.env Demo.refusedNet Demo.never in
  let run := callGeminiStreaming E Demo.hello Demo.flash [Demo.keyA; Demo.keyB] "sys" Demo.st0 in
  lineFault E "data: Eboom" = Some "Stream error 400: boom"
  /\ fst run = Err "Stream error 400: boom"
  /\ requests (trace (snd run)) = [geminiRequest Demo.hello Demo.flash "sys" Demo.keyA]
  /\ ~ In (geminiRequest Demo.hello Demo.flash "sys" Demo.keyB) (requests (trace (snd run))).
Proof.
  vm_compute. repeat split. intros [H|[]]. discriminate H.
Qed.

(** A contentless stream error that matches the retryable pattern does
    make the caller rotate. *)
Example overloaded_stream_rotates :
  let E := Demo.env Demo.overloadedThenServedNet Demo.never in
  let run := callGeminiStreaming E Demo.hello Demo.flash [Demo.keyA; Demo.keyB] "sys" Demo.st0 in
  fst run = Ok {| text := "hi"; images := [] |}
  /\ requests (trace (snd run))
     = [geminiRequest Demo.hello Demo.flash "sys" Demo.keyA;
        geminiRequest Demo.hello Demo.flash "sys" Demo.keyB].
Proof. vm_compute. repeat split. Qed.

Lemma C4_interrupted_stream_witness :
  geminiKeys (Demo.env Demo.brokenNet Demo.never) Demo.hello Demo.flash "sys" 2 0
    [Demo.keyA; Demo.keyB] Demo.st0
  = (Ok {| text := "hello"; images := [] |},
     logged (emitted (opened Demo.st0 Demo.hello Demo.flash "sys" Demo.keyA 0 2)
               [EvChunk "hel"; EvChunk "lo"])
       warn "Stream interrupted with partial content").
Proof.
  refine (proj1 (C4_interrupted_stream (Demo.env Demo.brokenNet Demo.never)
            Demo.hello Demo.flash "sys" 2 0 Demo.keyA [Demo.keyB] Demo.st0 200
            (Demo.sse ["Thel"; "Tlo"; "Eboom"; "Tmore"]) None
            ["data: Thel"; "data: Tlo"] ["data: Tmore"] "data: Eboom"
            "Stream error 400: boom"
            eq_refl eq_refl eq_refl eq_refl _ eq_refl) _).
  - repeat constructor.
  - left. discriminate.
Defined.

(* ================================================================== *)
(** ** Search mode: the empty query *)
(* ================================================================== *)

Lemma trimStart_allWhiteSpace (s : string) :
  allWhiteSpace s = true -> JS.trimStart s = "".
Proof.
  induction s as [|c s IH]; cbn [allWhiteSpace JS.trimStart]; [reflexivity|].
  intros H. apply andb_true_iff in H as [Hc Hs]. rewrite Hc. now apply IH.
Qed.

Lemma trim_allWhiteSpace (s : string) : allWhiteSpace s = true -> JS.trim s = "".
Proof. intros H. unfold JS.trim. now rewrite trimStart_allWhiteSpace. Qed.

Lemma lastContent_last (init : list Chat.ChatMessage) (m : Chat.ChatMessage) :
  lastContent (init ++ [m]) = Chat.content m.
Proof.
  unfold lastContent. rewrite length_app. cbn [List.length].
  replace (List.length init + 1 - 1) with (List.length init + 0) by lia.
  rewrite nth_error_app2 by lia.
  replace (List.length init + 0 - List.length init) with 0 by lia.
  cbn [nth_error]. apply orElse_empty.
Qed.

(** C10.  [generateResponse] with model [auto-search], when the message list
    is empty or the content of its last message is empty or white space
    only, fails with [Empty query] and leaves the state as it was: nothing
    is logged, no content is reset, no request is issued. *)
Theorem C10_empty_query (E : Env) (messages : list Chat.ChatMessage)
    (config : AppConfig) (st : State) :
  (messages = [] \/
   exists init m, messages = init ++ [m] /\ allWhiteSpace (Chat.content m) = true) ->
  generateResponse E messages "auto-search" config st = (Err "Empty query", st).
Proof.
  intros H.
  assert (Ht : JS.trim (lastContent messages) = "").
  { destruct H as [-> | (init & m & -> & Hw)]; [reflexivity|].
    rewrite lastContent_last. now apply trim_allWhiteSpace. }
  unfold generateResponse. rewrite String.eqb_refl.
  unfold callSearchMode. cbv zeta. rewrite Ht. reflexivity.
Qed.

Lemma C10_empty_query_witness :
  generateResponse (Demo.env Demo.brokenNet Demo.never)
    (Demo.hello ++ [ {| Chat.role := Chat.user; Chat.content := "  "; Chat.images := [] |} ])
    "auto-search" Demo.config Demo.st0
  = (Err "Empty query", Demo.st0).
Proof.
  apply C10_empty_query. right.
  exists Demo.hello, {| Chat.role := Chat.user; Chat.content := "  "; Chat.images := [] |}.
  split; reflexivity.
Defined.

(* ================================================================== *)
(** ** Auto mode: the candidate list *)
(* ================================================================== *)






(* ================================================================== *)
(** ** The router *)
(* ================================================================== *)

(** For a model identifier that is not the name of a member of
    [Object.prototype], the router dispatches on the table, then on the
    [gemini] prefix, then on the SambaNova prefixes. *)
Lemma generateResponse_dispatch (E : Env) (messages : list Chat.ChatMessage)
    (model : string) (config : AppConfig) :
  existsb (String.eqb model) ObjectPrototype = false ->
  generateResponse E messages model config =
  if String.eqb model "auto-search" then callSearchMode E messages config
  else match ownProperty model AUTO_MODES with
       | Some _ => callAutoMode E messages model config
       | None =>
           if JS.startsWith "gemini" model then
             callGeminiStreaming E messages model (googleKeys config) (systemPrompt config)
           else if JS.startsWith "DeepSeek-" model || JS.startsWith "gpt-oss-" model then
             callSambaNovaStreaming E messages model (sambaKey config) (systemPrompt config)
           else
             callOpenRouter E messages model (openrouterKey config) (systemPrompt config)
       end.
Proof.
  intros Hproto. unfold generateResponse, isGoogleModel, isSambaModel, isAutoMode, AUTO_MODES_get.
  rewrite Hproto.
  destruct (String.eqb model "auto-search"); [reflexivity|].
  destruct (ownProperty model AUTO_MODES); reflexivity.
Qed.

(** C6, at the identifier [constructor].  It is not [auto-search], not a
    key of the auto-mode table, has neither the [gemini] prefix nor a
    SambaNova prefix, so the claim sends it to OpenRouter, which would issue
    a request.  The code finds it with [in] on the table's prototype, sends
    it to auto mode, and the call fails with a TypeError before any
    request. *)
Theorem C6_inherited_name (E : Env) (messages : list Chat.ChatMessage)
    (config : AppConfig) (st : State) :
  String.eqb "constructor" "auto-search" = false
  /\ ownProperty "constructor" AUTO_MODES = None
  /\ JS.startsWith "gemini" "constructor" = false
  /\ JS.startsWith "DeepSeek-" "constructor" || JS.startsWith "gpt-oss-" "constructor" = false
  /\ generateResponse E messages "constructor" config
     = callAutoMode E messages "constructor" config
  /\ generateResponse E messages "constructor" config st = (Err (notIterable E), st)
  /\ fetched (snd (callOpenRouter E messages "constructor" "or-key" (systemPrompt config) st))
     = S (fetched st).
Proof.
  repeat split.
  unfold callOpenRouter. cbn [JS.truthy negb].
  assert (Hone : oneRequest
            (openaiRequest "https://openrouter.ai/api/v1/chat/completions" messages
               "constructor" "or-key" (systemPrompt config))
            (openaiCall E "OpenRouter" (getModelShortName "constructor")
               "https://openrouter.ai/api/v1/chat/completions" messages
               "constructor" "or-key" (systemPrompt config))).
  { unfold openaiCall. apply oneRequest_addLog, oneRequest_fetch.
    intros response. quiet_tac.
    - unfold responseText. quiet_tac.
    - apply quiet_readLoop. intros line acc. unfold openaiLine. quiet_tac. }
  exact (proj1 (Hone st)).
Qed.

(* ================================================================== *)
(** ** OpenRouter and SambaNova: no image output *)
(* ================================================================== *)

Section OpenAIClaims.

Variable E : Env.

Lemma openaiLine_never_returns (line fullText : string) :
  keeps (fun _ : string => True) (fun _ : Reply => False) (openaiLine E line fullText).
Proof.
  intros st. unfold openaiLine.
  destruct (JS.startsWith "data: " line && negb (String.eqb line "data: [DONE]"));
    [|exact I].
  destruct (parseOpenAI E (JS.drop 6 line)) as [data|]; [|exact I].
  destruct (Wire.deltaContent data) as [chunk|]; [|exact I].
  destruct (JS.toBoolean chunk); exact I.
Qed.

Lemma openaiCall_images (name tag endpoint : string) (messages : list Chat.ChatMessage)
    (model apiKey systemPrompt : string) (st st' : State) (r : Reply) :
  openaiCall E name tag endpoint messages model apiKey systemPrompt st = (Ok r, st') ->
  images r = [].
Proof.
  unfold openaiCall. unfold bind at 1. rewrite addLog_run.
  unfold bind at 1. unfold fetch.
  destruct (net E _ _) as [m|s chunks fin]; [discriminate|].
  unfold bind at 1.
  match goal with
  | |- context [if negb (ok ?resp) then _ else _] => destruct (negb (ok resp))
  end.
  - unfold bind at 1. unfold responseText. cbn [ending body].
    destruct fin; cbn; discriminate.
  - cbn [ret]. unfold bind at 1. cbn [body ending].
    match goal with
    | |- context [readLoop (openaiLine E) chunks fin "" "" ?s1] =>
        pose proof (keeps_readLoop (openaiLine E) (fun _ => True) (fun _ => False)
                      (fun line acc _ => openaiLine_never_returns line acc)
                      chunks fin "" "" I s1) as Hk;
        destruct (readLoop (openaiLine E) chunks fin "" "" s1) as [[[ft|reply]|m] s2]
    end; cbn [fst] in Hk.
    + unfold bind. rewrite addLog_run. cbn [ret]. intros H. injection H as <- _. reflexivity.
    + contradiction.
    + discriminate.
Qed.

(** C8.  Whenever [callOpenRouter] or [callSambaNovaStreaming] returns a
    reply, its [images] field, a list by its type, is the empty list. *)
Theorem C8_no_images (messages : list Chat.ChatMessage)
    (model apiKey systemPrompt : string) (st st' : State) (r : Reply) :
  callOpenRouter E messages model apiKey systemPrompt st = (Ok r, st')
  \/ callSambaNovaStreaming E messages model apiKey systemPrompt st = (Ok r, st') ->
  images r = [].
Proof.
  unfold callOpenRouter, callSambaNovaStreaming.
  destruct (negb (JS.truthy apiKey)); intros [H|H]; try discriminate H;
    exact (openaiCall_images _ _ _ _ _ _ _ _ _ _ H).
Qed.

End OpenAIClaims.

Lemma C8_no_images_witness :
  let E := Demo.env (fun _ _ => Responds 200 (Demo.sse ["Tan"; "oops"; "Tswer"; "[DONE]"]) None)
             Demo.never in
  fst (callSambaNovaStreaming E Demo.hello "DeepSeek-V3.1" "samba-key" "sys" Demo.st0)
    = Ok {| text := "answer"; images := [] |}
  /\ images {| text := "answer"; images := [] |} = [].
Proof.
  cbv zeta. split; [vm_compute; reflexivity|].
  eapply (C8_no_images
            (Demo.env (fun _ _ => Responds 200 (Demo.sse ["Tan"; "oops"; "Tswer"; "[DONE]"]) None)
               Demo.never)
            Demo.hello "DeepSeek-V3.1" "samba-key" "sys" Demo.st0).
  right. vm_compute. reflexivity.
Defined.

(* ================================================================== *)
(** ** Auto mode: the fallback chain *)
(* ================================================================== *)

Section AutoMode.

Variable E : Env.
Variables (messages : list Chat.ChatMessage) (config : AppConfig).

Lemma autoModels_aborted (p : Provider) (n i : nat) (modelName : string)
    (rest allErrors : list string) (st : State) :
  aborted E (fetched st) = true ->
  autoModels E messages p config n i (modelName :: rest) allErrors st
  = (Err "Request aborted", st).
Proof.
  intros H. cbn [autoModels]. unfold bind, signalAborted. now rewrite H.
Qed.

Lemma autoModels_step (p : Provider) (n i : nat) (modelName : string)
    (rest allErrors : list string) (st : State) :
  aborted E (fetched st) = false ->
  autoModels E messages p config n i (modelName :: rest) allErrors st
  = match autoCall E messages p config modelName (trying st modelName i n) with
    | (Ok reply, st1) => (Ok reply, st1)
    | (Err msg, st1) =>
        autoOnError modelName allErrors
          (autoModels E messages p config n (S i) rest) msg st1
    end.
Proof.
  intros H. cbn [autoModels]. unfold bind at 1. unfold signalAborted. rewrite H.
  unfold bind at 1. rewrite addLog_run. unfold tryCatch, bind, onResetContent.
  rewrite emit_run. reflexivity.
Qed.


Lemma autoModels_retry (p : Provider) (n i : nat) (modelName : string)
    (rest allErrors : list string) (st st1 : State) (msg : string) :
  aborted E (fetched st) = false ->
  autoCall E messages p config modelName (trying st modelName i n) = (Err msg, st1) ->
  JS.includes "abort" msg = false ->
  isRetryableError msg = true ->
  autoModels E messages p config n i (modelName :: rest) allErrors st
  = autoModels E messages p config n (S i) rest
      (allErrors ++ [(getModelShortName modelName ++ ": " ++ JS.take 80 msg)%string])
      (logged st1 warn ("Auto: " ++ getModelShortName modelName ++ " failed, trying next...")).
Proof.
  intros Hab Hcall Hc Hr. rewrite (autoModels_step _ _ _ _ _ _ _ Hab), Hcall.
  unfold autoOnError. rewrite Hc, Hr. cbn [negb]. unfold bind. now rewrite addLog_run.
Qed.

End AutoMode.

Lemma exhausted_retryable (n : nat) (model : string) :
  isRetryableError (exhaustedMessage n model) = true.
Proof.
  unfold isRetryableError, exhaustedMessage.
  change ("All " ++ JS.ofNat n ++ " keys failed for " ++ model ++ ".")%string
    with ("All " ++ JS.ofNat n ++ " " ++ "keys failed" ++ " for " ++ model ++ ".")%string.
  rewrite <- (append_assoc (JS.ofNat n) " "), <- (append_assoc "All ").
  now apply RegexFacts.test_infix.
Qed.

Lemma exhausted_no_abort (n : nat) (model : string) :
  lacks "b" model = true -> JS.includes "abort" (exhaustedMessage n model) = false.
Proof.
  intros H. apply lacks_b_no_abort. unfold exhaustedMessage.
  rewrite !lacks_app, lacks_b_ofNat, H. reflexivity.
Qed.

Lemma google_model_lacks_b (autoKey : string) (c : AutoModeConfig) (m : string) :
  AUTO_MODES_get autoKey = Own c -> provider c = google -> In m (models c) ->
  lacks "b" m = true.
Proof.
  unfold AUTO_MODES_get, AUTO_MODES. cbn [ownProperty].
  repeat match goal with
         | |- context [if String.eqb ?k autoKey then _ else _] =>
             destruct (String.eqb k autoKey)
         end;
    intros H; try (destruct (existsb _ _); discriminate H);
    injection H as <-; cbn [provider models]; intros Hp Hin; try discriminate Hp;
    repeat (destruct Hin as [<-|Hin]; [reflexivity|]); contradiction.
Qed.

(** C9.  The terminal error of the key loop, [All N keys failed for
    <model>.], matches the retryable pattern through [keys? failed].  So
    when the Gemini call of a candidate of a Google-backed auto mode ends
    with it, auto mode logs the failure and continues with the next
    candidate. *)
Theorem C9_exhaustion_is_retryable (E : Env) (messages : list Chat.ChatMessage)
    (config : AppConfig) (autoKey : string) (autoConfig : AutoModeConfig)
    (n i k : nat) (modelName : string) (rest allErrors : list string)
    (st st1 : State) :
  AUTO_MODES_get autoKey = Own autoConfig ->
  provider autoConfig = google ->
  In modelName (models autoConfig) ->
  aborted E (fetched st) = false ->
  callGeminiStreaming E messages modelName (googleKeys config) (systemPrompt config)
    (trying st modelName i n) = (Err (exhaustedMessage k modelName), st1) ->
  (forall sys n' i' st',
     fst (geminiKeys E messages modelName sys n' i' [] st')
     = Err (exhaustedMessage n' modelName))
  /\ isRetryableError (exhaustedMessage k modelName) = true
  /\ autoModels E messages google config n i (modelName :: rest) allErrors st
     = autoModels E messages google config n (S i) rest
         (allErrors ++ [(getModelShortName modelName ++ ": "
                         ++ JS.take 80 (exhaustedMessage k modelName))%string])
         (logged st1 warn
            ("Auto: " ++ getModelShortName modelName ++ " failed, trying next...")).
Proof.
  intros Hget Hp Hin Hab Hcall.
  split; [reflexivity|]. split; [apply exhausted_retryable|].
  apply autoModels_retry; [exact Hab | exact Hcall | | apply exhausted_retryable].
  apply exhausted_no_abort. exact (google_model_lacks_b _ _ _ Hget Hp Hin).
Qed.

Lemma C9_exhaustion_is_retryable_witness :
  map req_model
    (requests (trace (snd
       (autoModels (Demo.env Demo.busyNet Demo.never) Demo.hello google Demo.config 2 0
          ["gemini-3-pro-preview"; "gemini-2.5-pro"] [] Demo.st0))))
  = ["gemini-3-pro-preview"; "gemini-3-pro-preview"; "gemini-2.5-pro"; "gemini-2.5-pro"].
Proof.
  edestruct (C9_exhaustion_is_retryable (Demo.env Demo.busyNet Demo.never) Demo.hello
               Demo.config "auto-gemini-pro"
               {| label := "Gemini Pro"; description := "Pro models · best quality";
                  provider := google;
                  models := ["gemini-3-pro-preview"; "gemini-2.5-pro"] |}
               2 0 2 "gemini-3-pro-preview"
               ["gemini-2.5-pro"] [] Demo.st0) as [_ [_ H]].
  - reflexivity.
  - reflexivity.
  - left. reflexivity.
  - reflexivity.
  - vm_compute. reflexivity.
  - rewrite H. vm_compute. reflexivity.
Defined.

(* ================================================================== *)
(** ** Cancellation *)
(* ================================================================== *)

Section Cancellation.

Variable E : Env.
Variables (messages : list Chat.ChatMessage) (config : AppConfig).


Lemma searchKeys_step (sys model key : string) (rest : list string)
    (next : M SearchReply) (st : State) :
  aborted E (fetched st) = false ->
  searchKeys E messages sys model (key :: rest) next st
  = tryCatch (searchAttempt E messages sys model key)
      (searchOnError model key (searchKeys E messages sys model rest next)) st.
Proof.
  intros H. cbn [searchKeys]. unfold bind, signalAborted. now rewrite H.
Qed.


Lemma callSearchMode_primary (st : State) :
  JS.truthy (JS.trim (lastContent messages)) = true ->
  googleKeys config <> [] ->
  callSearchMode E messages config st
  = match callGeminiWithSearch E messages (googleKeys config) (searchSystemPrompt E)
            (searching st) with
    | (Ok result, st1) => (Ok {| text := withSources E result; images := [] |}, st1)
    | (Err msg, st1) =>
        if JS.includes "abort" msg then (Err msg, st1)
        else if isLocationError msg then (Err msg, st1)
        else
          (addLog info "📝 No Google keys — using knowledge-based answer" ;;
           onResetContent ;;
           callFallbackSearch E messages config)%monad
            (logged st1 warn ("Google Search failed: " ++ JS.take 80 msg
                              ++ ", trying fallback..."))
    end.
Proof.
  intros Hq Hk. unfold callSearchMode. cbv zeta. rewrite Hq. cbn [negb].
  unfold bind at 1. rewrite addLog_run.
  destruct (googleKeys config) as [|k ks] eqn:Hkeys; [contradiction|].
  cbn [List.length Nat.eqb negb].
  unfold tryCatch. unfold bind at 1. unfold onResetContent. rewrite emit_run.
  fold (searching st). unfold bind at 1.
  destruct (callGeminiWithSearch E messages (k :: ks) (searchSystemPrompt E) (searching st))
    as [[result|msg] st1]; [reflexivity|].
  destruct (JS.includes "abort" msg); [reflexivity|].
  destruct (isLocationError msg); [reflexivity|].
  unfold bind at 1. rewrite addLog_run. reflexivity.
Qed.


End Cancellation.


(** The signal fires while the first key of the first candidate is being
    served: the key loop stops at its next check, auto mode passes the
    cancellation on, and nothing else is requested. *)
Example cancellation_through_auto_mode :
  let run := generateResponse (Demo.env Demo.busyNet (fun n => 1 <=? n)) Demo.hello
               "auto-gemini-flash" Demo.config Demo.st0 in
  fst run = Err "Request aborted"
  /\ map req_url (requests (trace (snd run))) = [geminiUrl "gemini-flash-latest" Demo.keyA].
Proof. vm_compute. split; reflexivity. Qed.

(* ================================================================== *)
(** ** Search mode: the block of sources *)
(* ================================================================== *)

Section Sources.

Variable E : Env.












End Sources.


(* ================================================================== *)
(** ** Further properties: line framing *)
(* ================================================================== *)

Lemma streamLines_tail (chunks : list string) (tail : string) :
  lacks JS.LF tail = true ->
  streamLines "" (chunks ++ [tail]) = streamLines "" chunks.
Proof.
  intros Ht. unfold streamLines. cbn [append].
  rewrite concat_app. cbn [String.concat]. rewrite split_app.
  assert (Hl : lacks JS.LF (last (JS.split JS.LF (String.concat "" chunks)) "" ++ tail) = true)
    by now rewrite lacks_app, last_split_lacks, Ht.
  rewrite (split_lacks _ _ Hl).
  now rewrite removelast_app, app_nil_r by discriminate.
Qed.

(** X1.  The decode loop of the stream readers does not depend on how the
    transport cuts the stream into chunks: two deliveries of the same text
    give the same result, the same callbacks and the same log. *)
Theorem X1_chunking_independence {A R : Type} (body : string -> A -> M (Flow A R))
    (chunks1 chunks2 : list string) (fin : option string) (acc : A) (st : State) :
  String.concat "" chunks1 = String.concat "" chunks2 ->
  readLoop body chunks1 fin "" acc st = readLoop body chunks2 fin "" acc st.
Proof.
  intros H. rewrite !readLoop_lines by reflexivity.
  unfold streamLines. now rewrite H.
Qed.

Lemma X1_chunking_independence_witness :
  readLoop (geminiLine (Demo.env Demo.brokenNet Demo.never))
    [("data: Thel" ++ JS.nl ++ "da")%string; ("ta: Tlo" ++ JS.nl)%string] None "" acc0 Demo.st0
  = readLoop (geminiLine (Demo.env Demo.brokenNet Demo.never))
      (Demo.sse ["Thel"; "Tlo"]) None "" acc0 Demo.st0.
Proof.
  apply X1_chunking_independence. reflexivity.
Defined.

(** X2.  What the stream carries after its last line feed is never
    decoded: a final fragment without a line feed changes nothing to the
    result, to the callbacks or to the log. *)
Theorem X2_unterminated_tail_dropped {A R : Type} (body : string -> A -> M (Flow A R))
    (chunks : list string) (tail : string) (fin : option string) (acc : A) (st : State) :
  lacks JS.LF tail = true ->
  readLoop body (chunks ++ [tail]) fin "" acc st = readLoop body chunks fin "" acc st.
Proof.
  intros H. rewrite !readLoop_lines by reflexivity.
  now rewrite (streamLines_tail _ _ H).
Qed.

Lemma X2_unterminated_tail_dropped_witness :
  readLoop (geminiLine (Demo.env Demo.brokenNet Demo.never))
    ([("data: Thel" ++ JS.nl)%string] ++ ["data: Tlost"]) None "" acc0 Demo.st0
  = readLoop (geminiLine (Demo.env Demo.brokenNet Demo.never))
      [("data: Thel" ++ JS.nl)%string] None "" acc0 Demo.st0.
Proof.
  apply X2_unterminated_tail_dropped. reflexivity.
Defined.

(* ================================================================== *)
(** ** Further properties: the retryable pattern *)
(* ================================================================== *)

Lemma canon_idempotent (a : ascii) : Regex.canon (Regex.canon a) = Regex.canon a.
Proof.
  destruct a as [[] [] [] [] [] [] [] []]; reflexivity.
Qed.

Lemma isLineTerminator_canon (a : ascii) :
  Regex.isLineTerminator (Regex.canon a) = Regex.isLineTerminator a.
Proof.
  destruct a as [[] [] [] [] [] [] [] []]; reflexivity.
Qed.

Lemma deriv_canon (a : ascii) (r : Regex.re) :
  Regex.deriv (Regex.canon a) r = Regex.deriv a r.
Proof.
  induction r; cbn [Regex.deriv]; try reflexivity.
  - now rewrite canon_idempotent.
  - now rewrite isLineTerminator_canon.
  - now rewrite IHr1, IHr2.
  - now rewrite IHr1, IHr2.
  - exact IHr.
Qed.

Lemma matchesPrefix_foldCase (s : string) :
  forall r, Regex.matchesPrefix r (foldCase s) = Regex.matchesPrefix r s.
Proof.
  induction s as [|a s IH]; intros r; [reflexivity|].
  cbn [foldCase Regex.matchesPrefix]. now rewrite deriv_canon, IH.
Qed.

Lemma test_foldCase (r : Regex.re) (s : string) :
  Regex.test r (foldCase s) = Regex.test r s.
Proof.
  induction s as [|a s IH]; [reflexivity|].
  change (foldCase (String a s)) with (String (Regex.canon a) (foldCase s)).
  cbn [Regex.test]. rewrite IH.
  change (String (Regex.canon a) (foldCase s)) with (foldCase (String a s)).
  now rewrite matchesPrefix_foldCase.
Qed.

(** X3.  The classification of an error message does not depend on the
    case of its ASCII letters: two messages that differ only there are
    both retryable or both fatal. *)
Theorem X3_retryable_ignores_case (s t : string) :
  foldCase s = foldCase t -> isRetryableError s = isRetryableError t.
Proof.
  intros H. unfold isRetryableError.
  now rewrite <- (test_foldCase _ s), <- (test_foldCase _ t), H.
Qed.

Lemma X3_retryable_ignores_case_witness :
  isRetryableError "Quota Exceeded for KEY" = isRetryableError "quota exceeded for key".
Proof.
  apply X3_retryable_ignores_case. reflexivity.
Defined.

Lemma test_app_l (r : Regex.re) (s t : string) :
  Regex.test r s = true -> Regex.test r (s ++ t) = true.
Proof.
  induction s as [|a s IH]; intros H.
  - cbn [Regex.test] in H. rewrite orb_false_r in H.
    apply RegexFacts.test_matchesPrefix.
    exact (RegexFacts.matchesPrefix_app r "" t H).
  - cbn [append]. cbn [Regex.test] in *. apply orb_true_iff in H as [H|H].
    + pose proof (RegexFacts.matchesPrefix_app r (String a s) t H) as Hp.
      cbn [append] in Hp. now rewrite Hp.
    + rewrite (IH H). apply orb_true_r.
Qed.

(** X4.  A message that contains a retryable message is retryable:
    prefixing it (as the HTTP errors do with the status) or extending it
    never turns a retryable failure into a fatal one. *)
Theorem X4_retryable_in_context (a s b : string) :
  isRetryableError s = true -> isRetryableError (a ++ s ++ b) = true.
Proof.
  intros H. unfold isRetryableError in *.
  now apply RegexFacts.test_app_r, test_app_l.
Qed.

Lemma X4_retryable_in_context_witness :
  isRetryableError ("HTTP 400: " ++ "The model is overloaded" ++ ". Try later.") = true.
Proof.
  apply X4_retryable_in_context. reflexivity.
Defined.

(* ================================================================== *)
(** ** Further properties: message conversion *)
(* ================================================================== *)

Lemma startsWith_decompose (p s : string) :
  JS.startsWith p s = true -> s = (p ++ JS.drop (String.length p) s)%string.
Proof.
  revert s. induction p as [|a p IH]; intros s H; [reflexivity|].
  destruct s as [|b s]; [discriminate|].
  cbn [JS.startsWith] in H. apply andb_true_iff in H as [Hab Hp].
  apply Ascii.eqb_eq in Hab. subst b.
  cbn [String.length JS.drop append]. now rewrite <- (IH s Hp).
Qed.

Lemma spanWord_decompose (s : string) :
  s = (fst (spanWord s) ++ snd (spanWord s))%string.
Proof.
  induction s as [|c s IH]; [reflexivity|].
  cbn [spanWord]. destruct (isWordChar c); [|reflexivity].
  destruct (spanWord s) as [w rest]. cbn [fst snd append] in *. now rewrite <- IH.
Qed.

(** A data URI that matches is its two groups put back together. *)
Lemma matchDataUri_rebuild (img mime d : string) :
  matchDataUri img = Some (mime, d) ->
  ("data:" ++ mime ++ ";base64," ++ d)%string = img.
Proof.
  unfold matchDataUri.
  destruct (JS.startsWith "data:image/" img) eqn:Hp; [|discriminate].
  pose proof (spanWord_decompose (JS.drop 11 img)) as Hw.
  destruct (spanWord (JS.drop 11 img)) as [w rest]. cbn [fst snd] in Hw.
  destruct (JS.truthy w && JS.startsWith ";base64," rest) eqn:Hb; [|discriminate].
  apply andb_true_iff in Hb as [_ Hb].
  destruct (JS.truthy (JS.drop 8 rest) && noLineTerminator (JS.drop 8 rest)); [|discriminate].
  intros H. assert (Hm : mime = ("image/" ++ w)%string) by congruence.
  assert (Hd : d = JS.drop 8 rest) by congruence. clear H.
  pose proof (startsWith_decompose _ _ Hb) as Hr.
  change (String.length ";base64,") with 8 in Hr. rewrite <- Hd in Hr.
  etransitivity; [|symmetry; exact (startsWith_decompose _ _ Hp)].
  change (String.length "data:image/") with 11. rewrite Hw, Hr, Hm.
  reflexivity.
Qed.

Lemma imageParts_app (images : list string) :
  forall parts,
    imageParts images parts = parts ++ imageParts images [].
Proof.
  induction images as [|img more IH]; intros parts; cbn [imageParts].
  - now rewrite app_nil_r.
  - destruct (matchDataUri img) as [[mime d]|]; [|apply IH].
    rewrite IH, (IH ([] ++ _)). cbn [app]. now rewrite <- app_assoc.
Qed.

Lemma partImages_app (l1 l2 : list Wire.Part) :
  partImages (l1 ++ l2) = partImages l1 ++ partImages l2.
Proof. unfold partImages. apply flat_map_app. Qed.

Lemma partTexts_app (l1 l2 : list Wire.Part) :
  partTexts (l1 ++ l2) = partTexts l1 ++ partTexts l2.
Proof. unfold partTexts. apply flat_map_app. Qed.

Lemma partImages_imageParts (images : list string) :
  partImages (imageParts images [])
  = filter (fun img => isSome (matchDataUri img)) images.
Proof.
  induction images as [|img more IH]; [reflexivity|].
  cbn [imageParts filter]. destruct (matchDataUri img) as [[mime d]|] eqn:Hm;
    cbn [isSome]; [|exact IH].
  rewrite imageParts_app, partImages_app, IH.
  change (partImages ([] ++ [inlinePart mime d]))
    with [("data:" ++ mime ++ ";base64," ++ d)%string].
  now rewrite (matchDataUri_rebuild _ _ _ Hm).
Qed.

Lemma partTexts_imageParts (images : list string) :
  partTexts (imageParts images []) = [].
Proof.
  induction images as [|img more IH]; [reflexivity|].
  cbn [imageParts]. destruct (matchDataUri img) as [[mime d]|]; [|exact IH].
  rewrite imageParts_app, partTexts_app, IH. reflexivity.
Qed.

(** X5.  Round trip of the inline images: the images the stream decoder
    rebuilds from the parts [toGeminiContents] sends for a message are
    exactly the images of the message that are well-formed base64 image
    data URIs, character for character and in order; the other
    attachments are left out of the request. *)
Theorem X5_inline_image_round_trip (msg : Chat.ChatMessage) :
  partImages (turnParts (toGeminiTurn msg))
  = filter (fun img => isSome (matchDataUri img)) (Chat.images msg).
Proof.
  unfold toGeminiTurn. cbn [turnParts].
  rewrite partImages_app, partImages_imageParts. cbn. apply app_nil_r.
Qed.

Example inline_image_kept :
  partImages (turnParts (toGeminiTurn Demo.withPictures)) = [Demo.picture].
Proof. reflexivity. Qed.

Lemma orElse_truthy (a b : string) : JS.truthy b = true -> JS.truthy (JS.orElse a b) = true.
Proof. intros H. unfold JS.orElse. destruct (JS.truthy a) eqn:Ha; assumption. Qed.

Lemma partTexts_turn (msg : Chat.ChatMessage) :
  partTexts (turnParts (toGeminiTurn msg)) = [JS.orElse (Chat.content msg) " "].
Proof.
  unfold toGeminiTurn. cbn [turnParts].
  rewrite partTexts_app, partTexts_imageParts. cbn [app].
  unfold partTexts, textPart. cbn [flat_map Wire.text JS.toBoolean JS.toString].
  now rewrite orElse_truthy.
Qed.

(** X6.  [toGeminiContents] sends one turn per message, in order; each
    turn carries exactly one text part, its last part, and that text is
    never empty: the content of the message, or a space when the message
    has no content. *)
Theorem X6_gemini_turns (messages : list Chat.ChatMessage) :
  List.length (toGeminiContents messages) = List.length messages
  /\ map (fun turn => partTexts (turnParts turn)) (toGeminiContents messages)
     = map (fun msg => [JS.orElse (Chat.content msg) " "]) messages
  /\ forall msg,
       In msg messages ->
       let turn := toGeminiTurn msg in
       In turn (toGeminiContents messages)
       /\ partTexts (turnParts turn) = [JS.orElse (Chat.content msg) " "]
       /\ last (turnParts turn) (textPart "") = textPart (JS.orElse (Chat.content msg) " ")
       /\ JS.truthy (JS.orElse (Chat.content msg) " ") = true.
Proof.
  split; [apply length_map|]. split.
  - unfold toGeminiContents. rewrite map_map. apply map_ext. apply partTexts_turn.
  - intros msg Hin turn. repeat split.
    + now apply in_map.
    + apply partTexts_turn.
    + unfold turn, toGeminiTurn. cbn [turnParts]. apply last_last.
    + now apply orElse_truthy.
Qed.

Lemma pushOpenAIMessages_map (messages : list Chat.ChatMessage) :
  forall result,
    pushOpenAIMessages messages result = result ++ map toOpenAIMessage messages.
Proof.
  induction messages as [|msg more IH]; intros result; cbn [pushOpenAIMessages map].
  - now rewrite app_nil_r.
  - now rewrite IH, <- app_assoc.
Qed.

Lemma blockUrls_map (l : list string) : blockUrls (map ImageUrlBlock l) = l.
Proof. induction l as [|u l IH]; [reflexivity|]. cbn. now f_equal. Qed.

Lemma imageUrls_map (messages : list Chat.ChatMessage) :
  imageUrls (map toOpenAIMessage messages)
  = flat_map (fun msg => match Chat.role msg with
                         | Chat.user => Chat.images msg
                         | Chat.assistant => []
                         end) messages.
Proof.
  induction messages as [|msg more IH]; [reflexivity|].
  change (imageUrls (map toOpenAIMessage (msg :: more)))
    with (match oaContent (toOpenAIMessage msg) with
          | Blocks bs => blockUrls bs
          | Plain _ => []
          end ++ imageUrls (map toOpenAIMessage more)).
  cbn [flat_map]. rewrite IH. f_equal.
  unfold toOpenAIMessage.
  destruct (Chat.role msg); [|reflexivity].
  destruct (Chat.images msg) as [|img imgs] eqn:Hi; [reflexivity|].
  cbn [oaContent]. exact (blockUrls_map (img :: imgs)).
Qed.

(** X7.  [toOpenAIMessages] sends the system prompt first, then one
    message per message of the conversation, in order; the image URLs it
    sends are exactly the attachments of the user messages: the images of
    an assistant message are never sent. *)
Theorem X7_openai_messages (messages : list Chat.ChatMessage) (systemPrompt : string) :
  toOpenAIMessages messages systemPrompt
  = {| oaRole := "system"; oaContent := Plain systemPrompt |}
    :: map toOpenAIMessage messages
  /\ List.length (toOpenAIMessages messages systemPrompt) = S (List.length messages)
  /\ imageUrls (toOpenAIMessages messages systemPrompt)
     = flat_map (fun msg => match Chat.role msg with
                            | Chat.user => Chat.images msg
                            | Chat.assistant => []
                            end) messages.
Proof.
  unfold toOpenAIMessages. rewrite pushOpenAIMessages_map. cbn [app].
  split; [reflexivity|]. split; [exact (f_equal S (length_map _ _))|].
  exact (imageUrls_map messages).
Qed.

Example openai_user_pictures :
  map oaContent (toOpenAIMessages [Demo.withPictures] "sys")
  = [ Plain "sys";
      Blocks [ TextBlock "Describe this image"; ImageUrlBlock Demo.picture;
               ImageUrlBlock "https://a.example/cat.png";
               ImageUrlBlock "data:image/svg+xml;base64,AA" ] ].
Proof. reflexivity. Qed.

(* ================================================================== *)
(** ** Further properties: prompt and model names *)
(* ================================================================== *)

Lemma includes_startsWith (p s : string) :
  JS.startsWith p s = true -> JS.includes p s = true.
Proof. intros H. destruct s; cbn [JS.includes]; now rewrite H. Qed.

Lemma includes_app_r (p a s : string) :
  JS.includes p s = true -> JS.includes p (a ++ s) = true.
Proof.
  intros H. induction a as [|c a IH]; [exact H|].
  cbn [append JS.includes]. rewrite IH. apply orb_true_r.
Qed.

Lemma includes_infix (p a b : string) : JS.includes p (a ++ p ++ b) = true.
Proof. apply includes_app_r, includes_startsWith, startsWith_app. Qed.

Lemma join_In (sep x : string) (l : list string) :
  In x l -> exists a b, JS.join sep l = (a ++ x ++ b)%string.
Proof.
  induction l as [|y l IH]; [contradiction|]. intros [->|Hin].
  - destruct l as [|z l].
    + exists "", "". cbn. now rewrite append_empty_r.
    + exists "", (sep ++ JS.join sep (z :: l))%string. reflexivity.
  - destruct (IH Hin) as (a & b & Hj). destruct l as [|z l]; [contradiction|].
    exists (y ++ sep ++ a)%string, b.
    change (JS.join sep (y :: z :: l)) with (y ++ sep ++ JS.join sep (z :: l))%string.
    now rewrite Hj, !append_assoc.
Qed.

(** X8.  [buildEffectiveSystemPrompt] never loses the configured prompt:
    the result ends with it, and is the configured prompt itself exactly
    when neither the date, nor the time, nor any memory is to be included.
    Every memory is part of the result, as a line [- memory]. *)
Theorem X8_effective_prompt (config : AppConfig) (options : PromptOptions)
    (today now : string) :
  (exists prefix,
     buildEffectiveSystemPrompt config options today now
     = (prefix ++ systemPrompt config)%string
     /\ (prefix = "" <->
         includeDate options = false /\ includeTime options = false
         /\ memories options = []))
  /\ forall m,
       In m (memories options) ->
       JS.includes ("- " ++ m) (buildEffectiveSystemPrompt config options today now) = true.
Proof.
  split.
  - unfold buildEffectiveSystemPrompt, contextParts.
    destruct (includeDate options), (includeTime options),
      (memories options) as [|m ms];
      cbn [List.length Nat.eqb negb app];
      try (eexists; split;
           [rewrite <- !append_assoc; reflexivity
           | split; [intros H; discriminate H | intros (H1 & H2 & H3); discriminate]]).
    exists "". split; [reflexivity|]. split; auto.
  - intros m Hin. unfold buildEffectiveSystemPrompt.
    assert (Hpart : exists part, In part (contextParts options today now)
                                 /\ JS.includes ("- " ++ m) part = true).
    { unfold contextParts. destruct (memories options) as [|m0 ms] eqn:Hm; [contradiction|].
      cbn [List.length Nat.eqb negb].
      eexists. split; [apply in_or_app; right; apply in_or_app; right; left; reflexivity|].
      destruct (join_In JS.nl ("- " ++ m)%string (map (fun m => "- " ++ m)%string (m0 :: ms)))
        as (a & b & Hj); [now apply (in_map (fun m => "- " ++ m)%string)|].
      rewrite Hj. do 2 apply includes_app_r. apply includes_infix. }
    destruct Hpart as (part & Hin' & Hinc).
    destruct (contextParts options today now) as [|p ps] eqn:Hparts; [contradiction|].
    cbn [List.length Nat.eqb negb].
    destruct (join_In JS.nl part (p :: ps) Hin') as (a & b & Hj).
    rewrite Hj, !append_assoc. apply includes_app_r.
    clear - Hinc. revert Hinc. generalize (b ++ JS.nl ++ JS.nl ++ systemPrompt config)%string.
    intros t. induction part as [|c part IH]; intros H.
    + destruct m; discriminate H.
    + cbn [append JS.includes] in *. apply orb_true_iff in H as [H|H].
      * assert (Hs : forall (p s u : string),
                  JS.startsWith p s = true -> JS.startsWith p (s ++ u) = true).
        { clear. induction p as [|x p IHp]; intros s u Hs; [reflexivity|].
          destruct s as [|y s]; [discriminate|]. cbn [append JS.startsWith] in *.
          apply andb_true_iff in Hs as [Hxy Hs]. now rewrite Hxy, (IHp _ _ Hs). }
        pose proof (Hs _ _ t H) as Hst. cbn [append] in Hst. now rewrite Hst.
      * rewrite (IH H). apply orb_true_r.
Qed.

Lemma lacks_drop (c : ascii) (n : nat) (s : string) :
  lacks c s = true -> lacks c (JS.drop n s) = true.
Proof.
  revert s. induction n as [|n IH]; intros s H; [exact H|].
  destruct s as [|x s]; [reflexivity|]. cbn [JS.drop lacks] in *.
  apply andb_true_iff in H as [_ H]. now apply IH.
Qed.

Lemma removeFirst_lacks (c : ascii) (p s : string) :
  lacks c s = true -> lacks c (removeFirst p s) = true.
Proof.
  induction s as [|x s IH]; intros H; cbn [removeFirst].
  - destruct (JS.startsWith p ""); [now apply lacks_drop | reflexivity].
  - destruct (JS.startsWith p (String x s)); [now apply lacks_drop|].
    cbn [lacks] in *. apply andb_true_iff in H as [Hx Hs]. now rewrite Hx, IH.
Qed.

Lemma split_lacks_cons (c : ascii) (w s : string) :
  lacks c w = true -> JS.split c (w ++ String c s) = w :: JS.split c s.
Proof.
  induction w as [|x w IH]; cbn [lacks append JS.split]; intros H.
  - now rewrite Ascii.eqb_refl.
  - apply andb_true_iff in H as [Hx Hw]. apply negb_true_iff in Hx.
    now rewrite Hx, (IH Hw).
Qed.

(** What follows the last separator is the last piece. *)
Lemma last_split_cons (c : ascii) (a name : string) :
  lacks c name = true -> last (JS.split c (a ++ String c name)) "" = name.
Proof.
  intros Hname. rewrite split_app.
  rewrite (split_lacks_cons c _ name (last_split_lacks c a)), (split_lacks c name Hname).
  change (last (JS.split c a) "" :: [name]) with ([last (JS.split c a) ""] ++ [name]).
  rewrite app_assoc. apply last_last.
Qed.

Lemma includes_lacks (c : ascii) (s : string) :
  JS.includes (String c "") s = negb (lacks c s).
Proof.
  induction s as [|x s IH]; [reflexivity|].
  cbn [JS.includes JS.startsWith lacks]. rewrite IH, andb_true_r, negb_andb, negb_involutive.
  now rewrite Ascii.eqb_sym.
Qed.

(** The short name of an identifier with a slash: what follows the last
    slash without its first [:free], or the identifier when nothing is
    left of it. *)
Lemma getModelShortName_slash (vendor name : string) :
  lacks "/" name = true ->
  getModelShortName (vendor ++ "/" ++ name)
  = JS.orElse (removeFirst ":free" name) (vendor ++ "/" ++ name).
Proof.
  intros Hname.
  assert (Hslash : lacks "/" (vendor ++ "/" ++ name) = false).
  { rewrite lacks_app. cbn [append lacks Ascii.eqb Bool.eqb negb andb]. apply andb_false_r. }
  unfold getModelShortName.
  repeat match goal with
         | |- context [if String.eqb ?m ?k then _ else _] =>
             destruct (String.eqb_spec m k) as [Heq|_];
               [rewrite Heq in Hslash; discriminate Hslash|]
         end.
  rewrite (includes_lacks "/"), Hslash. cbn [negb].
  change (vendor ++ "/" ++ name)%string with (vendor ++ String "/" name)%string.
  now rewrite (last_split_cons "/" vendor name Hname).
Qed.

(** X9.  The short name of a model carries a slash only when it is the
    whole identifier, and then what follows the last slash of the
    identifier is empty or [:free].  For [vendor/name] with a name that is
    not empty once its first [:free] is removed, the short name is that
    name, without slash; for [vendor/] and [vendor/:free] it is the whole
    identifier, vendor included. *)
Theorem X9_short_name_slash (model : string) :
  (lacks "/" (getModelShortName model) = true
   \/ (getModelShortName model = model
       /\ removeFirst ":free" (last (JS.split "/" model) "") = ""))
  /\ (forall vendor name,
        model = (vendor ++ "/" ++ name)%string ->
        lacks "/" name = true ->
        removeFirst ":free" name <> "" ->
        getModelShortName model = removeFirst ":free" name
        /\ lacks "/" (getModelShortName model) = true)
  /\ (forall vendor,
        (model = (vendor ++ "/")%string \/ model = (vendor ++ "/:free")%string) ->
        getModelShortName model = model).
Proof.
  split; [|split].
  - unfold getModelShortName.
    repeat match goal with
           | |- context [if String.eqb model ?k then _ else _] =>
               destruct (String.eqb model k); [left; reflexivity|]
           end.
    destruct (JS.includes "/" model) eqn:Hinc.
    + unfold JS.orElse.
      destruct (removeFirst ":free" (last (JS.split "/" model) "")) as [|c t] eqn:Htail.
      * right. split; reflexivity.
      * left. cbn [JS.truthy]. rewrite <- Htail.
        apply removeFirst_lacks, last_split_lacks.
    + left. rewrite (includes_lacks "/") in Hinc. now apply negb_false_iff in Hinc.
  - intros vendor name -> Hname Hne.
    rewrite (getModelShortName_slash vendor name Hname). unfold JS.orElse.
    destruct (removeFirst ":free" name) as [|c t] eqn:Htail; [contradiction|].
    cbn [JS.truthy]. split; [reflexivity|].
    rewrite <- Htail. now apply removeFirst_lacks.
  - intros vendor [-> | ->].
    + change (vendor ++ "/")%string with (vendor ++ "/" ++ "")%string.
      now rewrite (getModelShortName_slash vendor "" eq_refl).
    + change (vendor ++ "/:free")%string with (vendor ++ "/" ++ ":free")%string.
      now rewrite (getModelShortName_slash vendor ":free" eq_refl).
Qed.

Example short_name_shows_vendor :
  getModelShortName "vendor/" = "vendor/"
  /\ getModelShortName "vendor/:free" = "vendor/:free"
  /\ getModelShortName "vendor/model:free" = "model".
Proof. repeat split. Qed.

Lemma startsWith_gemini_not_samba (model : string) :
  JS.startsWith "gemini" model = true ->
  JS.startsWith "DeepSeek-" model || JS.startsWith "gpt-oss-" model = false.
Proof.
  intros H. rewrite (startsWith_decompose _ _ H). reflexivity.
Qed.

(** X10.  The dot colour agrees with the provider predicates: a model is
    shown orange exactly when [isSambaModel] holds of it, and in one of
    the four Google colours exactly when [isGoogleModel] holds of it;
    every other identifier is shown emerald. *)
Theorem X10_dot_colour_tells_provider (model : string) :
  (isSambaModel model = true <-> getModelDotColor model = "bg-orange-400")
  /\ (isGoogleModel model = true <->
      In (getModelDotColor model)
         ["bg-amber-400"; "bg-violet-400"; "bg-cyan-400"; "bg-blue-400"])
  /\ (isSambaModel model = false -> isGoogleModel model = false ->
      getModelDotColor model = "bg-emerald-400").
Proof.
  assert (Hdec : forall k, String.eqb model k = true -> model = k)
    by (intros k; apply String.eqb_eq).
  unfold getModelDotColor.
  destruct (String.eqb model "auto-gemini-flash") eqn:H1;
    [rewrite (Hdec _ H1); vm_compute; intuition (try discriminate; auto)|].
  destruct (String.eqb model "auto-gemini-pro") eqn:H2;
    [rewrite (Hdec _ H2); vm_compute; intuition (try discriminate; auto)|].
  destruct (String.eqb model "auto-openrouter") eqn:H3;
    [rewrite (Hdec _ H3); vm_compute; intuition (try discriminate; auto)|].
  destruct (String.eqb model "auto-samba") eqn:H4;
    [rewrite (Hdec _ H4); vm_compute; intuition (try discriminate; auto)|].
  destruct (String.eqb model "auto-search") eqn:H5;
    [rewrite (Hdec _ H5); vm_compute; intuition (try discriminate; auto)|].
  rewrite String.eqb_sym in H1, H2, H3, H4, H5.
  unfold isGoogleModel, isSambaModel, isAutoMode, AUTO_MODES_get, AUTO_MODES.
  cbn [ownProperty]. rewrite H1, H2, H3, H4, H5.
  assert (Hfin : forall (sm gm : bool) (colour : string),
            (sm = true -> colour = "bg-orange-400") ->
            (gm = true -> colour = "bg-blue-400") ->
            (sm = false -> gm = false -> colour = "bg-emerald-400") ->
            (sm = true -> gm = false) ->
            (sm = true <-> colour = "bg-orange-400")
            /\ (gm = true <->
                In colour ["bg-amber-400"; "bg-violet-400"; "bg-cyan-400"; "bg-blue-400"])
            /\ (sm = false -> gm = false -> colour = "bg-emerald-400")).
  { intros sm gm colour Ho Hb He Hx. destruct sm, gm.
    - specialize (Hx eq_refl). discriminate Hx.
    - rewrite (Ho eq_refl).
      repeat split; intros; try congruence; cbn [In] in *; intuition congruence.
    - rewrite (Hb eq_refl).
      repeat split; intros; try congruence; cbn [In] in *; intuition congruence.
    - rewrite (He eq_refl eq_refl).
      repeat split; intros; try congruence; cbn [In] in *; intuition congruence. }
  destruct (existsb (String.eqb model) ObjectPrototype).
  - apply Hfin; intros; try congruence; reflexivity.
  - destruct (JS.startsWith "gemini" model) eqn:Hg.
    + rewrite (startsWith_gemini_not_samba _ Hg).
      apply Hfin; intros; try congruence; reflexivity.
    + destruct (JS.startsWith "DeepSeek-" model || JS.startsWith "gpt-oss-" model);
        apply Hfin; intros; try congruence; reflexivity.
Qed.

(* ================================================================== *)
(** ** Further properties: the Gemini caller *)
(* ================================================================== *)

Lemma shownFrom_app (a b : list Event) :
  forall cur, shownFrom (a ++ b) cur = shownFrom b (shownFrom a cur).
Proof.
  induction a as [|e a IH]; intros cur; [reflexivity|].
  destruct e; cbn [app shownFrom]; apply IH.
Qed.

Lemma shownFrom_chunks (l : list string) :
  forall cur, shownFrom (map EvChunk l) cur = (cur ++ String.concat "" l)%string.
Proof.
  induction l as [|t l IH]; intros cur.
  - cbn. now rewrite append_empty_r.
  - cbn [map shownFrom]. rewrite IH, concat_cons. now rewrite append_assoc.
Qed.

Section GeminiMore.

Variable E : Env.
Variables (messages : list Chat.ChatMessage) (model systemPrompt : string).

Lemma lines_clean_or_fault (lines : list string) :
  Forall (fun x => lineFault E x = None) lines
  \/ exists pre l post msg,
       lines = pre ++ l :: post
       /\ Forall (fun x => lineFault E x = None) pre
       /\ lineFault E l = Some msg.
Proof.
  induction lines as [|l lines IH]; [left; constructor|].
  destruct (lineFault E l) as [msg|] eqn:Hl.
  - right. exists [], l, lines, msg. repeat split; [constructor | exact Hl].
  - destruct IH as [IH | (pre & l' & post & msg & -> & Hpre & Hl')].
    + left. now constructor.
    + right. exists (l :: pre), l', post, msg. repeat split; [now constructor | exact Hl'].
Qed.

(** What one attempt does with a stream that carries no error record. *)
Lemma geminiAttempt_clean (key : string) (i n : nat) (st : State)
    (s : nat) (chunks : list string) (fin : option string) :
  net E (fetched st) (geminiRequest messages model systemPrompt key)
    = Responds s chunks fin ->
  (200 <=? s) && (s <=? 299) = true ->
  Forall (fun x => lineFault E x = None) (streamLines "" chunks) ->
  let texts := flat_map (lineTexts E) (streamLines "" chunks) in
  let pictures := flat_map (lineImages E) (streamLines "" chunks) in
  let st1 := emitted (opened st messages model systemPrompt key i n) (map EvChunk texts) in
  geminiAttempt E messages model systemPrompt key i n st =
  match fin with
  | Some m => (Err m, st1)
  | None =>
      if isNil texts && isNil pictures then (Err "Empty response from model", st1)
      else (Ok {| text := String.concat "" texts; images := pictures |},
            served st1 key texts pictures)
  end.
Proof.
  intros Hnet Hok Hclean texts pictures st1.
  rewrite (geminiAttempt_stream E messages model systemPrompt key i n st _ _ _ Hnet Hok).
  rewrite readLoop_lines by reflexivity.
  rewrite (forLines_clean E _ Hclean). fold texts pictures st1.
  destruct fin as [m|]; [reflexivity|].
  unfold absorb, acc0, replyOf, served. cbn [gotContent fullText imgs orb app append].
  destruct texts as [|t ts], pictures as [|p ps]; reflexivity.
Qed.

(** X11.  A key whose stream carries no error record, ends normally and
    brings some text or image succeeds: the reply holds the concatenation
    of all the text deltas and all the images, in stream order; the content
    is reset once, before the first delta, and every delta is forwarded
    once, in order.  No other key is used. *)
Theorem X11_gemini_success (n i : nat) (key : string) (rest : list string)
    (st : State) (s : nat) (chunks : list string) :
  aborted E (fetched st) = false ->
  net E (fetched st) (geminiRequest messages model systemPrompt key)
    = Responds s chunks None ->
  (200 <=? s) && (s <=? 299) = true ->
  Forall (fun x => lineFault E x = None) (streamLines "" chunks) ->
  let texts := flat_map (lineTexts E) (streamLines "" chunks) in
  let pictures := flat_map (lineImages E) (streamLines "" chunks) in
  texts <> [] \/ pictures <> [] ->
  geminiKeys E messages model systemPrompt n i (key :: rest) st
  = (Ok {| text := String.concat "" texts; images := pictures |},
     served (emitted (opened st messages model systemPrompt key i n) (map EvChunk texts))
       key texts pictures).
Proof.
  intros Hab Hnet Hok Hclean texts pictures Hsome.
  rewrite (geminiKeys_step E messages model systemPrompt n i key rest st Hab).
  pose proof (geminiAttempt_clean key i n st s chunks None Hnet Hok Hclean) as Hatt.
  cbv zeta in Hatt. fold texts pictures in Hatt.
  assert (Hnil : isNil texts && isNil pictures = false).
  { destruct Hsome as [H|H]; [destruct texts | destruct pictures];
      try contradiction; cbn; [reflexivity | apply andb_false_r]. }
  rewrite Hnil in Hatt. now rewrite (tryCatch_ok _ _ _ _ _ Hatt).
Qed.

(** X12.  When the attempts on the first shuffled keys fail with
    retryable errors and the next key succeeds, the call returns the reply
    of that key, and its requests were those of these keys, one each and in
    order: the keys after it are never used. *)
Theorem X12_rotation_reaches_working_key (keys pre post : list string) (key : string)
    (st st1 st2 : State) (reply : Reply) :
  keys <> [] ->
  shuffle E (fetched st) keys = pre ++ key :: post ->
  let n := List.length (pre ++ key :: post) in
  RetryRun E messages model systemPrompt n 0 pre (announced st model n) st1 ->
  aborted E (fetched st1) = false ->
  geminiAttempt E messages model systemPrompt key (List.length pre) n st1 = (Ok reply, st2) ->
  callGeminiStreaming E messages model keys systemPrompt st = (Ok reply, st2)
  /\ requests (trace st2)
     = requests (trace st)
       ++ map (geminiRequest messages model systemPrompt) (pre ++ [key]).
Proof.
  intros Hne Hsh n Hrun Hab Hatt.
  rewrite (callGeminiStreaming_keys E messages model systemPrompt keys st Hne), Hsh. fold n.
  destruct (RetryRun_keys E messages model systemPrompt n pre 0 _ _ Hrun)
    as (_ & Hreqs & Hgo).
  rewrite Hgo. cbn [Nat.add].
  rewrite (geminiKeys_step E messages model systemPrompt n _ key post st1 Hab).
  rewrite (tryCatch_ok _ _ _ _ _ Hatt). split; [reflexivity|].
  pose proof (geminiAttempt_one_request E messages model systemPrompt key
                (List.length pre) n st1) as Hone.
  rewrite Hatt in Hone. cbn [snd] in Hone. destruct Hone as [_ Hr].
  unfold announced, logged, emitted in Hreqs. cbn [trace] in Hreqs.
  rewrite requests_app in Hreqs. cbn [requests] in Hreqs. rewrite app_nil_r in Hreqs.
  rewrite Hr, Hreqs, map_app. cbn [map]. now rewrite <- app_assoc.
Qed.

(** X13.  When the attempts on all the shuffled keys fail with retryable
    errors, the call fails with [All N keys failed for <model>.], N being
    the number of keys, after one request per key in shuffled order. *)
Theorem X13_all_keys_exhausted (keys : list string) (st st1 : State) :
  keys <> [] ->
  let ks := shuffle E (fetched st) keys in
  let n := List.length ks in
  RetryRun E messages model systemPrompt n 0 ks (announced st model n) st1 ->
  callGeminiStreaming E messages model keys systemPrompt st
  = (Err (exhaustedMessage n model),
     logged st1 error ("All " ++ JS.ofNat n ++ " keys exhausted for " ++ model))
  /\ requests (trace st1)
     = requests (trace st) ++ map (geminiRequest messages model systemPrompt) ks.
Proof.
  intros Hne ks n Hrun.
  rewrite (callGeminiStreaming_keys E messages model systemPrompt keys st Hne).
  fold ks. fold n.
  destruct (RetryRun_keys E messages model systemPrompt n ks 0 _ _ Hrun)
    as (_ & Hreqs & Hgo).
  specialize (Hgo []). rewrite app_nil_r in Hgo. rewrite Hgo.
  split; [reflexivity|].
  unfold announced, logged, emitted in Hreqs. cbn [trace] in Hreqs.
  rewrite requests_app in Hreqs. cbn [requests] in Hreqs. now rewrite app_nil_r in Hreqs.
Qed.

Lemma shown_served (st : State) (key : string) (i n : nat) (texts pictures : list string) :
  shown (trace (served (emitted (opened st messages model systemPrompt key i n)
                          (map EvChunk texts)) key texts pictures))
  = String.concat "" texts.
Proof.
  unfold shown, served, opened, requested, logged, emitted. cbn [trace].
  rewrite !shownFrom_app. cbn [shownFrom]. now rewrite shownFrom_chunks.
Qed.

Lemma geminiAttempt_shown (key : string) (i n : nat) (st st' : State) (reply : Reply) :
  geminiAttempt E messages model systemPrompt key i n st = (Ok reply, st') ->
  shown (trace st') = text reply.
Proof.
  destruct (net E (fetched st) (geminiRequest messages model systemPrompt key))
    as [m|s chunks fin] eqn:Hnet.
  - unfold geminiAttempt. cbv zeta. unfold bind at 1. rewrite addLog_run.
    unfold bind at 1. unfold fetch.
    change (fetched (logged st info _)) with (fetched st). rewrite Hnet. discriminate.
  - destruct ((200 <=? s) && (s <=? 299)) eqn:Hok.
    + destruct (lines_clean_or_fault (streamLines "" chunks))
        as [Hclean | (pre & l & post & msg & Hlines & Hpre & Hl)].
      * rewrite (geminiAttempt_clean key i n st s chunks fin Hnet Hok Hclean).
        destruct fin; [discriminate|].
        destruct (isNil _ && isNil _); [discriminate|].
        intros H. injection H as <- <-. apply shown_served.
      * rewrite (geminiAttempt_interrupted E messages model systemPrompt key i n st
                   s chunks fin pre post l msg Hnet Hok Hlines Hpre Hl).
        destruct (isNil _ && isNil _); [discriminate|].
        intros H. injection H as <- <-.
        unfold shown, opened, requested, logged, emitted. cbn [trace].
        rewrite !shownFrom_app. cbn [shownFrom]. now rewrite shownFrom_chunks.
    + unfold geminiAttempt. cbv zeta. unfold bind at 1. rewrite addLog_run.
      unfold bind at 1. unfold fetch.
      change (fetched (logged st info _)) with (fetched st). rewrite Hnet.
      unfold bind at 1. unfold ok. cbn [status]. rewrite Hok. cbn [negb].
      unfold bind at 1. unfold responseText. cbn [ending body].
      destruct fin; discriminate.
Qed.

Lemma geminiKeys_shown (n : nat) (ks : list string) :
  forall i st st' reply,
    geminiKeys E messages model systemPrompt n i ks st = (Ok reply, st') ->
    shown (trace st') = text reply.
Proof.
  induction ks as [|key rest IH]; intros i st st' reply.
  - cbn [geminiKeys]. unfold bind. rewrite addLog_run. discriminate.
  - destruct (aborted E (fetched st)) eqn:Hab.
    + rewrite (geminiKeys_aborted E messages model systemPrompt n i key rest st Hab).
      discriminate.
    + rewrite (geminiKeys_step E messages model systemPrompt n i key rest st Hab).
      unfold tryCatch.
      destruct (geminiAttempt E messages model systemPrompt key i n st)
        as [[r|msg] s1] eqn:Hatt.
      * intros H. injection H as <- <-. exact (geminiAttempt_shown _ _ _ _ _ _ Hatt).
      * unfold geminiOnError.
        destruct (JS.includes "abort" msg); [discriminate|].
        unfold bind at 1. rewrite addLog_run.
        destruct (negb (isRetryableError msg)); [discriminate|]. apply IH.
Qed.

Lemma callGeminiStreaming_shown (keys : list string) (st st' : State) (reply : Reply) :
  callGeminiStreaming E messages model keys systemPrompt st = (Ok reply, st') ->
  shown (trace st') = text reply.
Proof.
  unfold callGeminiStreaming.
  destruct (List.length keys =? 0); [discriminate|].
  unfold bind at 1. unfold shuffled. unfold bind at 1. rewrite addLog_run.
  apply geminiKeys_shown.
Qed.

(** X14.  Whenever [callGeminiStreaming] returns a reply, its text is
    exactly what the callbacks have left on display: the chunks forwarded
    since the last reset, whatever earlier keys had forwarded before they
    failed. *)
Theorem X14_gemini_display_is_reply (keys : list string) (st st' : State) (reply : Reply) :
  callGeminiStreaming E messages model keys systemPrompt st = (Ok reply, st') ->
  shown (trace st') = text reply.
Proof. apply callGeminiStreaming_shown. Qed.

End GeminiMore.

Lemma X11_gemini_success_witness :
  fst (geminiKeys (Demo.env Demo.servedNet Demo.never) Demo.hello Demo.flash "sys" 2 0
         [Demo.keyA; Demo.keyB] Demo.st0)
  = Ok {| text := "answer"; images := [] |}.
Proof.
  rewrite (X11_gemini_success (Demo.env Demo.servedNet Demo.never) Demo.hello Demo.flash
             "sys" 2 0 Demo.keyA [Demo.keyB] Demo.st0 200
             (Demo.sse ["Tan"; "oops"; "Tswer"; "[DONE]"])
             eq_refl eq_refl eq_refl).
  - reflexivity.
  - vm_compute. repeat constructor.
  - left. discriminate.
Defined.

Lemma X12_rotation_reaches_working_key_witness :
  let run := callGeminiStreaming (Demo.env Demo.busyThenServedNet Demo.never) Demo.hello
               Demo.flash [Demo.keyA; Demo.keyB; Demo.keyC] "sys" Demo.st0 in
  fst run = Ok {| text := "hello"; images := [] |}
  /\ requests (trace (snd run))
     = [geminiRequest Demo.hello Demo.flash "sys" Demo.keyA;
        geminiRequest Demo.hello Demo.flash "sys" Demo.keyB].
Proof.
  cbv zeta.
  edestruct (X12_rotation_reaches_working_key (Demo.env Demo.busyThenServedNet Demo.never)
               Demo.hello Demo.flash "sys" [Demo.keyA; Demo.keyB; Demo.keyC]
               [Demo.keyA] [Demo.keyC] Demo.keyB Demo.st0) as [Hrun Hreqs].
  - discriminate.
  - reflexivity.
  - eapply RetryRun_cons; [reflexivity | vm_compute; reflexivity | reflexivity
                           | reflexivity | apply RetryRun_nil].
  - reflexivity.
  - vm_compute. reflexivity.
  - rewrite Hrun. cbn [fst snd]. split; [reflexivity | exact Hreqs].
Defined.

Lemma X13_all_keys_exhausted_witness :
  let run := callGeminiStreaming (Demo.env Demo.busyNet Demo.never) Demo.hello
               Demo.flash [Demo.keyA; Demo.keyB] "sys" Demo.st0 in
  fst run = Err "All 2 keys failed for gemini-2.0-flash."
  /\ List.length (requests (trace (snd run))) = 2.
Proof.
  cbv zeta.
  edestruct (X13_all_keys_exhausted (Demo.env Demo.busyNet Demo.never)
               Demo.hello Demo.flash "sys" [Demo.keyA; Demo.keyB] Demo.st0) as [Hrun Hreqs].
  - discriminate.
  - eapply RetryRun_cons; [reflexivity | vm_compute; reflexivity | reflexivity
                           | reflexivity |].
    eapply RetryRun_cons; [reflexivity | vm_compute; reflexivity | reflexivity
                           | reflexivity | apply RetryRun_nil].
  - rewrite Hrun. cbn [fst snd]. split; [reflexivity|].
    unfold logged, emitted. cbn [trace]. rewrite requests_app, Hreqs. reflexivity.
Defined.

Lemma X14_gemini_display_is_reply_witness :
  shown (trace (snd (callGeminiStreaming (Demo.env Demo.busyThenServedNet Demo.never)
                       Demo.hello Demo.flash [Demo.keyA; Demo.keyB] "sys" Demo.st0)))
  = "hello".
Proof.
  eapply (X14_gemini_display_is_reply (Demo.env Demo.busyThenServedNet Demo.never)
            Demo.hello Demo.flash "sys" [Demo.keyA; Demo.keyB] Demo.st0 _
            {| text := "hello"; images := [] |}).
  vm_compute. reflexivity.
Defined.

(* ================================================================== *)
(** ** Further properties: the OpenAI-compatible callers *)
(* ================================================================== *)

Lemma requests_emitted (st : State) (evs : list Event) :
  requests (trace (emitted st evs)) = requests (trace st) ++ requests evs.
Proof. unfold emitted. cbn [trace]. apply requests_app. Qed.

Lemma requests_logged (st : State) (l : Level) (msg : string) :
  requests (trace (logged st l msg)) = requests (trace st).
Proof. unfold logged. rewrite requests_emitted. apply app_nil_r. Qed.

Section OpenAIMore.

Variable E : Env.

Lemma openaiLine_run (line fullText : string) (st : State) :
  openaiLine E line fullText st
  = (Ok (Next (fullText ++ String.concat "" (openaiDelta E line))%string),
     emitted st (map EvChunk (openaiDelta E line))).
Proof.
  unfold openaiLine, openaiDelta.
  destruct (JS.startsWith "data: " line && negb (String.eqb line "data: [DONE]"));
    [|cbn; now rewrite append_empty_r, emitted_nil].
  destruct (parseOpenAI E (JS.drop 6 line)) as [data|];
    [|cbn; now rewrite append_empty_r, emitted_nil].
  destruct (Wire.deltaContent data) as [chunk|];
    [|cbn; now rewrite append_empty_r, emitted_nil].
  destruct (JS.toBoolean chunk); [reflexivity|].
  cbn. now rewrite append_empty_r, emitted_nil.
Qed.

Lemma forLines_openai (lines : list string) :
  forall fullText st,
    forLines (openaiLine E) lines fullText st
    = (Ok (Next (fullText ++ String.concat "" (flat_map (openaiDelta E) lines))%string),
       emitted st (map EvChunk (flat_map (openaiDelta E) lines))).
Proof.
  induction lines as [|l lines IH]; intros fullText st.
  - cbn. now rewrite append_empty_r, emitted_nil.
  - cbn [forLines flat_map]. unfold bind. rewrite openaiLine_run, IH.
    now rewrite emitted_emitted, map_app, concat_app, append_assoc.
Qed.

(** What an OpenAI-style call does, by what the network answers. *)
Lemma openaiCall_run (name tag endpoint : string) (messages : list Chat.ChatMessage)
    (model apiKey systemPrompt : string) (st : State) :
  let req := openaiRequest endpoint messages model apiKey systemPrompt in
  let st1 := asked st name tag req in
  openaiCall E name tag endpoint messages model apiKey systemPrompt st =
  match net E (fetched st) req with
  | Rejects m => (Err m, st1)
  | Responds s chunks fin =>
      if (200 <=? s) && (s <=? 299) then
        let deltas := flat_map (openaiDelta E) (streamLines "" chunks) in
        match fin with
        | None => (Ok {| text := String.concat "" deltas; images := [] |},
                   completed st name tag req deltas)
        | Some m => (Err m, emitted st1 (map EvChunk deltas))
        end
      else
        match fin with
        | None => (Err (name ++ " " ++ JS.ofNat s ++ ": "
                        ++ JS.take 200 (String.concat "" chunks))%string, st1)
        | Some m => (Err m, st1)
        end
  end.
Proof.
  cbv zeta. unfold openaiCall. unfold bind at 1. rewrite addLog_run.
  unfold bind at 1. unfold fetch.
  change (fetched (logged st info _)) with (fetched st).
  destruct (net E (fetched st) _) as [m|s chunks fin]; [reflexivity|].
  unfold bind at 1. unfold ok. cbn [status].
  destruct ((200 <=? s) && (s <=? 299)); cbn [negb].
  - cbn [ret]. unfold bind at 1. cbn [body ending].
    rewrite readLoop_lines by reflexivity. rewrite forLines_openai.
    destruct fin; [reflexivity|].
    unfold bind. rewrite addLog_run. reflexivity.
  - unfold bind at 1. unfold responseText. cbn [ending body].
    destruct fin; reflexivity.
Qed.

(** X15.  With a credential, and a response with a success status whose
    stream ends normally, [callOpenRouter] and [callSambaNovaStreaming]
    succeed: the text is the concatenation of the deltas of the lines that
    decode, each forwarded once and in order; lines that do not decode and
    the [[DONE]] line are skipped.  This holds of a stream without any
    delta as well: the reply is then the empty text, not a failure. *)
Theorem X15_openai_success (messages : list Chat.ChatMessage)
    (model apiKey systemPrompt : string) (st : State) (s : nat) (chunks : list string) :
  JS.truthy apiKey = true ->
  (forall req, net E (fetched st) req = Responds s chunks None) ->
  (200 <=? s) && (s <=? 299) = true ->
  let deltas := flat_map (openaiDelta E) (streamLines "" chunks) in
  callOpenRouter E messages model apiKey systemPrompt st
  = (Ok {| text := String.concat "" deltas; images := [] |},
     completed st "OpenRouter" (getModelShortName model)
       (openaiRequest "https://openrouter.ai/api/v1/chat/completions"
          messages model apiKey systemPrompt) deltas)
  /\ callSambaNovaStreaming E messages model apiKey systemPrompt st
     = (Ok {| text := String.concat "" deltas; images := [] |},
        completed st "SambaNova" model
          (openaiRequest (SAMBA_BASE_URL ++ "/chat/completions")
             messages model apiKey systemPrompt) deltas).
Proof.
  intros Hkey Hnet Hok deltas.
  unfold callOpenRouter, callSambaNovaStreaming. rewrite Hkey. cbn [negb].
  rewrite !openaiCall_run. cbv zeta. rewrite !Hnet, Hok. split; reflexivity.
Qed.

Lemma openaiCall_shown (name tag endpoint : string) (messages : list Chat.ChatMessage)
    (model apiKey systemPrompt : string) (st st' : State) (reply : Reply) :
  openaiCall E name tag endpoint messages model apiKey systemPrompt st = (Ok reply, st') ->
  shown (trace st') = (shown (trace st) ++ text reply)%string.
Proof.
  rewrite openaiCall_run. cbv zeta.
  destruct (net E (fetched st) _) as [m|s chunks fin]; [discriminate|].
  destruct ((200 <=? s) && (s <=? 299)); [|destruct fin; discriminate].
  destruct fin; [discriminate|].
  intros H. injection H as <- <-.
  unfold shown, completed, asked, requested, logged, emitted. cbn [trace text].
  rewrite !shownFrom_app. cbn [shownFrom]. now rewrite shownFrom_chunks.
Qed.

(** X16.  Whenever [callOpenRouter] or [callSambaNovaStreaming] returns a
    reply, the text on display has grown by exactly the text of the reply:
    these callers forward their deltas and never reset the content. *)
Theorem X16_openai_display_grows_by_reply (messages : list Chat.ChatMessage)
    (model apiKey systemPrompt : string) (st st' : State) (reply : Reply) :
  callOpenRouter E messages model apiKey systemPrompt st = (Ok reply, st')
  \/ callSambaNovaStreaming E messages model apiKey systemPrompt st = (Ok reply, st') ->
  shown (trace st') = (shown (trace st) ++ text reply)%string.
Proof.
  unfold callOpenRouter, callSambaNovaStreaming.
  destruct (negb (JS.truthy apiKey)); intros [H|H]; try discriminate H;
    exact (openaiCall_shown _ _ _ _ _ _ _ _ _ _ H).
Qed.

End OpenAIMore.

Lemma X15_openai_success_witness :
  fst (callOpenRouter (Demo.env Demo.servedNet Demo.never) Demo.hello "vendor/model:free"
         "or-key" "sys" Demo.st0)
  = Ok {| text := "answer"; images := [] |}.
Proof.
  destruct (X15_openai_success (Demo.env Demo.servedNet Demo.never) Demo.hello
              "vendor/model:free" "or-key" "sys" Demo.st0 200
              (Demo.sse ["Tan"; "oops"; "Tswer"; "[DONE]"])
              eq_refl (fun _ => eq_refl) eq_refl) as [H _].
  rewrite H. reflexivity.
Defined.

(** A stream without any delta is a success for these callers. *)
Example openai_empty_stream_succeeds :
  fst (callSambaNovaStreaming (Demo.env Demo.silentNet Demo.never) Demo.hello
         "DeepSeek-V3.1" "samba-key" "sys" Demo.st0)
  = Ok {| text := ""; images := [] |}.
Proof. reflexivity. Qed.

Lemma X16_openai_display_grows_by_reply_witness :
  shown (trace (snd (callSambaNovaStreaming (Demo.env Demo.servedNet Demo.never) Demo.hello
                       "DeepSeek-V3.1" "samba-key" "sys"
                       {| fetched := 0; trace := [EvReset; EvChunk "partial "] |})))
  = "partial answer".
Proof.
  eapply (X16_openai_display_grows_by_reply (Demo.env Demo.servedNet Demo.never) Demo.hello
            "DeepSeek-V3.1" "samba-key" "sys"
            {| fetched := 0; trace := [EvReset; EvChunk "partial "] |} _
            {| text := "answer"; images := [] |}).
  right. vm_compute. reflexivity.
Defined.

(* ================================================================== *)
(** ** Further properties: auto mode and the router *)
(* ================================================================== *)

Section AutoMore.

Variable E : Env.
Variables (messages : list Chat.ChatMessage) (config : AppConfig).

(** Candidates that fail retryably hand over to the next one. *)
Lemma AutoRun_models (p : Provider) (n : nat) (pre : list string) :
  forall i errs st errs' st',
    AutoRun E messages p config n i pre errs st errs' st' ->
    List.length errs' = List.length errs + List.length pre
    /\ forall rest,
         autoModels E messages p config n i (pre ++ rest) errs st
         = autoModels E messages p config n (i + List.length pre) rest errs' st'.
Proof.
  induction pre as [|m pre IH]; intros i errs st errs' st' Hrun; inversion Hrun; subst.
  - split; [now rewrite Nat.add_0_r | intros rest; now rewrite Nat.add_0_r].
  - match goal with
    | Hrec : AutoRun _ _ _ _ _ _ _ _ _ _ _ |- _ => destruct (IH _ _ _ _ _ Hrec) as [Hlen Hgo]
    end.
    rewrite length_app in Hlen. cbn [List.length] in *.
    split; [lia|]. intros rest. rewrite <- app_comm_cons.
    erewrite autoModels_retry by eassumption.
    rewrite Hgo. now rewrite Nat.add_succ_r.
Qed.

(** X17.  In auto mode, when the first candidates fail with retryable
    errors, the next candidate decides: if it succeeds the call returns its
    reply and the state it left; if it fails with a message that is neither
    a cancellation nor retryable the call fails with that message, after
    logging it.  In both cases the candidates after it are never tried. *)
Theorem X17_auto_first_decisive_candidate (p : Provider) (pre post : list string)
    (m : string) (st st1 st2 : State) (errs : list string) (outcome : Result Reply) :
  let n := List.length (pre ++ m :: post) in
  AutoRun E messages p config n 0 pre [] st errs st1 ->
  aborted E (fetched st1) = false ->
  autoCall E messages p config m (trying st1 m (List.length pre) n) = (outcome, st2) ->
  match outcome with
  | Ok reply =>
      autoModels E messages p config n 0 (pre ++ m :: post) [] st = (Ok reply, st2)
  | Err msg =>
      JS.includes "abort" msg = false ->
      isRetryableError msg = false ->
      autoModels E messages p config n 0 (pre ++ m :: post) [] st
      = (Err msg,
         logged st2 error ("Auto: " ++ getModelShortName m ++ " non-retryable error: "
                           ++ JS.take 80 msg))
  end.
Proof.
  intros n Hrun Hab Hcall.
  destruct (AutoRun_models p n pre 0 [] st errs st1 Hrun) as [_ Hgo].
  rewrite Hgo. cbn [Nat.add].
  rewrite (autoModels_step E messages config p n _ m post errs st1 Hab), Hcall.
  destruct outcome as [reply|msg]; [reflexivity|].
  intros Hc Hr. unfold autoOnError. rewrite Hc, Hr. cbn [negb].
  unfold bind. now rewrite addLog_run.
Qed.

(** X18.  When every candidate of auto mode fails with a retryable error,
    the call fails with [Auto mode: all N models failed. Check API keys or
    try later.] followed by a blank line and the collected failures, one
    per candidate. *)
Theorem X18_auto_exhausted (p : Provider) (ms errs : list string) (st st1 : State) :
  let n := List.length ms in
  AutoRun E messages p config n 0 ms [] st errs st1 ->
  autoModels E messages p config n 0 ms [] st
  = (Err ("Auto mode: all " ++ JS.ofNat n
          ++ " models failed. Check API keys or try later." ++ JS.nl ++ JS.nl
          ++ JS.join JS.nl errs),
     logged st1 error ("Auto: all " ++ JS.ofNat n ++ " models failed"))
  /\ List.length errs = n.
Proof.
  intros n Hrun.
  destruct (AutoRun_models p n ms 0 [] st errs st1 Hrun) as [Hlen Hgo].
  specialize (Hgo []). rewrite app_nil_r in Hgo. rewrite Hgo.
  split; [|exact Hlen]. cbn [autoModels]. unfold bind. now rewrite addLog_run.
Qed.

Lemma autoCall_shown (p : Provider) (m : string) (st st' : State) (reply : Reply) :
  shown (trace st) = "" ->
  autoCall E messages p config m st = (Ok reply, st') ->
  shown (trace st') = text reply.
Proof.
  intros Hs. destruct p; cbn [autoCall].
  - apply callGeminiStreaming_shown.
  - unfold callOpenRouter. destruct (negb (JS.truthy (openrouterKey config)));
      [discriminate|].
    intros H. rewrite (openaiCall_shown E _ _ _ _ _ _ _ _ _ _ H). now rewrite Hs.
  - unfold callSambaNovaStreaming. destruct (negb (JS.truthy (sambaKey config)));
      [discriminate|].
    intros H. rewrite (openaiCall_shown E _ _ _ _ _ _ _ _ _ _ H). now rewrite Hs.
Qed.

Lemma shown_trying (st : State) (m : string) (i n : nat) :
  shown (trace (trying st m i n)) = "".
Proof.
  unfold shown, trying, logged, emitted. cbn [trace]. now rewrite !shownFrom_app.
Qed.

Lemma autoModels_shown (p : Provider) (n : nat) (ms : list string) :
  forall i errs st st' reply,
    autoModels E messages p config n i ms errs st = (Ok reply, st') ->
    shown (trace st') = text reply.
Proof.
  induction ms as [|m rest IH]; intros i errs st st' reply.
  - cbn [autoModels]. unfold bind. rewrite addLog_run. discriminate.
  - destruct (aborted E (fetched st)) eqn:Hab.
    + rewrite (autoModels_aborted E messages config p n i m rest errs st Hab). discriminate.
    + rewrite (autoModels_step E messages config p n i m rest errs st Hab).
      destruct (autoCall E messages p config m (trying st m i n)) as [[r|msg] s1] eqn:Hcall.
      * intros H. injection H as <- <-.
        exact (autoCall_shown p m _ _ _ (shown_trying st m i n) Hcall).
      * unfold autoOnError. destruct (JS.includes "abort" msg); [discriminate|].
        destruct (negb (isRetryableError msg)).
        -- unfold bind. rewrite addLog_run. discriminate.
        -- unfold bind at 1. rewrite addLog_run. apply IH.
Qed.

(** X19.  Whenever [callAutoMode] returns a reply, its text is exactly
    what the callbacks have left on display: the content is reset before
    every candidate, so nothing a failed candidate or key had forwarded
    remains. *)
Theorem X19_auto_display_is_reply (autoKey : string) (st st' : State) (reply : Reply) :
  callAutoMode E messages autoKey config st = (Ok reply, st') ->
  shown (trace st') = text reply.
Proof.
  unfold callAutoMode. destruct (AUTO_MODES_get autoKey) as [c| |]; try discriminate.
  unfold runAutoMode. unfold bind at 1.
  destruct (resolveModels E c config st) as [[ms|msg] s1]; [|discriminate].
  unfold bind at 1. rewrite addLog_run. apply autoModels_shown.
Qed.

Lemma autoCall_noCredential (p : Provider) (m : string) (st : State) :
  noCredential config ->
  exists msg,
    autoCall E messages p config m st = (Err msg, st)
    /\ JS.includes "abort" msg = false /\ isRetryableError msg = false.
Proof.
  intros (Hg & Ho & Hs). destruct p; cbn [autoCall].
  - rewrite Hg. eexists. split; [reflexivity|]. split; reflexivity.
  - rewrite Ho. eexists. split; [reflexivity|]. split; reflexivity.
  - rewrite Hs. eexists. split; [reflexivity|]. split; reflexivity.
Qed.

Lemma autoModels_noCredential (p : Provider) (n i : nat) (ms errs : list string)
    (st : State) :
  noCredential config ->
  exists msg st',
    autoModels E messages p config n i ms errs st = (Err msg, st')
    /\ requests (trace st') = requests (trace st).
Proof.
  intros Hno. destruct ms as [|m rest].
  - cbn [autoModels]. unfold bind. rewrite addLog_run.
    do 2 eexists. split; [reflexivity | apply requests_logged].
  - destruct (aborted E (fetched st)) eqn:Hab.
    + rewrite (autoModels_aborted E messages config p n i m rest errs st Hab).
      do 2 eexists. split; reflexivity.
    + rewrite (autoModels_step E messages config p n i m rest errs st Hab).
      destruct (autoCall_noCredential p m (trying st m i n) Hno) as (msg & Hcall & Hc & Hr).
      rewrite Hcall. unfold autoOnError. rewrite Hc, Hr. cbn [negb].
      unfold bind. rewrite addLog_run.
      do 2 eexists. split; [reflexivity|].
      unfold trying. now rewrite requests_logged, requests_emitted, requests_logged, app_nil_r.
Qed.

(** X20.  Without any credential (no Google key, no OpenRouter key, no
    SambaNova key) [generateResponse] fails for every model identifier and
    every conversation, and never issues a request. *)
Theorem X20_no_credential_no_request (model : string) (st : State) :
  noCredential config ->
  exists msg st',
    generateResponse E messages model config st = (Err msg, st')
    /\ requests (trace st') = requests (trace st).
Proof.
  intros Hno. pose proof Hno as (Hg & Ho & Hs). unfold generateResponse.
  destruct (String.eqb model "auto-search").
  - unfold callSearchMode. cbv zeta.
    destruct (negb (JS.truthy (JS.trim (lastContent messages))));
      [do 2 eexists; split; reflexivity|].
    unfold bind at 1. rewrite addLog_run. rewrite Hg. cbn [List.length Nat.eqb negb].
    unfold bind at 1. rewrite addLog_run. unfold bind at 1. unfold onResetContent.
    rewrite emit_run. unfold callFallbackSearch. cbv zeta. rewrite Hs, Ho.
    cbn [JS.truthy andb]. do 2 eexists. split; [reflexivity|].
    now rewrite requests_emitted, !requests_logged, app_nil_r.
  - destruct (isAutoMode model).
    + unfold callAutoMode. destruct (AUTO_MODES_get model) as [c| |];
        try (do 2 eexists; split; reflexivity).
      unfold runAutoMode. unfold bind at 1.
      assert (Hres : exists r, resolveModels E c config st = (r, st)).
      { unfold resolveModels. destruct (provider c).
        - eexists. reflexivity.
        - unfold bind, shuffled. destruct (List.length _ =? 0); eexists; reflexivity.
        - destruct (List.length _ =? 0); eexists; reflexivity. }
      destruct Hres as [[ms|msg] Hres]; rewrite Hres;
        [|do 2 eexists; split; reflexivity].
      unfold bind at 1. rewrite addLog_run.
      destruct (autoModels_noCredential (provider c) (List.length ms) 0 ms []
                  (logged st info ("🔄 Auto [" ++ label c ++ "] — "
                                   ++ JS.ofNat (List.length ms) ++ " model(s) to try")) Hno)
        as (msg & st' & Hrun & Hreq).
      exists msg, st'. split; [exact Hrun|]. now rewrite Hreq, requests_logged.
    + destruct (isGoogleModel model).
      * unfold callGeminiStreaming. rewrite Hg. do 2 eexists. split; reflexivity.
      * destruct (isSambaModel model).
        -- unfold callSambaNovaStreaming. rewrite Hs. do 2 eexists. split; reflexivity.
        -- unfold callOpenRouter. rewrite Ho. do 2 eexists. split; reflexivity.
Qed.

End AutoMore.

Lemma X17_auto_first_decisive_candidate_witness :
  fst (autoModels (Demo.env Demo.busyThenBadNet Demo.never) Demo.hello sambanova Demo.config
         3 0 ["DeepSeek-R1-0528"; "DeepSeek-V3.1"; "gpt-oss-120b"] [] Demo.st0)
  = Err "SambaNova 400: bad request".
Proof.
  eassert (Hrun : AutoRun (Demo.env Demo.busyThenBadNet Demo.never) Demo.hello sambanova
                    Demo.config 3 0 ["DeepSeek-R1-0528"] [] Demo.st0 _ _).
  { eapply AutoRun_cons; [reflexivity | vm_compute; reflexivity | reflexivity
                          | reflexivity | apply AutoRun_nil]. }
  match type of Hrun with
  | AutoRun _ _ _ _ _ _ _ _ _ _ ?s1 =>
      eassert (Hcall : autoCall (Demo.env Demo.busyThenBadNet Demo.never) Demo.hello
                         sambanova Demo.config "DeepSeek-V3.1"
                         (trying s1 "DeepSeek-V3.1" 1 3)
                       = (Err "SambaNova 400: bad request", _))
  end.
  { vm_compute. reflexivity. }
  pose proof (X17_auto_first_decisive_candidate (Demo.env Demo.busyThenBadNet Demo.never)
                Demo.hello Demo.config sambanova ["DeepSeek-R1-0528"] ["gpt-oss-120b"]
                "DeepSeek-V3.1" Demo.st0 _ _ _ _ Hrun eq_refl Hcall eq_refl eq_refl) as H.
  exact (f_equal fst H).
Defined.

Lemma X18_auto_exhausted_witness :
  fst (autoModels (Demo.env Demo.busyNet Demo.never) Demo.hello sambanova Demo.config
         2 0 ["DeepSeek-V3.1"; "gpt-oss-120b"] [] Demo.st0)
  = Err ("Auto mode: all 2 models failed. Check API keys or try later." ++ JS.nl ++ JS.nl
         ++ "DeepSeek-V3.1: SambaNova 503: busy" ++ JS.nl
         ++ "gpt-oss-120b: SambaNova 503: busy").
Proof.
  edestruct (X18_auto_exhausted (Demo.env Demo.busyNet Demo.never) Demo.hello Demo.config
               sambanova ["DeepSeek-V3.1"; "gpt-oss-120b"]) as [H _].
  - eapply AutoRun_cons; [reflexivity | vm_compute; reflexivity | reflexivity
                          | reflexivity |].
    eapply AutoRun_cons; [reflexivity | vm_compute; reflexivity | reflexivity
                          | reflexivity | apply AutoRun_nil].
  - rewrite H. reflexivity.
Defined.

Lemma X19_auto_display_is_reply_witness :
  shown (trace (snd (callAutoMode (Demo.env Demo.busyThenServedNet Demo.never) Demo.hello
                       "auto-samba" Demo.config Demo.st0)))
  = "hello".
Proof.
  eapply (X19_auto_display_is_reply (Demo.env Demo.busyThenServedNet Demo.never) Demo.hello
            Demo.config "auto-samba" Demo.st0 _ {| text := "hello"; images := [] |}).
  vm_compute. reflexivity.
Defined.

Lemma X20_no_credential_no_request_witness :
  exists msg st',
    generateResponse (Demo.env Demo.servedNet Demo.never) Demo.hello "auto-gemini-pro"
      Demo.noCredentials Demo.st0 = (Err msg, st')
    /\ requests (trace st') = [].
Proof.
  apply (X20_no_credential_no_request (Demo.env Demo.servedNet Demo.never) Demo.hello
           Demo.noCredentials "auto-gemini-pro" Demo.st0).
  repeat split.
Defined.

(* ================================================================== *)
(** ** Further properties: search mode *)
(* ================================================================== *)

Lemma startsWith_take (p : string) :
  forall n s, JS.startsWith p (JS.take n s) = true -> JS.startsWith p s = true.
Proof.
  induction p as [|a p IH]; intros n s H; [reflexivity|].
  destruct n as [|n]; [discriminate|]. destruct s as [|b s]; [discriminate|].
  cbn [JS.take JS.startsWith] in *. apply andb_true_iff in H as [Hab Hp].
  now rewrite Hab, (IH _ _ Hp).
Qed.

Lemma includes_take (p : string) :
  forall n s, JS.includes p (JS.take n s) = true -> JS.includes p s = true.
Proof.
  intros n s. revert n. induction s as [|b s IH]; intros n H.
  - destruct n; exact H.
  - destruct n as [|n].
    + cbn [JS.take JS.includes] in H. rewrite orb_false_r in H.
      destruct p; [reflexivity | discriminate].
    + cbn [JS.take] in H. cbn [JS.includes] in *. apply orb_true_iff in H as [H|H].
      * pose proof (startsWith_take p (S n) (String b s)) as Hs. cbn [JS.take] in Hs.
        now rewrite (Hs H).
      * rewrite (IH _ H). apply orb_true_r.
Qed.

Lemma isLocationError_take (n : nat) (s : string) :
  isLocationError (JS.take n s) = true -> isLocationError s = true.
Proof.
  unfold isLocationError. intros H. apply orb_true_iff in H as [H|H];
    rewrite (includes_take _ _ _ H); [reflexivity | apply orb_true_r].
Qed.

Lemma isLocationError_app_r (a s : string) :
  isLocationError s = true -> isLocationError (a ++ s) = true.
Proof.
  unfold isLocationError. intros H. apply orb_true_iff in H as [H|H];
    rewrite (includes_app_r _ a _ H); [reflexivity | apply orb_true_r].
Qed.

Section SearchMore.

Variable E : Env.
Variables (messages : list Chat.ChatMessage) (config : AppConfig).

(** X21.  In search mode, when the first grounded request is refused
    (any status outside 200-299) with a body whose first 200 characters
    say [not supported] or [FAILED_PRECONDITION], the call fails with
    [HTTP 400: ] followed by those characters, whatever the status was.
    That one request is the only one: no other key or model is tried and
    the fallback providers are not used, whatever credentials they have. *)
Theorem X21_location_error_is_final (st : State) (key : string) (rest : list string)
    (s : nat) (chunks : list string) :
  JS.truthy (JS.trim (lastContent messages)) = true ->
  googleKeys config <> [] ->
  shuffle E (fetched st) (googleKeys config) = key :: rest ->
  aborted E (fetched st) = false ->
  let req := searchRequest messages (searchSystemPrompt E) "gemini-2.5-flash" key in
  net E (fetched st) req = Responds s chunks None ->
  (200 <=? s) && (s <=? 299) = false ->
  isLocationError (JS.take 200 (String.concat "" chunks)) = true ->
  let st1 := requested
               (logged (searching st) info
                  ("🔍 Searching via gemini-2.5-flash ..." ++ JS.takeLast 6 key)) req in
  callSearchMode E messages config st
  = (Err ("HTTP 400: " ++ JS.take 200 (String.concat "" chunks)), st1)
  /\ requests (trace st1) = requests (trace st) ++ [req].
Proof.
  intros Hq Hk Hsh Hab req Hnet Hok Hloc st1.
  assert (Hatt : searchAttempt E messages (searchSystemPrompt E) "gemini-2.5-flash" key
                   (searching st)
                 = (Err ("HTTP 400: " ++ JS.take 200 (String.concat "" chunks)), st1)).
  { unfold searchAttempt. cbv zeta. unfold bind at 1. rewrite addLog_run.
    unfold bind at 1. unfold fetch.
    change (fetched (logged (searching st) info _)) with (fetched st).
    fold req. rewrite Hnet. unfold bind at 1. unfold ok. cbn [status]. rewrite Hok.
    cbn [negb]. unfold bind at 1. unfold responseText. cbn [ending body ret].
    now rewrite (isLocationError_take _ _ Hloc). }
  assert (Hsearch : callGeminiWithSearch E messages (googleKeys config) (searchSystemPrompt E)
                      (searching st)
                    = (Err ("HTTP 400: " ++ JS.take 200 (String.concat "" chunks)), st1)).
  { unfold callGeminiWithSearch, bind, shuffled.
    change (fetched (searching st)) with (fetched st). rewrite Hsh.
    unfold searchModels. cbn [searchModelsLoop].
    rewrite (searchKeys_step E messages _ _ key rest _ (searching st) Hab).
    rewrite (tryCatch_err _ _ _ _ _ Hatt). unfold searchOnError.
    destruct (JS.includes "abort" _); [reflexivity|].
    now rewrite (isLocationError_app_r "HTTP 400: " _ Hloc). }
  split.
  - rewrite (callSearchMode_primary E messages config st Hq Hk), Hsearch.
    destruct (JS.includes "abort" _); [reflexivity|].
    now rewrite (isLocationError_app_r "HTTP 400: " _ Hloc).
  - unfold st1, requested, searching. cbn [trace].
    rewrite requests_app, requests_logged, requests_emitted, requests_logged.
    cbn [requests]. now rewrite app_nil_r.
Qed.

Lemma onlyRequests_quiet {A} (P : Request -> Prop) (c : M A) :
  quiet c -> onlyRequests P c.
Proof.
  intros Hq st. exists []. destruct (Hq st) as [_ Hr].
  split; [now rewrite app_nil_r | constructor].
Qed.

Lemma onlyRequests_one {A} (P : Request -> Prop) (req : Request) (c : M A) :
  P req -> oneRequest req c -> onlyRequests P c.
Proof.
  intros HP Hone st. exists [req]. destruct (Hone st) as [_ Hr].
  split; [exact Hr | now repeat constructor].
Qed.

Lemma onlyRequests_bind {A B} (P : Request -> Prop) (c : M A) (k : A -> M B) :
  onlyRequests P c -> (forall a, onlyRequests P (k a)) -> onlyRequests P (bind c k).
Proof.
  intros Hc Hk st. unfold bind. destruct (Hc st) as (m1 & H1 & HP1).
  destruct (c st) as [[a|msg] s1]; cbn [snd] in *; [|exists m1; now split].
  destruct (Hk a s1) as (m2 & H2 & HP2). exists (m1 ++ m2).
  split; [now rewrite H2, H1, app_assoc | now apply Forall_app].
Qed.

Lemma onlyRequests_tryCatch {A} (P : Request -> Prop) (c : M A) (h : string -> M A) :
  onlyRequests P c -> (forall m, onlyRequests P (h m)) -> onlyRequests P (tryCatch c h).
Proof.
  intros Hc Hh st. unfold tryCatch. destruct (Hc st) as (m1 & H1 & HP1).
  destruct (c st) as [[a|msg] s1]; cbn [snd] in *; [exists m1; now split|].
  destruct (Hh msg s1) as (m2 & H2 & HP2). exists (m1 ++ m2).
  split; [now rewrite H2, H1, app_assoc | now apply Forall_app].
Qed.

Lemma openaiCall_one_request (name tag endpoint : string)
    (model apiKey systemPrompt : string) :
  oneRequest (openaiRequest endpoint messages model apiKey systemPrompt)
    (openaiCall E name tag endpoint messages model apiKey systemPrompt).
Proof.
  unfold openaiCall. apply oneRequest_addLog, oneRequest_fetch. intros response. quiet_tac.
  - unfold responseText. quiet_tac.
  - apply quiet_readLoop. intros line acc. unfold openaiLine. quiet_tac.
Qed.

Lemma callSambaNovaStreaming_only (model apiKey systemPrompt : string) :
  onlyRequests isOpenAIRequest
    (callSambaNovaStreaming E messages model apiKey systemPrompt).
Proof.
  unfold callSambaNovaStreaming. destruct (negb (JS.truthy apiKey)).
  - apply onlyRequests_quiet, quiet_throw.
  - eapply onlyRequests_one; [|apply openaiCall_one_request].
    split; [left; reflexivity | reflexivity].
Qed.

Lemma callOpenRouter_only (model apiKey systemPrompt : string) :
  onlyRequests isOpenAIRequest (callOpenRouter E messages model apiKey systemPrompt).
Proof.
  unfold callOpenRouter. destruct (negb (JS.truthy apiKey)).
  - apply onlyRequests_quiet, quiet_throw.
  - eapply onlyRequests_one; [|apply openaiCall_one_request].
    split; [right; reflexivity | reflexivity].
Qed.

Lemma fallbackSamba_only (prompt : string) (models : list string) (next : M Reply) :
  onlyRequests isOpenAIRequest next ->
  onlyRequests isOpenAIRequest (fallbackSamba E messages config prompt models next).
Proof.
  intros Hnext. induction models as [|m more IH]; [exact Hnext|].
  cbn [fallbackSamba]. apply onlyRequests_bind.
  - apply onlyRequests_quiet. intros st. split; reflexivity.
  - intros [|]; [apply onlyRequests_quiet, quiet_throw|].
    apply onlyRequests_tryCatch.
    + apply onlyRequests_bind; [apply onlyRequests_quiet, quiet_addLog|].
      intros _. apply callSambaNovaStreaming_only.
    + intros msg. destruct (JS.includes "abort" msg);
        [apply onlyRequests_quiet, quiet_throw | exact IH].
Qed.

Lemma callFallbackSearch_only :
  onlyRequests isOpenAIRequest (callFallbackSearch E messages config).
Proof.
  unfold callFallbackSearch. cbv zeta.
  assert (Hor : onlyRequests isOpenAIRequest
            (if JS.truthy (openrouterKey config)
                && negb (List.length (openrouterModels config) =? 0)
             then
               (addLog info ("📝 Fallback via OpenRouter "
                             ++ getModelShortName (hd "" (openrouterModels config))) ;;
                callOpenRouter E messages (hd "" (openrouterModels config))
                  (openrouterKey config) (fallbackPrompt E))%monad
             else
               throw "AI Search requires Google API keys (for web search) or SambaNova/OpenRouter keys (for knowledge-based answers). Add keys in Settings.")).
  { destruct (JS.truthy (openrouterKey config)
              && negb (List.length (openrouterModels config) =? 0)).
    - apply onlyRequests_bind; [apply onlyRequests_quiet, quiet_addLog|].
      intros _. apply callOpenRouter_only.
    - apply onlyRequests_quiet, quiet_throw. }
  destruct (JS.truthy (sambaKey config)); [now apply fallbackSamba_only | exact Hor].
Qed.

(** X22.  Without a Google key, search mode never asks Google: every
    request it issues goes to the SambaNova or the OpenRouter endpoint,
    without the search tool. *)
Theorem X22_search_without_google_keys (st : State) :
  googleKeys config = [] ->
  exists more,
    requests (trace (snd (callSearchMode E messages config st)))
    = requests (trace st) ++ more
    /\ Forall isOpenAIRequest more.
Proof.
  intros Hg.
  assert (H : onlyRequests isOpenAIRequest (callSearchMode E messages config));
    [|exact (H st)].
  unfold callSearchMode. cbv zeta. rewrite Hg. cbn [List.length Nat.eqb negb].
  destruct (negb (JS.truthy (JS.trim (lastContent messages))));
    [apply onlyRequests_quiet, quiet_throw|].
  apply onlyRequests_bind; [apply onlyRequests_quiet, quiet_addLog|]. intros _.
  apply onlyRequests_bind; [apply onlyRequests_quiet, quiet_addLog|]. intros _.
  apply onlyRequests_bind; [apply onlyRequests_quiet, quiet_onResetContent|]. intros _.
  apply callFallbackSearch_only.
Qed.

End SearchMore.

Lemma X21_location_error_is_final_witness :
  let run := callSearchMode (Demo.env Demo.locationNet Demo.never) Demo.hello Demo.config
               Demo.st0 in
  fst run = Err "HTTP 400: FAILED_PRECONDITION: User location is not supported"
  /\ List.length (requests (trace (snd run))) = 1.
Proof.
  cbv zeta.
  destruct (X21_location_error_is_final (Demo.env Demo.locationNet Demo.never) Demo.hello
              Demo.config Demo.st0 Demo.keyA [Demo.keyB] 403
              ["FAILED_PRECONDITION: User location is not supported"]
              eq_refl ltac:(discriminate) eq_refl eq_refl eq_refl eq_refl eq_refl)
    as [Hrun Hreqs].
  rewrite Hrun. cbn [fst snd]. split; [reflexivity|]. rewrite Hreqs. reflexivity.
Defined.

Lemma X22_search_without_google_keys_witness :
  let run := callSearchMode (Demo.env Demo.servedNet Demo.never) Demo.hello Demo.sambaOnly
               Demo.st0 in
  fst run = Ok {| text := "answer"; images := [] |}
  /\ exists more, requests (trace (snd run)) = [] ++ more /\ Forall isOpenAIRequest more.
Proof.
  cbv zeta. split; [vm_compute; reflexivity|].
  apply (X22_search_without_google_keys (Demo.env Demo.servedNet Demo.never) Demo.hello
           Demo.sambaOnly Demo.st0).
  reflexivity.
Defined.

(* ================================================================== *)
(** ** Further properties: no empty answer *)
(* ================================================================== *)

Lemma concat_truthy (l : list string) :
  Forall (fun t => JS.truthy t = true) l -> l <> [] -> JS.truthy (String.concat "" l) = true.
Proof.
  intros Hall Hne. destruct l as [|t ts]; [contradiction|].
  rewrite concat_cons. inversion Hall as [|? ? Ht _]. subst.
  destruct t; [discriminate | reflexivity].
Qed.

(** A text that is a string and passes the test is not empty. *)
Lemma text_truthy (p : Wire.Part) (t : JS.Value) :
  textIsString p = true -> Wire.text p = Some t -> JS.toBoolean t = true ->
  JS.truthy (JS.toString t) = true.
Proof.
  unfold textIsString. intros Hs Ht Hb. rewrite Ht in Hs.
  destruct t as [s|b s]; [exact Hb | discriminate Hs].
Qed.

Lemma partTexts_truthy (parts : list Wire.Part) :
  forallb textIsString parts = true ->
  Forall (fun t => JS.truthy t = true) (partTexts parts).
Proof.
  induction parts as [|p parts IH]; [constructor|].
  cbn [forallb]. intros H. apply andb_true_iff in H as [Hp Hparts].
  unfold partTexts in *. cbn [flat_map]. apply Forall_app. split; [|exact (IH Hparts)].
  destruct (Wire.text p) as [t|] eqn:Ht; [|constructor].
  destruct (JS.toBoolean t) eqn:Hb; repeat constructor.
  exact (text_truthy p t Hp Ht Hb).
Qed.

Lemma lineParts_strings (E : Env) (line : string) :
  stringTexts E -> forallb textIsString (lineParts E line) = true.
Proof.
  intros Hs. unfold lineParts, lineRecord.
  destruct (negb (JS.startsWith "data: " line)); [reflexivity|]. cbv zeta.
  destruct (negb (JS.truthy (JS.trim (JS.drop 6 line)))
            || String.eqb (JS.trim (JS.drop 6 line)) "[DONE]"); [reflexivity|].
  destruct (parseGemini E (JS.trim (JS.drop 6 line))) as [data|] eqn:Hp; [|reflexivity].
  specialize (Hs _ _ Hp). destruct (Wire.candidates data); [reflexivity | exact Hs].
Qed.

Lemma lineTexts_truthy (E : Env) (lines : list string) :
  stringTexts E ->
  Forall (fun t => JS.truthy t = true) (flat_map (lineTexts E) lines).
Proof.
  intros Hs. induction lines as [|l lines IH]; [constructor|].
  cbn [flat_map]. apply Forall_app. split; [|exact IH].
  apply partTexts_truthy, lineParts_strings, Hs.
Qed.

Section NoEmptyAnswer.

Variable E : Env.
Variables (messages : list Chat.ChatMessage).
Hypothesis strings : stringTexts E.

Lemma content_not_empty (texts pictures : list string) :
  Forall (fun t => JS.truthy t = true) texts ->
  isNil texts && isNil pictures = false ->
  JS.truthy (String.concat "" texts) = true \/ pictures <> [].
Proof.
  intros Hall Hnil. destruct texts as [|t ts].
  - right. destruct pictures; [discriminate Hnil | discriminate].
  - left. apply concat_truthy; [exact Hall | discriminate].
Qed.

Lemma geminiAttempt_not_empty (model systemPrompt key : string) (i n : nat)
    (st st' : State) (reply : Reply) :
  geminiAttempt E messages model systemPrompt key i n st = (Ok reply, st') ->
  JS.truthy (text reply) = true \/ images reply <> [].
Proof.
  destruct (net E (fetched st) (geminiRequest messages model systemPrompt key))
    as [m|s chunks fin] eqn:Hnet.
  - unfold geminiAttempt. cbv zeta. unfold bind at 1. rewrite addLog_run.
    unfold bind at 1. unfold fetch.
    change (fetched (logged st info _)) with (fetched st). rewrite Hnet. discriminate.
  - destruct ((200 <=? s) && (s <=? 299)) eqn:Hok.
    + destruct (lines_clean_or_fault E (streamLines "" chunks))
        as [Hclean | (pre & l & post & msg & Hlines & Hpre & Hl)].
      * rewrite (geminiAttempt_clean E messages model systemPrompt key i n st s chunks fin
                   Hnet Hok Hclean).
        destruct fin; [discriminate|].
        destruct (isNil _ && isNil _) eqn:Hnil; [discriminate|].
        intros H. injection H as <- _. cbn [text images].
        exact (content_not_empty _ _ (lineTexts_truthy E _ strings) Hnil).
      * rewrite (geminiAttempt_interrupted E messages model systemPrompt key i n st
                   s chunks fin pre post l msg Hnet Hok Hlines Hpre Hl).
        destruct (isNil _ && isNil _) eqn:Hnil; [discriminate|].
        intros H. injection H as <- _. cbn [text images].
        exact (content_not_empty _ _ (lineTexts_truthy E _ strings) Hnil).
    + unfold geminiAttempt. cbv zeta. unfold bind at 1. rewrite addLog_run.
      unfold bind at 1. unfold fetch.
      change (fetched (logged st info _)) with (fetched st). rewrite Hnet.
      unfold bind at 1. unfold ok. cbn [status]. rewrite Hok. cbn [negb].
      unfold bind at 1. unfold responseText. cbn [ending body].
      destruct fin; discriminate.
Qed.

(** A reply of the key loop is the reply of one of its attempts. *)
Lemma geminiKeys_reply_of_attempt (model systemPrompt : string) (n : nat)
    (ks : list string) :
  forall i st st' reply,
    geminiKeys E messages model systemPrompt n i ks st = (Ok reply, st') ->
    exists key j st0,
      In key ks
      /\ geminiAttempt E messages model systemPrompt key j n st0 = (Ok reply, st').
Proof.
  induction ks as [|key rest IH]; intros i st st' reply.
  - cbn [geminiKeys]. unfold bind. rewrite addLog_run. discriminate.
  - destruct (aborted E (fetched st)) eqn:Hab.
    + rewrite (geminiKeys_aborted E messages model systemPrompt n i key rest st Hab).
      discriminate.
    + rewrite (geminiKeys_step E messages model systemPrompt n i key rest st Hab).
      unfold tryCatch.
      destruct (geminiAttempt E messages model systemPrompt key i n st)
        as [[r|msg] s1] eqn:Hatt.
      * intros H. injection H as <- <-. exists key, i, st. split; [now left | exact Hatt].
      * unfold geminiOnError.
        destruct (JS.includes "abort" msg); [discriminate|].
        unfold bind at 1. rewrite addLog_run.
        destruct (negb (isRetryableError msg)); [discriminate|].
        intros H. destruct (IH _ _ _ _ H) as (k & j & s0 & Hin & Hk).
        exists k, j, s0. split; [now right | exact Hk].
Qed.

(** X23.  When the texts of the parts of the stream are strings, as the
    API declares them, [callGeminiStreaming] never returns an empty reply:
    a reply has a non-empty text or at least one image, also when it comes
    from an interrupted stream. *)
Theorem X23_gemini_reply_not_empty (model : string) (keys : list string)
    (systemPrompt : string) (st st' : State) (reply : Reply) :
  callGeminiStreaming E messages model keys systemPrompt st = (Ok reply, st') ->
  text reply <> "" \/ images reply <> [].
Proof.
  unfold callGeminiStreaming.
  destruct (List.length keys =? 0); [discriminate|].
  unfold bind at 1. unfold shuffled. unfold bind at 1. rewrite addLog_run.
  intros H. destruct (geminiKeys_reply_of_attempt _ _ _ _ _ _ _ _ H) as (k & j & s0 & _ & Hk).
  destruct (geminiAttempt_not_empty _ _ _ _ _ _ _ _ Hk) as [Ht|Hi]; [left | now right].
  intros Heq. rewrite Heq in Ht. discriminate Ht.
Qed.

Lemma truthy_app_r (a b : string) : JS.truthy b = true -> JS.truthy (a ++ b) = true.
Proof. intros H. destruct a; [exact H | reflexivity]. Qed.

Lemma searchParts_hasText (parts : list Wire.Part) :
  forallb textIsString parts = true ->
  forall acc st,
    hasText acc ->
    exists a st', searchParts parts acc st = (Ok a, st') /\ hasText a.
Proof.
  induction parts as [|p more IH]; intros Hparts acc st Hacc.
  - exists acc, st. split; [reflexivity | exact Hacc].
  - cbn [forallb] in Hparts. apply andb_true_iff in Hparts as [Hp Hmore].
    cbn [searchParts]. destruct (Wire.text p) as [t|] eqn:Ht.
    + destruct (JS.toBoolean t) eqn:Hb.
      * unfold bind at 1. unfold bind at 1. unfold onChunk. rewrite emit_run. cbn [ret].
        apply (IH Hmore). intros _. cbn [sFullText].
        apply truthy_app_r. exact (text_truthy p t Hp Ht Hb).
      * unfold bind. cbn [ret]. now apply IH.
    + unfold bind. cbn [ret]. now apply IH.
Qed.

Lemma searchLine_hasText (line : string) (acc : SearchAcc) :
  hasText acc ->
  keeps hasText (fun r => JS.truthy (s_text r) = true) (searchLine E line acc).
Proof.
  intros Hacc st. unfold searchLine.
  destruct (negb (JS.startsWith "data: " line)); [exact Hacc|]. cbv zeta.
  destruct (negb (JS.truthy (JS.trim (JS.drop 6 line)))
            || String.eqb (JS.trim (JS.drop 6 line)) "[DONE]"); [exact Hacc|].
  destruct (parseGemini E (JS.trim (JS.drop 6 line))) as [data|] eqn:Hparse; [|exact Hacc].
  pose proof (strings _ _ Hparse) as Hs.
  unfold tryCatch, searchData.
  destruct (Wire.error data) as [e|].
  - cbn [throw]. unfold searchCatch.
    destruct (JS.startsWith "Stream error" _); [|exact Hacc].
    destruct (sGotContent acc) eqn:Hg; [|exact I].
    unfold bind. rewrite addLog_run. cbn. exact (Hacc Hg).
  - destruct (Wire.candidates data) as [|candidate cs]; [exact Hacc|].
    unfold bind at 1.
    destruct (searchParts_hasText (Wire.parts candidate) Hs acc st Hacc)
      as (a & st' & Hrun & Ha).
    rewrite Hrun.
    destruct (Wire.groundingMetadata candidate) as [meta|]; [|exact Ha].
    assert (Hacc2 : hasText
              match Wire.groundingChunks meta with
              | Some chunks =>
                  {| sFullText := sFullText a;
                     sSources := collectSources chunks (sSources a);
                     sGotContent := sGotContent a |}
              | None => a
              end).
    { destruct (Wire.groundingChunks meta); exact Ha. }
    destruct (Wire.webSearchQueries meta) as [qs|]; [|exact Hacc2].
    unfold bind. rewrite addLog_run. exact Hacc2.
Qed.

Lemma searchAttempt_hasText (sys model key : string) (st st' : State) (r : SearchReply) :
  searchAttempt E messages sys model key st = (Ok r, st') ->
  JS.truthy (s_text r) = true.
Proof.
  unfold searchAttempt. cbv zeta. unfold bind at 1. rewrite addLog_run.
  unfold bind at 1. unfold fetch.
  destruct (net E _ _) as [m|s chunks fin]; [discriminate|].
  unfold bind at 1.
  match goal with
  | |- context [if negb (ok ?resp) then _ else _] => destruct (negb (ok resp))
  end.
  - unfold bind at 1. unfold responseText. cbn [ending body].
    destruct fin; [discriminate|]. cbn [ret].
    destruct (isLocationError _); discriminate.
  - cbn [ret]. unfold bind at 1. cbn [body ending].
    match goal with
    | |- context [readLoop (searchLine E) chunks fin "" searchAcc0 ?s1] =>
        pose proof (keeps_readLoop (searchLine E) hasText
                      (fun r => JS.truthy (s_text r) = true)
                      searchLine_hasText chunks fin "" searchAcc0
                      (fun H : false = true => False_ind _ (Bool.diff_false_true H)) s1) as Hk;
        destruct (readLoop (searchLine E) chunks fin "" searchAcc0 s1)
          as [[[acc|reply]|m] s2]
    end; cbn [fst] in Hk.
    + destruct (sGotContent acc) eqn:Hg; cbn [negb andb].
      * unfold bind. rewrite addLog_run. cbn [ret]. intros H. injection H as <- _.
        exact (Hk Hg).
      * destruct (JS.truthy (sFullText acc)) eqn:Ht; cbn [negb]; [|discriminate].
        unfold bind. rewrite addLog_run. cbn [ret]. intros H. injection H as <- _.
        exact Ht.
    + cbn [ret]. intros H. injection H as <- _. exact Hk.
    + discriminate.
Qed.

Lemma searchKeys_hasText (sys model : string) (next : M SearchReply) :
  (forall st st' r, next st = (Ok r, st') -> JS.truthy (s_text r) = true) ->
  forall ks st st' r,
    searchKeys E messages sys model ks next st = (Ok r, st') ->
    JS.truthy (s_text r) = true.
Proof.
  intros Hnext ks. induction ks as [|key rest IH]; intros st st' r; [apply Hnext|].
  cbn [searchKeys]. unfold bind, signalAborted.
  destruct (aborted E (fetched st)); [discriminate|].
  unfold tryCatch.
  destruct (searchAttempt E messages sys model key st) as [[reply|msg] s1] eqn:Hatt.
  - intros H. injection H as <- _. eapply searchAttempt_hasText, Hatt.
  - unfold searchOnError.
    destruct (JS.includes "abort" msg); [discriminate|].
    destruct (isLocationError msg); [discriminate|].
    unfold bind. rewrite addLog_run. apply IH.
Qed.

(** X24.  When the texts of the parts of the stream are strings, as the
    API declares them, a grounded search never returns an empty answer:
    whenever [callGeminiWithSearch] returns, the text is not empty, also
    when it comes from an interrupted stream. *)
Theorem X24_search_answer_not_empty (keys : list string) (sys : string)
    (st st' : State) (r : SearchReply) :
  callGeminiWithSearch E messages keys sys st = (Ok r, st') ->
  s_text r <> "".
Proof.
  intros H. assert (Ht : JS.truthy (s_text r) = true).
  { revert H. unfold callGeminiWithSearch, bind, shuffled, searchModels.
    cbn [searchModelsLoop].
    apply searchKeys_hasText. intros s1 s2 r1.
    apply searchKeys_hasText. intros s3 s4 r2. discriminate. }
  intros Heq. rewrite Heq in Ht. discriminate Ht.
Qed.

End NoEmptyAnswer.

(** The toy decoder yields strings only. *)
Lemma Demo_stringTexts (net : nat -> Request -> FetchOutcome) (ab : nat -> bool) :
  stringTexts (Demo.env net ab).
Proof.
  intros s data. cbn [parseGemini Demo.env].
  destruct s as [|c t]; [discriminate|].
  destruct c as [b0 b1 b2 b3 b4 b5 b6 b7].
  destruct b0, b1, b2, b3, b4, b5, b6, b7; cbn [Demo.decodeGemini];
    try discriminate; intros H; injection H as <-; reflexivity.
Qed.

Lemma X23_gemini_reply_not_empty_witness :
  stringTexts (Demo.env Demo.busyThenServedNet Demo.never)
  /\ (text {| text := "hello"; images := [] |} <> ""
      \/ images {| text := "hello"; images := [] |} <> []).
Proof.
  split; [apply Demo_stringTexts|].
  eapply (X23_gemini_reply_not_empty (Demo.env Demo.busyThenServedNet Demo.never) Demo.hello
            (Demo_stringTexts _ _) Demo.flash [Demo.keyA; Demo.keyB] "sys" Demo.st0).
  vm_compute. reflexivity.
Defined.

Lemma X24_search_answer_not_empty_witness :
  stringTexts (Demo.env Demo.groundedNet Demo.never)
  /\ s_text {| s_text := "answer";
               s_sources := [ {| title := ""; url := "https://a.example/x" |} ] |} <> "".
Proof.
  split; [apply Demo_stringTexts|].
  eapply (X24_search_answer_not_empty (Demo.env Demo.groundedNet Demo.never) Demo.hello
            (Demo_stringTexts _ _) [Demo.keyA] "sys" Demo.st0).
  vm_compute. reflexivity.
Defined.

(** Without that typing the conclusion fails: a part whose text is the
    empty array passes the test [if (part.text)], appends nothing and sets
    [gotContent], so both callers return an empty text. *)
Example empty_array_text_gives_empty_reply :
  let E := Demo.looseEnv Demo.arrayNet Demo.never in
  fst (callGeminiStreaming E Demo.hello Demo.flash [Demo.keyA] "sys" Demo.st0)
    = Ok {| text := ""; images := [] |}
  /\ fst (callGeminiWithSearch E Demo.hello [Demo.keyA] "sys" Demo.st0)
     = Ok {| s_text := ""; s_sources := [] |}
  /\ fst (callOpenRouter E Demo.hello "vendor/model" "or-key" "sys" Demo.st0)
     = Ok {| text := ""; images := [] |}
  /\ shown (trace (snd (callOpenRouter E Demo.hello "vendor/model" "or-key" "sys" Demo.st0)))
     = "".
Proof. vm_compute. repeat split. Qed.
